(** * rowmetrics: the sampling-and-diff engine of [main.go]

    A shallow embedding of the Go program (one file, [main.go]) and the
    properties of its delta engine, query builder, collector, snapshot
    store and run orchestration.

    Conventions.
    - A Go [int] is a 64-bit two's complement integer; it is a [Z] here and
      the wrap-around of the one arithmetic operation the program performs
      on counters (a subtraction) is written out.
    - A Go [map[string]V] is an [option (gmap string V)]: [None] is the nil
      map, [Some m] a map made by [make] (or by the YAML decoder).
    - A Go [string] is a byte string: [string] of [ascii].
    - Libraries outside the repository (database/sql, sqlx, yaml.v2, the AWS
      SDK, package flag, the operating system) are interfaces: classes
      whose methods give the outcome of each call.  Theorems hold for every
      instance. *)

From Stdlib Require Import ZArith String Ascii List Lia DecimalString.
From stdpp Require Import base option list gmap strings.

Local Open Scope string_scope.
Local Open Scope Z_scope.
Local Open Scope list_scope.

(** * Part I: the program *)

(** ** Go integers *)

Module GoInt.

Definition min_int : Z := - 2 ^ 63.
Definition max_int : Z := 2 ^ 63 - 1.

Definition in_range (z : Z) : Prop := min_int ≤ z ≤ max_int.

(** The value of a mathematical integer as an [int]. *)
Definition wrap (z : Z) : Z := (z + 2 ^ 63) `mod` 2 ^ 64 - 2 ^ 63.

(** [a - b] on two [int]s. *)
Definition sub (a b : Z) : Z := wrap (a - b).

End GoInt.

(** ** Go maps *)

Definition gomap (V : Type) : Type := option (gmap string V).

(** [make(map[string]V)] *)
Definition make {V} : gomap V := Some ∅.

(** [v, ok := m[k]]: reading a nil map finds nothing. *)
Definition mget {V} (m : gomap V) (k : string) : option V :=
  match m with
  | Some g => g !! k
  | None => None
  end.

(** [m[k]] on a [map[string]string]: the empty string when [k] is absent. *)
Definition mgetString (m : gomap string) (k : string) : string :=
  default EmptyString (mget m k).

(** The entries a [range] loop visits.  Go leaves the order unspecified;
    the order of [map_to_list] stands for the one the runtime picks. *)
Definition mrange {V} (m : gomap V) : list (string * V) :=
  match m with
  | Some g => map_to_list g
  | None => []
  end.

(** The key set of a map. *)
Definition mkeys {V} (m : gomap V) : gset string :=
  match m with
  | Some g => dom g
  | None => ∅
  end.

(** ** Data model (main.go, lines 23-65) *)

(** [tableConfig]: the two sets of table names of a database.  The fields
    are [Increment] and [Row] in the source; the suffix keeps them apart
    from the fields of [countCollection]. *)
Record tableConfig : Type := TableConfig {
  IncrementTables : list string;
  RowTables : list string
}.

(** [databaseConfig] ([Type] is [Type_]: the source's name is a keyword). *)
Record databaseConfig : Type := DatabaseConfig {
  Name : string;
  Host : string;
  Type_ : string;
  User : string;
  Password : string;
  Database : string;
  Schema : string;
  Tables : tableConfig
}.

(** [applicationConfig] *)
Record applicationConfig : Type := ApplicationConfig {
  AwsConfig : gomap string;
  CountPath : string;
  Databases : list databaseConfig
}.

(** [countCollection]: table name to counter, for the two counter kinds. *)
Record countCollection : Type := CountCollection {
  Increment : gomap Z;
  Row : gomap Z
}.

(** ** Effects: what a run does to the outside *)

(** A Go [error], by its message. *)
Definition error : Type := string.

(** Fallible calls whose value is only used on success. *)
Inductive result (A : Type) : Type :=
| Ok (a : A)
| Err (e : error).
Global Arguments Ok {A} a.
Global Arguments Err {A} e.

Inductive counterKind : Type := KIncrement | KRow.

(** An operand of a [log.Printf] call. *)
Inductive logArg : Type :=
| AStr (s : string)
| AInt (n : Z)
| AErr (e : error).

(** The datum of one [PutMetricData] call (lines 195-210): metric name,
    value, dimension value, namespace.  The unit is always
    [StandardUnitCount] and the dimension name [DBInstanceIdentifier].
    [Value] is the [int] handed to [float64]; the conversion is not
    modelled. *)
Record metricDatum : Type := MetricDatum {
  MetricName : string;
  Value : Z;
  DimensionValue : string;
  Namespace : string
}.

(** What the program does that can be seen from outside, in order.
    [Difference] records a call of [getCountCollectionDifference]: the call
    has no effect of its own, the event makes it visible in the trace. *)
Inductive event : Type :=
| Log (format : string) (operands : list logArg)
| SqlOpen (driverName dsn : string)
| DbQuery (kind : counterKind) (query : string) (args : list string)
| RowsClose (kind : counterKind)
| DbClose
| NewSession (explicit : option (string * string * string))
| CredentialsGet
| PutMetricData (datum : metricDatum)
| ReadFile (fileName : string)
| Stat (fileName : string)
| Create (fileName : string)
| Fprintf (fileName : string) (written : string)
| Difference (databaseName : string).

(** A log line whose format starts with the given severity. *)
Definition isLogWithPrefix (prefix : string) (e : event) : bool :=
  match e with
  | Log format _ => String.prefix prefix format
  | _ => false
  end.

(** A log line of severity WARN. *)
Definition isWarning : event → bool := isLogWithPrefix "WARN".

Definition isQuery (kind : counterKind) (e : event) : bool :=
  match e, kind with
  | DbQuery KIncrement _ _, KIncrement => true
  | DbQuery KRow _ _, KRow => true
  | _, _ => false
  end.

Definition isPublish (e : event) : bool :=
  match e with
  | NewSession _ | CredentialsGet | PutMetricData _ => true
  | _ => false
  end.

Definition isDifference (e : event) : bool :=
  match e with
  | Difference _ => true
  | _ => false
  end.

(** Computations that log and call collaborators: the events, then the
    value. *)
Definition Eff (A : Type) : Type := list event * A.

Definition Eff_ret {A} (a : A) : Eff A := ([], a).

Definition Eff_bind {A B} (k : A → Eff B) (m : Eff A) : Eff B :=
  let '(evs1, a) := m in
  let '(evs2, b) := k a in
  (evs1 ++ evs2, b).

#[global] Instance Eff_mret : MRet Eff := @Eff_ret.
#[global] Instance Eff_mbind : MBind Eff := @Eff_bind.

Definition emit (e : event) : Eff unit := ([e], tt).

(** [log.Printf(format, operands...)] *)
Definition logPrintf (format : string) (operands : list logArg) : Eff unit :=
  emit (Log format operands).

Definition events {A} (m : Eff A) : list event := m.1.
Definition value {A} (m : Eff A) : A := m.2.

(** ** Collaborators outside the repository *)

(** One row of a result set, as the loop of lines 383-406 sees it: the two
    variables after [rows.Scan(&tableName, &tableCount)], the error of the
    scan, and the value of [rows.Err()] after it. *)
Record sqlRow : Type := SqlRow {
  scanName : string;
  scanCount : Z;
  scanErr : option error;
  rowsErr : option error
}.

(** [sqlx.DOLLAR] and the other bind types. *)
Inductive bindType : Type := UNKNOWN | QUESTION | DOLLAR | NAMED | AT.

(** database/sql with its drivers, and sqlx. *)
Class Sql : Type := {
  (** [sql.Open(driverName, dsn)]: its error. *)
  sql_Open : string → string → option error;
  (** [db.Query(query, args...)] on the handle opened with the driver and
      DSN given first, at the call site of the counter kind. *)
  db_Query : string → string → counterKind → string → list string →
             result (list sqlRow);
  (** [sqlx.In(query, tables, schema)]: query, arguments, error. *)
  sqlx_In : string → list string → string →
            string * list string * option error;
  (** [sqlx.Rebind(bindType, query)] *)
  sqlx_Rebind : bindType → string → string
}.

(** yaml.v2, at the two types the program decodes. *)
Class Yaml : Type := {
  yaml_Marshal : gomap countCollection → result string;
  yaml_Unmarshal : string → result (gomap countCollection);
  yaml_UnmarshalConfig : string → result applicationConfig
}.

(** The AWS SDK: session, credentials, CloudWatch.  A session is known by
    the explicit configuration it was made from (region, access key id,
    secret access key), [None] for the default provider chain. *)
Class Aws : Type := {
  session_NewSession : option (string * string * string) → option error;
  credentials_Get : option (string * string * string) → option error;
  cloudwatch_PutMetricData : metricDatum → option error
}.

(** The operating system.  Files are a finite map from path to content; a
    path is readable when it is present, and [os.Stat] reports
    [IsNotExist] exactly when it is absent.  Creating a file can fail. *)
Class Os : Type := {
  os_Create : string → option error
}.

(** The command line, as package flag sees it.  [main] registers one string
    flag and calls [flag.Parse] (lines 70-71); the flag set is the default
    one, whose error handling is [ExitOnError]: either the call returns,
    and the variable holds the value given on the command line or else the
    default, or it ends the process itself (status 2 on a command line it
    refuses; after [-h] status 0 or 2, by the version of Go).  What it
    prints then goes to the standard error stream, and is no event here. *)
Inductive parsed : Type :=
| Parsed (value : string)
| Exited (code : Z).

Class Flag : Type := {
  flag_Parse : string → string → parsed
}.

(** ** [fmt.Fprintf(w, format)] without operands

    [writeCountCollections] hands the YAML text to [fmt.Fprintf] as the
    format (line 544).  This is [doPrintf] of Go's fmt package for an empty
    operand list: text is copied up to a percent sign; after it come flags,
    an argument index, a width, a precision and a verb; [%%] prints a
    percent sign, any other verb has no operand left and prints as
    [%!verb(MISSING)] (or [(BADINDEX)] after an index), and a format that
    ends inside a directive prints [%!(NOVERB)]. *)

Module Fmt.

Definition isFlag (c : ascii) : bool :=
  (c =? "#")%char || (c =? "0")%char || (c =? "+")%char
  || (c =? "-")%char || (c =? " ")%char.

Fixpoint skipFlags (s : string) : string :=
  match s with
  | String c r => if isFlag c then skipFlags r else s
  | EmptyString => EmptyString
  end.

Definition isDigit (c : ascii) : bool :=
  ((48 <=? N_of_ascii c) && (N_of_ascii c <=? 57))%N.

(** [tooLarge]: beyond a million. *)
Definition tooLarge (x : N) : bool := (1000000 <? x)%N.

(** [parsenum] on the text up to its end: whether a number was read and
    what follows it.  When the number grows too large the scan gives up
    and skips to the end of the text. *)
Fixpoint parsenumFrom (num : N) (isnum : bool) (s : string) : bool * string :=
  match s with
  | String c r =>
      if isDigit c then
        if tooLarge num then (false, EmptyString)
        else parsenumFrom (num * 10 + (N_of_ascii c - 48))%N true r
      else (isnum, s)
  | EmptyString => (isnum, EmptyString)
  end.

Definition parsenum (s : string) : bool * string := parsenumFrom 0%N false s.

(** The text before the first closing bracket, if there is one. *)
Fixpoint beforeBracket (s : string) : option string :=
  match s with
  | String c r =>
      if (c =? "]")%char then Some EmptyString
      else String c <$> beforeBracket r
  | EmptyString => None
  end.

Fixpoint dropString (n : nat) (s : string) : string :=
  match n, s with
  | S n, String _ r => dropString n r
  | _, _ => s
  end.

(** [parseArgNumber] on a text that starts with an opening bracket: the
    bytes to skip, and whether a number stood between the brackets. *)
Definition parseArgNumber (s : string) : nat * bool :=
  if (String.length s <? 3)%nat then (1%nat, false)
  else
    match beforeBracket (dropString 1 s) with
    | Some inner =>
        let '(ok, rest) := parsenum inner in
        let wid := (String.length inner + 2)%nat in
        match rest with
        | EmptyString => (wid, ok)
        | _ => (wid, false)
        end
    | None => (1%nat, false)
    end.

(** [argNumber] with no operands: what follows the index, whether an index
    was found, and whether a bracket was seen (no index is in range, so a
    bracket always makes the argument number bad). *)
Definition argNumber (s : string) : string * bool * bool :=
  match s with
  | String c _ =>
      if (c =? "[")%char then
        let '(wid, ok) := parseArgNumber s in (dropString wid s, ok, true)
      else (s, false, false)
  | EmptyString => (s, false, false)
  end.

Definition inRange (lo hi : N) (c : ascii) : bool :=
  ((lo <=? N_of_ascii c) && (N_of_ascii c <=? hi))%N.

(** The length of the UTF-8 sequence at the head of a text that starts
    with a byte of 0x80 or more, [None] when it is not a valid one
    ([utf8.DecodeRuneInString] then gives the replacement character and
    the width 1). *)
Definition utf8Length (s : string) : option nat :=
  match s with
  | String c0 (String c1 r1) =>
      let cont := inRange 128 191 in
      let second (lo hi : N) (size : nat) : option nat :=
        if inRange lo hi c1 then
          match size, r1 with
          | 2%nat, _ => Some 2%nat
          | 3%nat, String c2 _ => if cont c2 then Some 3%nat else None
          | 4%nat, String c2 (String c3 _) =>
              if cont c2 && cont c3 then Some 4%nat else None
          | _, _ => None
          end
        else None in
      if inRange 194 223 c0 then second 128%N 191%N 2%nat
      else if inRange 224 224 c0 then second 160%N 191%N 3%nat
      else if inRange 225 236 c0 then second 128%N 191%N 3%nat
      else if inRange 237 237 c0 then second 128%N 159%N 3%nat
      else if inRange 238 239 c0 then second 128%N 191%N 3%nat
      else if inRange 240 240 c0 then second 144%N 191%N 4%nat
      else if inRange 241 243 c0 then second 128%N 191%N 4%nat
      else if inRange 244 244 c0 then second 128%N 143%N 4%nat
      else None
  | _ => None
  end.

Fixpoint takeString (n : nat) (s : string) : string :=
  match n, s with
  | S n, String c r => String c (takeString n r)
  | _, _ => EmptyString
  end.

(** U+FFFD in UTF-8. *)
Definition runeError : string :=
  String (ascii_of_N 239) (String (ascii_of_N 191) (String (ascii_of_N 189) EmptyString)).

(** The verb at the head of a non-empty text: the bytes [writeRune] prints
    for it, and what follows it. *)
Definition decodeVerb (s : string) : string * string :=
  match s with
  | String c r =>
      if (N_of_ascii c <? 128)%N then (String c EmptyString, r)
      else
        match utf8Length s with
        | Some n => (takeString n s, dropString n s)
        | None => (runeError, r)
        end
  | EmptyString => (EmptyString, EmptyString)
  end.

(** The width of a directive: a star asks for an operand that is not
    there, digits are read over.  The result is what follows, the text
    printed, and the two flags [afterIndex] and "bad argument number". *)
Definition width (s : string) (afterIndex bad : bool)
    : string * string * bool * bool :=
  match s with
  | String c s' =>
      if (c =? "*")%char then (s', "%!(BADWIDTH)", false, bad)
      else
        let '(widPresent, rest) := parsenum s in
        (rest, EmptyString, afterIndex, bad || (afterIndex && widPresent))
  | EmptyString => (EmptyString, EmptyString, afterIndex, bad)
  end.

(** The number after the dot of a precision. *)
Definition precisionNumber (s : string) (out : string) (afterIndex bad : bool)
    : string * string * bool * bool :=
  match s with
  | String c s' =>
      if (c =? "*")%char then (s', out +:+ "%!(BADPREC)", false, bad)
      else (snd (parsenum s), out, afterIndex, bad)
  | EmptyString => (EmptyString, out, afterIndex, bad)
  end.

(** The precision of a directive, if it has one. *)
Definition precision (s : string) (out : string) (afterIndex bad : bool)
    : string * string * bool * bool :=
  match s with
  | String c s' =>
      if (c =? ".")%char then
        let '(rest, found, bracket) := argNumber s' in
        precisionNumber rest out found (bad || afterIndex || bracket)
      else (s, out, afterIndex, bad)
  | EmptyString => (EmptyString, out, afterIndex, bad)
  end.

(** The verb of a directive. *)
Definition verb (s : string) (out : string) (bad : bool) : string * string :=
  match s with
  | EmptyString => (out +:+ "%!(NOVERB)", EmptyString)
  | String _ _ =>
      let '(v, rest) := decodeVerb s in
      if String.eqb v "%" then (out +:+ "%", rest)
      else if bad then (out +:+ "%!" +:+ v +:+ "(BADINDEX)", rest)
      else (out +:+ "%!" +:+ v +:+ "(MISSING)", rest)
  end.

(** One directive, from just after its percent sign: the text printed for
    it and the format that remains. *)
Definition directive (afterPercent : string) : string * string :=
  let '(s, afterIndex, bad) := argNumber (skipFlags afterPercent) in
  let '(s, out, afterIndex, bad) := width s afterIndex bad in
  let '(s, out, afterIndex, bad) := precision s out afterIndex bad in
  let '(s, bad) :=
    if afterIndex : bool then (s, bad)
    else let '(rest, _, bracket) := argNumber s in (rest, bad || bracket) in
  verb s out bad.

(** [doPrintf]; every directive takes at least its percent sign, so the
    length of the format, plus one, is fuel enough. *)
Fixpoint doPrintf (fuel : nat) (format : string) : string :=
  match fuel with
  | O => EmptyString
  | S fuel =>
      match format with
      | EmptyString => EmptyString
      | String c rest =>
          if (c =? "%")%char then
            let '(out, rest') := directive rest in
            out +:+ doPrintf fuel rest'
          else String c (doPrintf fuel rest)
      end
  end.

(** [fmt.Sprintf(format)]. *)
Definition Sprintf (format : string) : string :=
  doPrintf (S (String.length format)) format.

End Fmt.

(** ** Delta engine (main.go, lines 450-483) *)

(** The body of one iteration of either loop of
    [getCountCollectionDifference]:
    [if subCount, ok := sub[name]; ok { d[name] = minCount - subCount }
     else { d[name] = 0 }]. *)
Definition differenceStep (subtrahend : gomap Z)
    (difference : gmap string Z) (entry : string * Z) : gmap string Z :=
  let '(minCountName, minCount) := entry in
  match mget subtrahend minCountName with
  | Some subCount => <[minCountName := GoInt.sub minCount subCount]> difference
  | None => <[minCountName := 0]> difference
  end.

Global Arguments differenceStep : simpl never.

(** One [for ... range] loop, visiting the entries in the order [entries]. *)
Definition differenceLoop (entries : list (string * Z)) (subtrahend : gomap Z)
    (difference : gmap string Z) : gmap string Z :=
  foldl (differenceStep subtrahend) difference entries.

Definition getCountCollectionDifference
    (minuend subtrahend : countCollection) : countCollection :=
  {| Increment :=
       Some (differenceLoop (mrange (Increment minuend)) (Increment subtrahend) ∅);
     Row :=
       Some (differenceLoop (mrange (Row minuend)) (Row subtrahend) ∅) |}.

(** The value the loop stores for a table. *)
Definition deltaOf (subtrahend : gomap Z) (name : string) (minCount : Z) : Z :=
  match mget subtrahend name with
  | Some subCount => GoInt.sub minCount subCount
  | None => 0
  end.

(** ** Query builder and collector (main.go, lines 252-448) *)

Definition mysqlIncrementQuery : string :=
  "SELECT `TABLE_NAME`, `AUTO_INCREMENT` FROM information_schema.TABLES WHERE TABLE_NAME IN (?) AND TABLE_SCHEMA = ?".
Definition mysqlRowQuery : string :=
  "SELECT `TABLE_NAME`, `TABLE_ROWS` FROM information_schema.TABLES WHERE TABLE_NAME IN (?) AND TABLE_SCHEMA = ?".
Definition postgresQuery : string :=
  "SELECT relname,n_live_tup FROM pg_stat_user_tables WHERE relname IN (?) AND schemaname = ?".
Definition defaultIncrementQuery : string :=
  "SELECT TABLE_NAME,AUTO_INCREMENT FROM information_schema.TABLES WHERE TABLE_NAME IN (?) AND TABLE_SCHEMA = ?".
Definition defaultRowQuery : string :=
  "SELECT TABLE_NAME,TABLE_ROWS FROM information_schema.TABLES WHERE TABLE_NAME IN (?) AND TABLE_SCHEMA = ?".

Definition assembleIncrementError : string :=
  "ERROR: Failed to assemble increment query interface: %s".
Definition assembleRowError : string :=
  "ERROR: Failed to assemble row query interface: %s".

(** The template of a dialect branch for a counter kind (lines 320, 328,
    339, 349, 360, 368).  The branch is chosen by [dbConfig.Type], not by
    the defaulted [dbType]. *)
Definition queryTemplate (type : string) (kind : counterKind) : string :=
  if String.eqb type "mysql" then
    match kind with
    | KIncrement => mysqlIncrementQuery
    | KRow => mysqlRowQuery
    end
  else if String.eqb type "postgres" then postgresQuery
  else
    match kind with
    | KIncrement => defaultIncrementQuery
    | KRow => defaultRowQuery
    end.

(** The log format of a failed [db.Query] (lines 379, 415). *)
Definition queryFailed : string := "ERROR: Failed to query database %s: %s".

Definition assembleError (kind : counterKind) : string :=
  match kind with
  | KIncrement => assembleIncrementError
  | KRow => assembleRowError
  end.

Section Collector.

Context `{Sql}.

(** One of the six blocks of lines 316-373: when the table set is not
    empty, [sqlx.In] on the template of the branch, its error logged, and
    in the PostgreSQL branch the rebind to [$n] placeholders.  With an
    empty set the query and its arguments keep their zero values. *)
Definition assembleQuery (type : string) (kind : counterKind)
    (tables : list string) (dbSchema : string) : Eff (string * list string) :=
  if (0 <? length tables)%nat then
    let '(query, args, err) := sqlx_In (queryTemplate type kind) tables dbSchema in
    _ ← match err with
        | Some e => logPrintf (assembleError kind) [AErr e]
        | None => mret tt
        end;
    if String.eqb type "mysql" then mret (query, args)
    else if String.eqb type "postgres" then mret (sqlx_Rebind DOLLAR query, args)
    else mret (query, args)
  else mret (EmptyString, []).

(** Lines 309-373: the increment query, then the row query. *)
Definition buildQueries (dbConfig : databaseConfig) (dbSchema : string)
    : Eff ((string * list string) * (string * list string)) :=
  increment ← assembleQuery (Type_ dbConfig) KIncrement
                 (IncrementTables (Tables dbConfig)) dbSchema;
  row ← assembleQuery (Type_ dbConfig) KRow
                 (RowTables (Tables dbConfig)) dbSchema;
  mret (increment, row).

(** The loop over the rows of one result set (lines 383-406, 419-442). *)
Fixpoint scanRows (dbName : string) (rows : list sqlRow)
    (counts : gmap string Z) : Eff (gmap string Z) :=
  match rows with
  | [] => mret counts
  | r :: rows =>
      counts ← match scanErr r with
               | Some e =>
                   _ ← logPrintf "ERROR: Failed to obtain values in database %s for table %s: %s"
                         [AStr dbName; AStr (scanName r); AErr e];
                   mret counts
               | None =>
                   _ ← logPrintf "INFO: Obtained value in database %s for table %s with count %d"
                         [AStr dbName; AStr (scanName r); AInt (scanCount r)];
                   mret (<[scanName r := scanCount r]> counts)
               end;
      _ ← match rowsErr r with
          | Some e => logPrintf "ERROR: Row failures for database %s: %s"
                        [AStr dbName; AErr e]
          | None => mret tt
          end;
      scanRows dbName rows counts
  end.

(** Lines 375-408 and 410-444: run one query if there is one.  The result
    is the filled map and whether a result set was opened (its
    [rows.Close()] is deferred). *)
Definition runQuery (kind : counterKind) (dbType dsn : string) (dbName : string)
    (query : string) (args : list string) (counts : gmap string Z)
    : Eff (gmap string Z * bool) :=
  if negb (String.eqb query EmptyString) && (0 <? length args)%nat then
    _ ← emit (DbQuery kind query args);
    match db_Query dbType dsn kind query args with
    | Err e =>
        _ ← logPrintf queryFailed [AStr dbName; AErr e];
        mret (counts, false)
    | Ok rows =>
        counts ← scanRows dbName rows counts;
        mret (counts, true)
    end
  else mret (counts, false).

(** Lines 264-271. *)
Definition resolveType (dbConfig : databaseConfig) : string :=
  if String.eqb (Type_ dbConfig) EmptyString then "mysql" else Type_ dbConfig.

(** Lines 273-289. *)
Definition resolveSchema (dbConfig : databaseConfig) (dbType : string) : string :=
  if String.eqb (Schema dbConfig) EmptyString then
    if String.eqb dbType "mysql" then Database dbConfig
    else if String.eqb dbType "postgres" then "public"
    else Name dbConfig
  else Schema dbConfig.

(** Lines 291-300: [fmt.Sprintf] with [%s] operands is concatenation. *)
Definition resolveDsn (dbConfig : databaseConfig) (dbType : string) : string :=
  if String.eqb dbType "mysql" then
    User dbConfig +:+ ":" +:+ Password dbConfig +:+ "@tcp(" +:+ Host dbConfig
      +:+ ")/" +:+ Database dbConfig
  else if String.eqb dbType "postgres" then
    "postgres://" +:+ User dbConfig +:+ ":" +:+ Password dbConfig +:+ "@"
      +:+ Host dbConfig +:+ "/" +:+ Database dbConfig
  else
    User dbConfig +:+ ":" +:+ Password dbConfig +:+ "@tcp(" +:+ Host dbConfig
      +:+ ")/" +:+ Database dbConfig.

Definition closeRows (kind : counterKind) (opened : bool) : Eff unit :=
  if opened then emit (RowsClose kind) else mret tt.

Definition getCountCollection (dbConfig : databaseConfig)
    : Eff (countCollection * option error) :=
  let dbType := resolveType dbConfig in
  let dbSchema := resolveSchema dbConfig dbType in
  let dsn := resolveDsn dbConfig dbType in
  _ ← emit (SqlOpen dbType dsn);
  match sql_Open dbType dsn with
  | Some err => mret ({| Increment := make; Row := make |}, Some err)
  | None =>
      '(increment, row) ← buildQueries dbConfig dbSchema;
      '(incrementCounts, incrementOpened) ←
        runQuery KIncrement dbType dsn (Name dbConfig) increment.1 increment.2 ∅;
      '(rowCounts, rowOpened) ←
        runQuery KRow dbType dsn (Name dbConfig) row.1 row.2 ∅;
      (* the deferred calls, last first *)
      _ ← closeRows KRow rowOpened;
      _ ← closeRows KIncrement incrementOpened;
      _ ← emit DbClose;
      mret ({| Increment := Some incrementCounts; Row := Some rowCounts |}, None)
  end.

End Collector.

(** ** Metric publisher (main.go, lines 148-250) *)

Section Publisher.

Context `{Aws}.

(** One [PutMetricData] call and the log line for its outcome (lines
    195-217 and 222-244; the two loops differ in their log formats). *)
Definition putMetric (namespace countCollectionName : string)
    (failed pushed : string) (entry : string * Z) : Eff unit :=
  let '(countName, count) := entry in
  let datum := {| MetricName := countName; Value := count;
                  DimensionValue := countCollectionName;
                  Namespace := namespace |} in
  _ ← emit (PutMetricData datum);
  match cloudwatch_PutMetricData datum with
  | Some err => logPrintf failed [AStr countName; AInt count; AErr err]
  | None => logPrintf pushed [AStr countName; AInt count]
  end.

(** A [for ... range] loop whose body only has effects. *)
Fixpoint forEach {A} (body : A → Eff unit) (l : list A) : Eff unit :=
  match l with
  | [] => mret tt
  | x :: l => _ ← body x; forEach body l
  end.

Definition putAWSCountCollectionMetrics
    (countCollections : gomap countCollection) (awsConfig : gomap string)
    : Eff (option error) :=
  let namespace :=
    if String.eqb (mgetString awsConfig "namespace") EmptyString then "RowMetrics"
    else mgetString awsConfig "namespace" in
  let explicit :=
    match awsConfig with
    | None => None
    | Some _ => Some (mgetString awsConfig "region",
                      mgetString awsConfig "accessKeyId",
                      mgetString awsConfig "secretAccessKey")
    end in
  _ ← emit (NewSession explicit);
  match session_NewSession explicit with
  | Some err => mret (Some err)
  | None =>
      _ ← emit CredentialsGet;
      match credentials_Get explicit with
      | Some err => mret (Some err)
      | None =>
          _ ← forEach (λ '(countCollectionName, countCollection),
                 _ ← forEach (putMetric namespace countCollectionName
                        "WARN: Failed to push Cloudwatch metric for table %s with count %d: %s"
                        "INFO: Pushed Cloudwatch metric for table %s with count %d")
                      (mrange (Increment countCollection));
                 forEach (putMetric namespace countCollectionName
                        "ERROR: Failed to push Cloudwatch metric for table %s with difference %d: %s"
                        "INFO: Pushed Cloudwatch metric for table %s with difference %d")
                      (mrange (Row countCollection)))
               (mrange countCollections);
          mret None
      end
  end.

End Publisher.

(** ** The process: files, trace, panics *)

Record World : Type := MkWorld {
  files : gmap string string;
  trace : list event
}.

(** How a process ends: [os.Exit(code)], or a panic raised by
    [log.Panicf(format, operands...)] (the Go runtime then exits with a
    status that is not zero). *)
Inductive exitStatus : Type :=
| Exit (code : Z)
| Panic (format : string) (operands : list logArg).

Inductive outcome (A : Type) : Type :=
| Return (a : A)
| Stop (status : exitStatus).
Global Arguments Return {A} a.
Global Arguments Stop {A} status.

Definition Proc (A : Type) : Type := World → World * outcome A.

Definition Proc_ret {A} (a : A) : Proc A := λ w, (w, Return a).

Definition Proc_bind {A B} (k : A → Proc B) (m : Proc A) : Proc B :=
  λ w, match m w with
       | (w', Return a) => k a w'
       | (w', Stop status) => (w', Stop status)
       end.

#[global] Instance Proc_mret : MRet Proc := @Proc_ret.
#[global] Instance Proc_mbind : MBind Proc := @Proc_bind.

Definition record (evs : list event) (w : World) : World :=
  {| files := files w; trace := trace w ++ evs |}.

(** Run a computation that only logs and calls collaborators. *)
Definition lift {A} (m : Eff A) : Proc A :=
  λ w, (record (events m) w, Return (value m)).

(** [log.Panicf]: the line is logged, then the process panics. *)
Definition logPanicf {A} (format : string) (operands : list logArg) : Proc A :=
  λ w, (record [Log format operands] w, Stop (Panic format operands)).

(** [os.Exit] *)
Definition osExit {A} (code : Z) : Proc A := λ w, (w, Stop (Exit code)).

(** [flag.StringVar(&v, name, value, usage); flag.Parse()] *)
Definition flagParse `{Flag} (name value : string) : Proc string :=
  λ w, match flag_Parse name value with
       | Parsed v => (w, Return v)
       | Exited code => (w, Stop (Exit code))
       end.

(** [ioutil.ReadFile] *)
Definition ioutilReadFile (fileName : string) : Proc (result string) :=
  λ w, (record [ReadFile fileName] w,
        Return match files w !! fileName with
               | Some content => Ok content
               | None => Err "open: no such file or directory"
               end).

(** [_, err := os.Stat(fileName); os.IsNotExist(err)] *)
Definition osStatIsNotExist (fileName : string) : Proc bool :=
  λ w, (record [Stat fileName] w,
        Return match files w !! fileName with
               | Some _ => false
               | None => true
               end).

(** ** Snapshot store and configuration (main.go, lines 485-548) *)

Section Store.

Context `{Yaml} `{Os}.

Definition loadApplicationConfig (fileName : string)
    : Proc (result applicationConfig) :=
  configSource ← ioutilReadFile fileName;
  match configSource with
  | Err err => mret (Err err)
  | Ok configSource => mret (yaml_UnmarshalConfig configSource)
  end.

Definition loadCountCollections (fileName : string)
    : Proc (result (gomap countCollection)) :=
  countCollectionsSource ← ioutilReadFile fileName;
  match countCollectionsSource with
  | Err err => mret (Err err)
  | Ok countCollectionsSource => mret (yaml_Unmarshal countCollectionsSource)
  end.

(** [os.Create] truncates or creates the file; [fmt.Fprintf] then writes
    into it, with the YAML text as its format (line 544).  The source
    drops what [Fprintf] returns, so a write that fails ends like one that
    succeeds, with [nil].  Here the write is taken to succeed: the file
    holds the whole print.  Of a run on a disk where it fails, only what
    does not depend on the content of that file carries over. *)
Definition writeCountCollections (fileName : string)
    (countCollections : gomap countCollection) : Proc (option error) :=
  match yaml_Marshal countCollections with
  | Err err => mret (Some err)
  | Ok countCollectionsYaml =>
      λ w,
        match os_Create fileName with
        | Some err => (record [Create fileName] w, Return (Some err))
        | None =>
            let written := Fmt.Sprintf countCollectionsYaml in
            ({| files := <[fileName := written]> (files w);
                trace := trace w ++ [Create fileName; Fprintf fileName written] |},
             Return None)
        end
  end.

End Store.

(** ** The run (main.go, lines 67-146) *)

(** Log formats of lines 100, 135 and 141. *)
Definition writeFailed : string := "FATAL: Failed to write counts YAML: %s".
Definition pushFailed : string := "ERROR: Failed to push Cloudwatch metrics: %s".
Definition saveFailed : string := "FATAL: Failed to save counts YAML: %s".

Section Main.

Context `{Sql} `{Yaml} `{Aws} `{Os} `{Flag}.

(** Lines 83-93: collect every configured database, in order. *)
Fixpoint collectDatabases (databases : list databaseConfig)
    (curCountCollections : gmap string countCollection)
    : Proc (gmap string countCollection) :=
  match databases with
  | [] => mret curCountCollections
  | database :: databases =>
      '(curCountCollection, err) ← lift (getCountCollection database);
      match err with
      | Some err =>
          logPanicf "FATAL: Failed to get counts for database %s: %s"
            [AStr (Name database); AErr err]
      | None =>
          collectDatabases databases
            (<[Name database := curCountCollection]> curCountCollections)
      end
  end.

(** Lines 115-130: the difference of every database that the last session
    has too. *)
Fixpoint differenceDatabases (entries : list (string * countCollection))
    (lastCountCollections : gomap countCollection)
    (diffCountCollections : gmap string countCollection)
    : Proc (gmap string countCollection) :=
  match entries with
  | [] => mret diffCountCollections
  | (curCountCollectionName, curCountCollection) :: entries =>
      match mget lastCountCollections curCountCollectionName with
      | Some lastCountCollection =>
          _ ← lift (emit (Difference curCountCollectionName));
          let diffCountCollection :=
            getCountCollectionDifference curCountCollection lastCountCollection in
          differenceDatabases entries lastCountCollections
            (<[curCountCollectionName := diffCountCollection]> diffCountCollections)
      | None => differenceDatabases entries lastCountCollections diffCountCollections
      end
  end.

Definition main : Proc unit :=
  configPath ← flagParse "config" "config.yml";
  config ← loadApplicationConfig configPath;
  match config with
  | Err err => logPanicf "FATAL: Failed to load application config YAML: %s" [AErr err]
  | Ok config =>
      curCountCollections ← collectDatabases (Databases config) ∅;
      notExist ← osStatIsNotExist (CountPath config);
      _ ← (if notExist : bool then
             err ← writeCountCollections (CountPath config) (Some curCountCollections);
             match err with
             | Some err => logPanicf writeFailed [AErr err]
             | None => mret tt
             end
           else
             lastCountCollections ← loadCountCollections (CountPath config);
             match lastCountCollections with
             | Err err => logPanicf "FATAL: Failed to load counts YAML: %s" [AErr err]
             | Ok lastCountCollections =>
                 diffCountCollections ←
                   differenceDatabases (map_to_list curCountCollections)
                     lastCountCollections ∅;
                 err ← lift (putAWSCountCollectionMetrics
                               (Some diffCountCollections) (AwsConfig config));
                 _ ← match err with
                     | Some err =>
                         lift (logPrintf pushFailed
                                 [AErr err])
                     | None => mret tt
                     end;
                 err ← writeCountCollections (CountPath config) (Some curCountCollections);
                 match err with
                 | Some err => logPanicf saveFailed [AErr err]
                 | None => mret tt
                 end
             end);
      osExit 0
  end.

End Main.

(** A command line that [flag.Parse] accepts: the call returns and the
    variable holds [configPath]. *)
Definition commandLine (configPath : string) : Flag :=
  {| flag_Parse := λ _ _, Parsed configPath |}.

Section Run.

Context `{Sql} `{Yaml} `{Aws} `{Os}.

(** A run of the program from the files [fs], on a command line that
    [flag.Parse] accepts and that names [configPath] (or names nothing,
    when [configPath] is the default). *)
Definition run (configPath : string) (fs : gmap string string)
    : World * outcome unit :=
  @main _ _ _ _ (commandLine configPath) {| files := fs; trace := [] |}.

End Run.

(** ** sqlx, as its sources describe it

    A model of [sqlx.In] and [sqlx.Rebind] (package bind.go of sqlx), used
    where a property is shown on concrete input.  No theorem about the
    program depends on it. *)

Module Sqlx.

(** An operand of [In]: a slice is expanded, anything else is kept. *)
Inductive inArg : Type :=
| Slice (values : list string)
| Scalar (v : string).

Definition isEmptySlice (a : inArg) : bool :=
  match a with
  | Slice [] => true
  | _ => false
  end.

Definition isSlice (a : inArg) : bool :=
  match a with
  | Slice _ => true
  | Scalar _ => false
  end.

Definition flatten (a : inArg) : list string :=
  match a with
  | Slice values => values
  | Scalar v => [v]
  end.

Fixpoint repeatString (n : nat) (s : string) : string :=
  match n with
  | O => EmptyString
  | S n => s +:+ repeatString n s
  end.

(** The scan of the query for [?]: a slice of [n] values turns its [?] into
    [n] of them. *)
Fixpoint expand (query : string) (meta : list inArg) : result (string * list string) :=
  match query with
  | EmptyString =>
      match meta with
      | [] => Ok (EmptyString, [])
      | _ :: _ => Err "number of bindVars less than number arguments"
      end
  | String c rest =>
      if (c =? "?")%char then
        match meta with
        | [] => Err "number of bindVars exceeds arguments"
        | a :: meta =>
            match expand rest meta with
            | Err e => Err e
            | Ok (out, args) =>
                Ok ("?" +:+ repeatString (length (flatten a) - 1) ", ?" +:+ out,
                    flatten a ++ args)
            end
        end
      else
        match expand rest meta with
        | Err e => Err e
        | Ok (out, args) => Ok (String c out, args)
        end
  end.

Definition In (query : string) (args : list inArg)
    : string * list string * option error :=
  if existsb isEmptySlice args then
    (EmptyString, [], Some "empty slice passed to 'in' query")
  else if negb (existsb isSlice args) then
    (query, flat_map flatten args, None)
  else
    match expand query args with
    | Ok (query, args) => (query, args, None)
    | Err e => (EmptyString, [], Some e)
    end.

Definition placeholder (bind : bindType) (j : nat) : string :=
  match bind with
  | DOLLAR => "$"
  | NAMED => ":arg"
  | AT => "@p"
  | QUESTION | UNKNOWN => EmptyString
  end +:+ NilZero.string_of_uint (Nat.to_uint j).

Fixpoint rebindFrom (bind : bindType) (j : nat) (query : string) : string :=
  match query with
  | EmptyString => EmptyString
  | String c rest =>
      if (c =? "?")%char then placeholder bind (S j) +:+ rebindFrom bind (S j) rest
      else String c (rebindFrom bind j rest)
  end.

Definition Rebind (bind : bindType) (query : string) : string :=
  match bind with
  | QUESTION | UNKNOWN => query
  | _ => rebindFrom bind 0 query
  end.

End Sqlx.

(** ** Concrete collaborators and inputs for the examples *)

Module Sample.

Definition nl : string := String (ascii_of_N 10) EmptyString.

(** A database server that cannot be reached: the handle opens (the
    drivers connect lazily), every query fails. *)
Definition unreachableSql : Sql := {|
  sql_Open := λ _ _, None;
  db_Query := λ _ _ _ _ _, Err "dial tcp: connection refused";
  sqlx_In := λ query tables schema,
               Sqlx.In query [Sqlx.Slice tables; Sqlx.Scalar schema];
  sqlx_Rebind := Sqlx.Rebind
|}.

Definition okRow (name : string) (count : Z) : sqlRow :=
  {| scanName := name; scanCount := count; scanErr := None; rowsErr := None |}.

(** A server with one table, [orders], whose counter is the given one. *)
Definition ordersSql (counter : Z) : Sql := {|
  sql_Open := λ _ _, None;
  db_Query := λ _ _ _ _ _, Ok [okRow "orders" counter];
  sqlx_In := λ query tables schema,
               Sqlx.In query [Sqlx.Slice tables; Sqlx.Scalar schema];
  sqlx_Rebind := Sqlx.Rebind
|}.

Definition okOs : Os := {| os_Create := λ _, None |}.

Definition okAws : Aws := {|
  session_NewSession := λ _, None;
  credentials_Get := λ _, None;
  cloudwatch_PutMetricData := λ _, None
|}.

(** No credentials: the publish step returns an error. *)
Definition failingAws : Aws := {|
  session_NewSession := λ _, None;
  credentials_Get := λ _, Some "NoCredentialProviders: no valid providers in chain";
  cloudwatch_PutMetricData := λ _, None
|}.

Definition shopDatabase : databaseConfig := {|
  Name := "shop"; Host := "db:3306"; Type_ := "mysql";
  User := "metrics"; Password := "secret";
  Database := "shop"; Schema := EmptyString;
  Tables := {| IncrementTables := ["orders"]; RowTables := [] |}
|}.

Definition ordersConfig : applicationConfig := {|
  AwsConfig := None;
  CountPath := "counts.yml";
  Databases := [shopDatabase]
|}.

Definition eventsConfig : databaseConfig := {|
  Name := "events"; Host := "pg:5432"; Type_ := "postgres";
  User := "metrics"; Password := "secret";
  Database := "events"; Schema := EmptyString;
  Tables := {| IncrementTables := ["events"]; RowTables := ["events"; "users"] |}
|}.

Definition snapshot (increment row : list (string * Z)) : countCollection :=
  {| Increment := Some (list_to_map increment); Row := Some (list_to_map row) |}.

Definition collections (l : list (string * countCollection)) : gomap countCollection :=
  Some (list_to_map l).

(** The texts yaml.v2 writes for three collections. *)
Definition orders100Yaml : string :=
  "shop:" +:+ nl +:+ "  increment:" +:+ nl +:+ "    orders: 100" +:+ nl
  +:+ "  row: {}" +:+ nl.
Definition orders150Yaml : string :=
  "shop:" +:+ nl +:+ "  increment:" +:+ nl +:+ "    orders: 150" +:+ nl
  +:+ "  row: {}" +:+ nl.

(** A database identifier with a percent sign. *)
Definition percentCollections : gomap countCollection :=
  collections [("a%b", snapshot [] [])].
Definition percentYaml : string :=
  "a%b:" +:+ nl +:+ "  increment: {}" +:+ nl +:+ "  row: {}" +:+ nl.
(** What [fmt.Fprintf] makes of [percentYaml], and what that text decodes
    to. *)
Definition mangledYaml : string :=
  "a%!b(MISSING):" +:+ nl +:+ "  increment: {}" +:+ nl +:+ "  row: {}" +:+ nl.
Definition mangledCollections : gomap countCollection :=
  collections [("a%!b(MISSING)", snapshot [] [])].

#[global] Instance countCollection_eq_dec : EqDecision countCollection.
Proof. solve_decision. Defined.

(** yaml.v2 at the texts of the examples, and nowhere else. *)
Definition exampleYaml : Yaml := {|
  yaml_Marshal := λ m,
    if decide (m = collections [("shop", snapshot [("orders", 100)] [])])
    then Ok orders100Yaml
    else if decide (m = collections [("shop", snapshot [("orders", 150)] [])])
    then Ok orders150Yaml
    else if decide (m = percentCollections) then Ok percentYaml
    else Err "yaml: text not among the examples";
  yaml_Unmarshal := λ text,
    if String.eqb text orders100Yaml
    then Ok (collections [("shop", snapshot [("orders", 100)] [])])
    else if String.eqb text orders150Yaml
    then Ok (collections [("shop", snapshot [("orders", 150)] [])])
    else if String.eqb text percentYaml then Ok percentCollections
    else if String.eqb text mangledYaml then Ok mangledCollections
    else Err "yaml: text not among the examples";
  yaml_UnmarshalConfig := λ text,
    if String.eqb text "config" then Ok ordersConfig
    else Err "yaml: text not among the examples"
|}.

End Sample.

(** The mapping of a counter kind in a snapshot or a delta. *)
Definition counts (kind : counterKind) (c : countCollection) : gomap Z :=
  match kind with
  | KIncrement => Increment c
  | KRow => Row c
  end.

(** Whether a text has a percent sign. *)
Fixpoint hasPercent (s : string) : bool :=
  match s with
  | EmptyString => false
  | String c r => (c =? "%")%char || hasPercent r
  end.

(** ** The blocks of the collector, by counter kind *)

Definition tablesOf (kind : counterKind) (dbConfig : databaseConfig) : list string :=
  match kind with
  | KIncrement => IncrementTables (Tables dbConfig)
  | KRow => RowTables (Tables dbConfig)
  end.

Definition otherKind (kind : counterKind) : counterKind :=
  match kind with
  | KIncrement => KRow
  | KRow => KIncrement
  end.

Definition schemaOf (dbConfig : databaseConfig) : string :=
  resolveSchema dbConfig (resolveType dbConfig).

Definition dsnOf (dbConfig : databaseConfig) : string :=
  resolveDsn dbConfig (resolveType dbConfig).

Section Blocks.

Context `{Sql}.

(** The query built for a counter kind (its block of lines 316-373). *)
Definition builtQuery (kind : counterKind) (dbConfig : databaseConfig)
    : Eff (string * list string) :=
  assembleQuery (Type_ dbConfig) kind (tablesOf kind dbConfig) (schemaOf dbConfig).

(** The run of that query (its block of lines 375-444). *)
Definition queryRun (kind : counterKind) (dbConfig : databaseConfig)
    : Eff (gmap string Z * bool) :=
  runQuery kind (resolveType dbConfig) (dsnOf dbConfig) (Name dbConfig)
    (value (builtQuery kind dbConfig)).1 (value (builtQuery kind dbConfig)).2 ∅.

(** All the events the collector produces for a counter kind. *)
Definition kindEvents (kind : counterKind) (dbConfig : databaseConfig) : list event :=
  events (builtQuery kind dbConfig) ++ events (queryRun kind dbConfig)
  ++ events (closeRows kind (value (queryRun kind dbConfig)).2).

End Blocks.

(** A log line of severity ERROR or INFO. *)
Definition isErrorOrInfo (e : event) : bool :=
  isLogWithPrefix "ERROR" e || isLogWithPrefix "INFO" e.

(** ** What the loops of [main] compute *)

(** An event a collector can produce. *)
Definition isCollector (e : event) : bool :=
  match e with
  | Log _ _ | SqlOpen _ _ | DbQuery _ _ _ | RowsClose _ | DbClose => true
  | _ => false
  end.

Section Loops.

Context `{Sql}.

(** The collections gathered by the loop of lines 83-93 when no collector
    returns an error, and the events of the loop. *)
Definition collected (databases : list databaseConfig)
    (curCountCollections : gmap string countCollection)
    : gmap string countCollection :=
  foldl (λ m database, <[Name database := (value (getCountCollection database)).1]> m)
    curCountCollections databases.

Definition collectedEvents (databases : list databaseConfig) : list event :=
  flat_map (λ database, events (getCountCollection database)) databases.

End Loops.

(** The differences the loop of lines 115-130 stores, and its calls of
    [getCountCollectionDifference]. *)
Fixpoint differencesOf (entries : list (string * countCollection))
    (lastCountCollections : gomap countCollection)
    (diffCountCollections : gmap string countCollection)
    : gmap string countCollection :=
  match entries with
  | [] => diffCountCollections
  | (name, cur) :: entries =>
      match mget lastCountCollections name with
      | Some last =>
          differencesOf entries lastCountCollections
            (<[name := getCountCollectionDifference cur last]> diffCountCollections)
      | None => differencesOf entries lastCountCollections diffCountCollections
      end
  end.

Fixpoint differenceEvents (entries : list (string * countCollection))
    (lastCountCollections : gomap countCollection) : list event :=
  match entries with
  | [] => []
  | (name, _) :: entries =>
      match mget lastCountCollections name with
      | Some _ => Difference name :: differenceEvents entries lastCountCollections
      | None => differenceEvents entries lastCountCollections
      end
  end.


Section RunPoints.

Context `{Sql} `{Aws}.

(** The world when the collectors are done and the counts file has been
    looked for (line 95). *)
Definition afterStat (configPath : string) (fs : gmap string string)
    (config : applicationConfig) : World :=
  {| files := fs;
     trace := ReadFile configPath :: collectedEvents (Databases config)
              ++ [Stat (CountPath config)] |}.

(** The publish step of a run that loaded [lastCountCollections]. *)
Definition published (config : applicationConfig)
    (lastCountCollections : gomap countCollection) : Eff (option error) :=
  putAWSCountCollectionMetrics
    (Some (differencesOf (map_to_list (collected (Databases config) ∅))
             lastCountCollections ∅))
    (AwsConfig config).

(** The events of such a run between the test of line 95 and the save of
    line 139. *)
Definition beforeSave (config : applicationConfig)
    (lastCountCollections : gomap countCollection) : list event :=
  [ReadFile (CountPath config)]
  ++ differenceEvents (map_to_list (collected (Databases config) ∅))
       lastCountCollections
  ++ events (published config lastCountCollections)
  ++ match value (published config lastCountCollections) with
     | Some err => [Log pushFailed [AErr err]]
     | None => []
     end.

End RunPoints.

(** The value of a successful call. *)
Definition result_value {A} (r : result A) : option A :=
  match r with
  | Ok a => Some a
  | Err _ => None
  end.

(** ** What the collector stores *)

(** The map the loop of lines 383-406 leaves: the rows whose scan did not
    fail, stored in order over [counts]. *)
Definition storedRows (rows : list sqlRow) (counts : gmap string Z) : gmap string Z :=
  foldl (λ m r, <[scanName r := scanCount r]> m) counts
    (filter (λ r, scanErr r = None) rows).

Definition scanFailed : string :=
  "ERROR: Failed to obtain values in database %s for table %s: %s".
Definition scanObtained : string :=
  "INFO: Obtained value in database %s for table %s with count %d".

(** The release of a result set or of the handle. *)
Definition isClose (e : event) : bool :=
  match e with
  | RowsClose _ | DbClose => true
  | _ => false
  end.

(** The templates of the last branch of lines 316-373. *)
Definition defaultQuery (kind : counterKind) : string :=
  match kind with
  | KIncrement => defaultIncrementQuery
  | KRow => defaultRowQuery
  end.

(** ** Further collaborators and inputs for the examples *)

Module Cases.

Definition failedRow (name : string) (err : error) : sqlRow :=
  {| scanName := name; scanCount := 0; scanErr := Some err; rowsErr := None |}.

(** A MySQL server on which [refunds] has no auto-increment column: its
    counter is NULL and does not scan into an [int]. *)
Definition nullSql : Sql := {|
  sql_Open := λ _ _, None;
  db_Query := λ _ _ _ _ _,
    Ok [Sample.okRow "orders" 150;
        failedRow "refunds" "converting NULL to int is unsupported"];
  sqlx_In := λ query tables schema,
               Sqlx.In query [Sqlx.Slice tables; Sqlx.Scalar schema];
  sqlx_Rebind := Sqlx.Rebind
|}.

(** An sqlx whose [In] fails. *)
Definition failingInSql : Sql := {|
  sql_Open := λ _ _, None;
  db_Query := λ _ _ _ _ _, Ok [];
  sqlx_In := λ _ _ _, (EmptyString, [], Some "number of bindVars exceeds arguments");
  sqlx_Rebind := Sqlx.Rebind
|}.

(** A driver name that is not registered: [sql.Open] fails. *)
Definition unknownDriverSql : Sql := {|
  sql_Open := λ driverName _,
    if String.eqb driverName "mysql" then None
    else Some "sql: unknown driver (forgotten import?)";
  db_Query := λ _ _ _ _ _, Ok [Sample.okRow "orders" 150];
  sqlx_In := λ query tables schema,
               Sqlx.In query [Sqlx.Slice tables; Sqlx.Scalar schema];
  sqlx_Rebind := Sqlx.Rebind
|}.

Definition refundsDatabase : databaseConfig := {|
  Name := "shop"; Host := "db:3306"; Type_ := "mysql";
  User := "metrics"; Password := "secret";
  Database := "shop"; Schema := EmptyString;
  Tables := {| IncrementTables := ["orders"; "refunds"]; RowTables := [] |}
|}.

(** A target without a type. *)
Definition untypedDatabase : databaseConfig := {|
  Name := "legacy"; Host := "db:3306"; Type_ := EmptyString;
  User := "metrics"; Password := "secret";
  Database := "legacy"; Schema := EmptyString;
  Tables := {| IncrementTables := ["orders"]; RowTables := ["events"] |}
|}.

(** A target of a dialect without driver. *)
Definition oracleDatabase : databaseConfig := {|
  Name := "ledger"; Host := "ora:1521"; Type_ := "oracle";
  User := "metrics"; Password := "secret";
  Database := "ledger"; Schema := EmptyString;
  Tables := {| IncrementTables := ["entries"]; RowTables := [] |}
|}.

(** A CloudWatch that refuses every PUT. *)
Definition throttledAws : Aws := {|
  session_NewSession := λ _, None;
  credentials_Get := λ _, None;
  cloudwatch_PutMetricData := λ _, Some "Throttling: Rate exceeded"
|}.

(** The Delta of the scenario of the truncated table. *)
Definition deltas : gomap countCollection :=
  Sample.collections [("shop", Sample.snapshot [("orders", 50)] [("events", -3)])].

(** A configuration of three targets, the second of a dialect without
    driver, and a YAML that decodes it. *)
Definition mixedConfig : applicationConfig := {|
  AwsConfig := None;
  CountPath := "counts.yml";
  Databases := [Sample.shopDatabase; oracleDatabase; Sample.eventsConfig]
|}.

Definition mixedYaml : Yaml := {|
  yaml_Marshal := λ _, Err "yaml: text not among the examples";
  yaml_Unmarshal := λ _, Err "yaml: text not among the examples";
  yaml_UnmarshalConfig := λ text,
    if String.eqb text "config" then Ok mixedConfig
    else Err "yaml: text not among the examples"
|}.

(** A target whose name has a percent sign, and the configuration that
    names it alone. *)
Definition percentDatabase : databaseConfig := {|
  Name := "a%b"; Host := "db:3306"; Type_ := "mysql";
  User := "metrics"; Password := "secret";
  Database := "shop"; Schema := EmptyString;
  Tables := {| IncrementTables := ["orders"]; RowTables := [] |}
|}.

Definition percentConfig : applicationConfig := {|
  AwsConfig := None;
  CountPath := "counts.yml";
  Databases := [percentDatabase]
|}.

(** The collection of that configuration when [orders] is at [counter];
    the text yaml.v2 writes for it at 100 and at 150; what [fmt.Fprintf]
    prints from these texts, and the collection yaml.v2 reads from the
    print. *)
Definition percentCollections (counter : Z) : gomap countCollection :=
  Sample.collections [("a%b", Sample.snapshot [("orders", counter)] [])].
Definition mangledCollections (counter : Z) : gomap countCollection :=
  Sample.collections [("a%!b(MISSING)", Sample.snapshot [("orders", counter)] [])].

Definition percent100Yaml : string :=
  "a%b:" +:+ Sample.nl +:+ "  increment:" +:+ Sample.nl
  +:+ "    orders: 100" +:+ Sample.nl +:+ "  row: {}" +:+ Sample.nl.
Definition percent150Yaml : string :=
  "a%b:" +:+ Sample.nl +:+ "  increment:" +:+ Sample.nl
  +:+ "    orders: 150" +:+ Sample.nl +:+ "  row: {}" +:+ Sample.nl.
Definition mangled100Yaml : string :=
  "a%!b(MISSING):" +:+ Sample.nl +:+ "  increment:" +:+ Sample.nl
  +:+ "    orders: 100" +:+ Sample.nl +:+ "  row: {}" +:+ Sample.nl.
Definition mangled150Yaml : string :=
  "a%!b(MISSING):" +:+ Sample.nl +:+ "  increment:" +:+ Sample.nl
  +:+ "    orders: 150" +:+ Sample.nl +:+ "  row: {}" +:+ Sample.nl.

(** yaml.v2 at these texts, and nowhere else. *)
Definition percentYaml : Yaml := {|
  yaml_Marshal := λ m,
    if decide (m = percentCollections 100) then Ok percent100Yaml
    else if decide (m = percentCollections 150) then Ok percent150Yaml
    else Err "yaml: text not among the examples";
  yaml_Unmarshal := λ text,
    if String.eqb text percent100Yaml then Ok (percentCollections 100)
    else if String.eqb text percent150Yaml then Ok (percentCollections 150)
    else if String.eqb text mangled100Yaml then Ok (mangledCollections 100)
    else if String.eqb text mangled150Yaml then Ok (mangledCollections 150)
    else Err "yaml: text not among the examples";
  yaml_UnmarshalConfig := λ text,
    if String.eqb text "config" then Ok percentConfig
    else Err "yaml: text not among the examples"
|}.

(** A command line that [flag.Parse] refuses. *)
Definition refusedCommandLine : Flag := {| flag_Parse := λ _ _, Exited 2 |}.

End Cases.

(** ** What the publisher resolves *)

(** Lines 160-166: the namespace of the metrics. *)
Definition namespaceOf (awsConfig : gomap string) : string :=
  if String.eqb (mgetString awsConfig "namespace") EmptyString then "RowMetrics"
  else mgetString awsConfig "namespace".

(** Lines 168-177: the configuration the session is opened with, [None] for
    the default credential chain. *)
Definition explicitOf (awsConfig : gomap string)
    : option (string * string * string) :=
  match awsConfig with
  | None => None
  | Some _ => Some (mgetString awsConfig "region",
                    mgetString awsConfig "accessKeyId",
                    mgetString awsConfig "secretAccessKey")
  end.

(** The datum of a table of a database (lines 195-210, 222-237). *)
Definition datumOf (awsConfig : gomap string) (countCollectionName : string)
    (countName : string) (count : Z) : metricDatum :=
  {| MetricName := countName; Value := count;
     DimensionValue := countCollectionName;
     Namespace := namespaceOf awsConfig |}.

(** The log formats of lines 214, 216, 241 and 243. *)
Definition incrementPushFailed : string :=
  "WARN: Failed to push Cloudwatch metric for table %s with count %d: %s".
Definition incrementPushed : string :=
  "INFO: Pushed Cloudwatch metric for table %s with count %d".
Definition rowPushFailed : string :=
  "ERROR: Failed to push Cloudwatch metric for table %s with difference %d: %s".
Definition rowPushed : string :=
  "INFO: Pushed Cloudwatch metric for table %s with difference %d".

Definition pushFailedFormat (kind : counterKind) : string :=
  match kind with
  | KIncrement => incrementPushFailed
  | KRow => rowPushFailed
  end.

Definition pushedFormat (kind : counterKind) : string :=
  match kind with
  | KIncrement => incrementPushed
  | KRow => rowPushed
  end.

Definition isPutMetricData (e : event) : bool :=
  match e with
  | PutMetricData _ => true
  | _ => false
  end.

(** The number of counters of a collection of snapshots. *)
Definition countersOf (countCollections : gomap countCollection) : nat :=
  sum_list ((λ entry, length (mrange (Increment entry.2))
                      + length (mrange (Row entry.2)))%nat
            <$> mrange countCollections).

(** The log formats of lines 76, 88 and 108. *)
Definition configFailed : string :=
  "FATAL: Failed to load application config YAML: %s".
Definition countsFailed : string :=
  "FATAL: Failed to get counts for database %s: %s".
Definition loadFailed : string := "FATAL: Failed to load counts YAML: %s".

(** The error of [ioutil.ReadFile] on a path that is absent. *)
Definition noSuchFile : error := "open: no such file or directory".


(** * Part II: properties *)

(** ** Go integers *)

Lemma wrap_in_range z : GoInt.in_range (GoInt.wrap z).
Proof.
  unfold GoInt.in_range, GoInt.wrap, GoInt.min_int, GoInt.max_int.
  pose proof (Z.mod_pos_bound (z + 2 ^ 63) (2 ^ 64)). lia.
Qed.

Lemma wrap_id z : GoInt.in_range z → GoInt.wrap z = z.
Proof.
  unfold GoInt.in_range, GoInt.wrap, GoInt.min_int, GoInt.max_int. intros Hz.
  rewrite Z.mod_small; lia.
Qed.

Lemma sub_exact a b : GoInt.in_range (a - b) → GoInt.sub a b = a - b.
Proof. apply wrap_id. Qed.

(** Counters are not negative: their difference never wraps. *)
Lemma sub_exact_counters a b :
  0 ≤ a ≤ GoInt.max_int → 0 ≤ b ≤ GoInt.max_int → GoInt.sub a b = a - b.
Proof.
  intros Ha Hb. apply sub_exact.
  unfold GoInt.in_range, GoInt.min_int, GoInt.max_int in *. lia.
Qed.

(** Outside the range of [int] the subtraction wraps, as in Go. *)
Remark sub_wraps : GoInt.sub GoInt.max_int (-1) = GoInt.min_int.
Proof. reflexivity. Qed.

(** ** Go maps *)

Lemma elem_of_mkeys {V} (m : gomap V) k : k ∈ mkeys m ↔ is_Some (mget m k).
Proof.
  destruct m as [g|]; simpl.
  - apply elem_of_dom.
  - split; [by intros ?%not_elem_of_empty | by intros [? ?]].
Qed.

Lemma elem_of_mrange {V} (m : gomap V) k v : (k, v) ∈ mrange m ↔ mget m k = Some v.
Proof.
  destruct m as [g|]; simpl.
  - apply elem_of_map_to_list.
  - split; [by intros ?%elem_of_nil | done].
Qed.

Lemma NoDup_fst_mrange {V} (m : gomap V) : NoDup (mrange m).*1.
Proof.
  destruct m as [g|]; simpl.
  - apply NoDup_fst_map_to_list.
  - constructor.
Qed.

(** ** Delta engine *)

Section DifferenceLoop.

Context (subtrahend : gomap Z).

Lemma differenceStep_insert d k v :
  differenceStep subtrahend d (k, v) = <[k := deltaOf subtrahend k v]> d.
Proof. unfold differenceStep, deltaOf. by destruct (mget subtrahend k). Qed.

Lemma differenceLoop_notin entries d k :
  k ∉ entries.*1 → differenceLoop entries subtrahend d !! k = d !! k.
Proof.
  unfold differenceLoop. revert d.
  induction entries as [|[k' v'] entries IH]; intros d Hk; simpl in *; [done|].
  apply not_elem_of_cons in Hk as [Hne Hk].
  rewrite IH by done. rewrite differenceStep_insert.
  by rewrite lookup_insert_ne.
Qed.

Lemma differenceLoop_in entries d k v :
  NoDup entries.*1 → (k, v) ∈ entries →
  differenceLoop entries subtrahend d !! k = Some (deltaOf subtrahend k v).
Proof.
  unfold differenceLoop. revert d.
  induction entries as [|[k' v'] entries IH]; intros d Hnd Hin; simpl in *.
  - by apply elem_of_nil in Hin.
  - apply NoDup_cons in Hnd as [Hk' Hnd].
    apply elem_of_cons in Hin as [Heq | Hin].
    + injection Heq as <- <-.
      pose proof (differenceLoop_notin entries
                    (differenceStep subtrahend d (k, v)) k Hk') as Hn.
      unfold differenceLoop in Hn. rewrite Hn, differenceStep_insert.
      apply lookup_insert_eq.
    + by apply IH.
Qed.

(** The iteration order does not matter: two orders of the entries of a
    map give the same difference. *)
Lemma differenceLoop_order entries1 entries2 d :
  NoDup entries1.*1 → entries1 ≡ₚ entries2 →
  differenceLoop entries1 subtrahend d = differenceLoop entries2 subtrahend d.
Proof.
  intros Hnd Hp. apply map_eq. intros k.
  assert (NoDup entries2.*1) as Hnd2 by (by rewrite <- Hp).
  destruct (decide (k ∈ entries1.*1)) as [Hin | Hnin].
  - apply list_elem_of_fmap in Hin as ([k' v] & -> & Hin). simpl.
    rewrite (differenceLoop_in entries1 d k' v) by done.
    rewrite (differenceLoop_in entries2 d k' v); [done | done |].
    by rewrite <- Hp.
  - rewrite differenceLoop_notin by done.
    rewrite differenceLoop_notin; [done |]. by rewrite <- Hp.
Qed.

End DifferenceLoop.

Lemma differenceLoop_lookup (m s : gomap Z) k :
  differenceLoop (mrange m) s ∅ !! k = deltaOf s k <$> mget m k.
Proof.
  destruct (mget m k) as [v|] eqn:Hk; simpl.
  - apply differenceLoop_in; [apply NoDup_fst_mrange | by apply elem_of_mrange].
  - rewrite differenceLoop_notin; [done |].
    intros ([k' v] & -> & Hin%elem_of_mrange)%list_elem_of_fmap.
    simpl in Hk. congruence.
Qed.

(** Either mapping of the difference, by the counter kind. *)
Lemma difference_lookup kind (current previous : countCollection) k :
  mget (counts kind (getCountCollectionDifference current previous)) k
  = deltaOf (counts kind previous) k <$> mget (counts kind current) k.
Proof. destruct kind; simpl; apply differenceLoop_lookup. Qed.

(** C1. For a table present in both snapshots the Delta holds the
    difference [current - previous] of the two counters in Go's integer
    arithmetic, for the increment mapping and independently for the row
    mapping.  Nothing is clamped: whenever the difference fits an [int]
    (always for counters that are not negative) the Delta holds exactly
    it, negative or not. *)
Theorem delta_is_current_minus_previous (kind : counterKind)
    (current previous : countCollection) (table : string) (cur prev : Z) :
  mget (counts kind current) table = Some cur →
  mget (counts kind previous) table = Some prev →
  mget (counts kind (getCountCollectionDifference current previous)) table
    = Some (GoInt.sub cur prev) ∧
  (GoInt.in_range (cur - prev) →
   mget (counts kind (getCountCollectionDifference current previous)) table
     = Some (cur - prev)).
Proof.
  intros Hc Hp.
  assert (mget (counts kind (getCountCollectionDifference current previous)) table
          = Some (GoInt.sub cur prev)) as Hd.
  { rewrite difference_lookup, Hc. simpl. unfold deltaOf. by rewrite Hp. }
  split; [done |]. intros Hr. by rewrite Hd, sub_exact.
Qed.

(** A truncated table: 7 rows after 10 give a Delta of -3. *)
Lemma delta_is_current_minus_previous_witness :
  let current := Sample.snapshot [] [("events", 7)] in
  let previous := Sample.snapshot [] [("events", 10)] in
  mget (counts KRow current) "events" = Some 7 ∧
  mget (counts KRow previous) "events" = Some 10 ∧
  GoInt.in_range (7 - 10) ∧
  mget (counts KRow (getCountCollectionDifference current previous)) "events"
    = Some (-3).
Proof.
  intros current previous.
  assert (mget (counts KRow current) "events" = Some 7) as Hc by reflexivity.
  assert (mget (counts KRow previous) "events" = Some 10) as Hp by reflexivity.
  assert (GoInt.in_range (7 - 10)) as Hr by (by vm_compute).
  split; [exact Hc | split; [exact Hp | split; [exact Hr |]]].
  exact (proj2 (delta_is_current_minus_previous KRow current previous
                  "events" 7 10 Hc Hp) Hr).
Defined.

(** C2. A table of the current snapshot that the previous snapshot does not
    have gets the Delta value 0, in the increment mapping and independently
    in the row mapping. *)
Theorem delta_of_new_table_is_zero (kind : counterKind)
    (current previous : countCollection) (table : string) :
  is_Some (mget (counts kind current) table) →
  mget (counts kind previous) table = None →
  mget (counts kind (getCountCollectionDifference current previous)) table
    = Some 0.
Proof.
  intros [cur Hc] Hp. rewrite difference_lookup, Hc. simpl.
  unfold deltaOf. by rewrite Hp.
Qed.

Lemma delta_of_new_table_is_zero_witness :
  let current := Sample.snapshot [("orders", 150); ("refunds", 4)] [] in
  let previous := Sample.snapshot [("orders", 100)] [] in
  is_Some (mget (counts KIncrement current) "refunds") ∧
  mget (counts KIncrement previous) "refunds" = None ∧
  mget (counts KIncrement (getCountCollectionDifference current previous)) "refunds"
    = Some 0.
Proof.
  intros current previous.
  assert (is_Some (mget (counts KIncrement current) "refunds")) as Hc
    by (exists 4; reflexivity).
  assert (mget (counts KIncrement previous) "refunds" = None) as Hp by reflexivity.
  split; [exact Hc | split; [exact Hp |]].
  exact (delta_of_new_table_is_zero KIncrement current previous "refunds" Hc Hp).
Defined.

(** C3. Every key of the current snapshot is a key of the Delta: the diff
    drops no table, in either mapping. *)
Theorem delta_keeps_every_current_key (kind : counterKind)
    (current previous : countCollection) :
  mkeys (counts kind current)
    ⊆ mkeys (counts kind (getCountCollectionDifference current previous)).
Proof.
  intros k [v Hk]%elem_of_mkeys. apply elem_of_mkeys.
  rewrite difference_lookup, Hk. simpl. eauto.
Qed.

(** C9. The Delta has no key beyond those of the current snapshot: a table
    that the current snapshot does not have (one that only the previous
    snapshot has, in particular) is absent from the Delta, and the key set
    of each mapping of the Delta is that of the current snapshot. *)
Theorem delta_keys_are_current_keys (kind : counterKind)
    (current previous : countCollection) :
  (∀ table, mget (counts kind current) table = None →
            mget (counts kind (getCountCollectionDifference current previous)) table
              = None) ∧
  mkeys (counts kind (getCountCollectionDifference current previous))
    = mkeys (counts kind current).
Proof.
  split.
  - intros k Hk. by rewrite difference_lookup, Hk.
  - apply set_eq. intros k. rewrite !elem_of_mkeys, difference_lookup.
    by rewrite fmap_is_Some.
Qed.

Lemma delta_keys_are_current_keys_witness :
  let current := Sample.snapshot [("orders", 150)] [] in
  let previous := Sample.snapshot [("orders", 100); ("legacy", 9)] [] in
  mget (counts KIncrement current) "legacy" = None ∧
  mget (counts KIncrement (getCountCollectionDifference current previous)) "legacy"
    = None.
Proof.
  intros current previous.
  assert (mget (counts KIncrement current) "legacy" = None) as Hc by reflexivity.
  split; [exact Hc |].
  exact (proj1 (delta_keys_are_current_keys KIncrement current previous) "legacy" Hc).
Defined.

(** ** Computations with events *)

Lemma events_bind {A B} (m : Eff A) (k : A → Eff B) :
  events (m ≫= k) = events m ++ events (k (value m)).
Proof.
  destruct m as [evs a]. unfold mbind, Eff_mbind, Eff_bind, events, value. simpl.
  by destruct (k a).
Qed.

Lemma value_bind {A B} (m : Eff A) (k : A → Eff B) :
  value (m ≫= k) = value (k (value m)).
Proof.
  destruct m as [evs a]. unfold mbind, Eff_mbind, Eff_bind, events, value. simpl.
  by destruct (k a).
Qed.

Lemma Forall_events_bind {A B} (P : event → Prop) (m : Eff A) (k : A → Eff B) :
  Forall P (events m) → (∀ a, Forall P (events (k a))) →
  Forall P (events (m ≫= k)).
Proof. intros Hm Hk. rewrite events_bind. apply Forall_app; auto. Qed.

(** ** [fmt.Fprintf] without operands *)

Lemma doPrintf_plain fuel s :
  hasPercent s = false → (String.length s < fuel)%nat → Fmt.doPrintf fuel s = s.
Proof.
  revert s. induction fuel as [|fuel IH]; intros s Hs Hlen; [lia |].
  destruct s as [|c r]; [done |]. simpl in *.
  apply orb_false_iff in Hs as [Hc Hr]. rewrite Hc.
  f_equal. apply IH; [done | lia].
Qed.

(** Every step of a directive leaves a suffix of the format: nothing it
    returns is longer than what it was given. *)

Lemma skipFlags_length s : (String.length (Fmt.skipFlags s) ≤ String.length s)%nat.
Proof.
  induction s as [|c s IH]; simpl; [lia |].
  destruct (Fmt.isFlag c); simpl; lia.
Qed.

Lemma dropString_length n s :
  (String.length (Fmt.dropString n s) ≤ String.length s)%nat.
Proof.
  revert s. induction n as [|n IH]; intros [|c s]; simpl; try lia.
  specialize (IH s). lia.
Qed.

Lemma parsenumFrom_length num isnum s :
  (String.length (Fmt.parsenumFrom num isnum s).2 ≤ String.length s)%nat.
Proof.
  revert num isnum. induction s as [|c s IH]; intros num isnum; simpl; [lia |].
  destruct (Fmt.isDigit c); [| simpl; lia].
  destruct (Fmt.tooLarge num); [simpl; lia |].
  specialize (IH (num * 10 + (N_of_ascii c - 48))%N true). lia.
Qed.

Lemma argNumber_length s :
  (String.length (Fmt.argNumber s).1.1 ≤ String.length s)%nat.
Proof.
  unfold Fmt.argNumber. destruct s as [|c s]; [simpl; lia |].
  destruct (c =? "[")%char; [| simpl; lia].
  destruct (Fmt.parseArgNumber (String c s)) as [wid ok]. simpl fst.
  apply dropString_length.
Qed.

Lemma decodeVerb_length s :
  (String.length (Fmt.decodeVerb s).2 ≤ String.length s)%nat.
Proof.
  unfold Fmt.decodeVerb. destruct s as [|c s]; [simpl; lia |].
  destruct (N_of_ascii c <? 128)%N; [simpl; lia |].
  destruct (Fmt.utf8Length (String c s)) as [n|]; [| simpl; lia].
  simpl snd. apply dropString_length.
Qed.

Lemma width_length s afterIndex bad :
  (String.length (Fmt.width s afterIndex bad).1.1.1 ≤ String.length s)%nat.
Proof.
  unfold Fmt.width. destruct s as [|c s]; [simpl; lia |].
  destruct (c =? "*")%char; [simpl; lia |].
  pose proof (parsenumFrom_length 0%N false (String c s)) as Hp.
  unfold Fmt.parsenum. by destruct (Fmt.parsenumFrom _ _ _).
Qed.

Lemma precisionNumber_length s out afterIndex bad :
  (String.length (Fmt.precisionNumber s out afterIndex bad).1.1.1
   ≤ String.length s)%nat.
Proof.
  unfold Fmt.precisionNumber. destruct s as [|c s]; [simpl; lia |].
  destruct (c =? "*")%char; [simpl; lia |].
  apply (parsenumFrom_length 0%N false (String c s)).
Qed.

Lemma precision_length s out afterIndex bad :
  (String.length (Fmt.precision s out afterIndex bad).1.1.1 ≤ String.length s)%nat.
Proof.
  unfold Fmt.precision. destruct s as [|c s]; [simpl; lia |].
  destruct (c =? ".")%char; [| simpl; lia].
  pose proof (argNumber_length s) as Ha.
  destruct (Fmt.argNumber s) as [[rest found] bracket]. simpl in Ha.
  pose proof (precisionNumber_length rest out found (bad || afterIndex || bracket)).
  simpl. lia.
Qed.

Lemma verb_length s out bad :
  (String.length (Fmt.verb s out bad).2 ≤ String.length s)%nat.
Proof.
  unfold Fmt.verb. destruct s as [|c s]; [simpl; lia |].
  pose proof (decodeVerb_length (String c s)) as Hd.
  destruct (Fmt.decodeVerb (String c s)) as [v rest]. simpl in Hd.
  destruct (String.eqb v "%"); [done |]. by destruct bad.
Qed.

Lemma directive_length s :
  (String.length (Fmt.directive s).2 ≤ String.length s)%nat.
Proof.
  unfold Fmt.directive.
  pose proof (skipFlags_length s) as H0.
  pose proof (argNumber_length (Fmt.skipFlags s)) as H1.
  destruct (Fmt.argNumber (Fmt.skipFlags s)) as [[s1 afterIndex1] bad1].
  simpl in H1.
  pose proof (width_length s1 afterIndex1 bad1) as H2.
  destruct (Fmt.width s1 afterIndex1 bad1) as [[[s2 out2] afterIndex2] bad2].
  simpl in H2.
  pose proof (precision_length s2 out2 afterIndex2 bad2) as H3.
  destruct (Fmt.precision s2 out2 afterIndex2 bad2) as [[[s3 out3] afterIndex3] bad3].
  simpl in H3.
  destruct afterIndex3.
  - pose proof (verb_length s3 out3 bad3). lia.
  - pose proof (argNumber_length s3) as H4.
    destruct (Fmt.argNumber s3) as [[s4 found4] bracket4]. simpl in H4.
    pose proof (verb_length s4 out3 (bad3 || bracket4)). lia.
Qed.

(** [doPrintf] never runs out of fuel on a format shorter than its fuel:
    more fuel gives the same text. *)
Lemma doPrintf_fuel fuel1 fuel2 s :
  (String.length s < fuel1)%nat → (String.length s < fuel2)%nat →
  Fmt.doPrintf fuel1 s = Fmt.doPrintf fuel2 s.
Proof.
  revert fuel2 s. induction fuel1 as [|fuel1 IH]; intros fuel2 s H1 H2; [lia |].
  destruct fuel2 as [|fuel2]; [lia |].
  destruct s as [|c s]; [done |]. simpl in *.
  destruct (c =? "%")%char.
  - pose proof (directive_length s) as Hd.
    destruct (Fmt.directive s) as [out rest]. simpl in Hd.
    f_equal. apply IH; lia.
  - f_equal. apply IH; lia.
Qed.

Lemma Sprintf_fuel fuel s :
  (String.length s < fuel)%nat → Fmt.doPrintf fuel s = Fmt.Sprintf s.
Proof. intros Hf. unfold Fmt.Sprintf. apply doPrintf_fuel; lia. Qed.

(** A text without a percent sign is printed as it is. *)
Lemma Sprintf_plain s : hasPercent s = false → Fmt.Sprintf s = s.
Proof. intros Hs. unfold Fmt.Sprintf. apply doPrintf_plain; [done | lia]. Qed.

(** ** Query builder and collector *)

Section CollectorFacts.

Context `{Sql}.

Lemma assembleQuery_empty type kind dbSchema :
  assembleQuery type kind [] dbSchema = ([], (EmptyString, [])).
Proof. done. Qed.

(** The query a non-empty table set is turned into. *)
Lemma assembleQuery_value type kind tables dbSchema :
  tables ≠ [] →
  value (assembleQuery type kind tables dbSchema)
  = (let query := (sqlx_In (queryTemplate type kind) tables dbSchema).1.1 in
     if String.eqb type "mysql" then query
     else if String.eqb type "postgres" then sqlx_Rebind DOLLAR query
     else query,
     (sqlx_In (queryTemplate type kind) tables dbSchema).1.2).
Proof.
  intros Ht. unfold assembleQuery.
  destruct tables as [|t tables]; [done |]. simpl.
  destruct (sqlx_In _ _ _) as [[query args] err]. simpl.
  rewrite value_bind.
  by destruct (String.eqb type "mysql"), (String.eqb type "postgres").
Qed.

(** All the builder can log is the error of [sqlx.In]. *)
Lemma assembleQuery_events type kind tables dbSchema :
  events (assembleQuery type kind tables dbSchema) = []
  ∨ ∃ e, events (assembleQuery type kind tables dbSchema)
         = [Log (assembleError kind) [AErr e]].
Proof.
  unfold assembleQuery. destruct (0 <? length tables)%nat; [| by left].
  destruct (sqlx_In _ _ _) as [[query args] [e|]]; rewrite events_bind.
  - right. exists e.
    by destruct (String.eqb type "mysql"), (String.eqb type "postgres").
  - left. by destruct (String.eqb type "mysql"), (String.eqb type "postgres").
Qed.

Lemma runQuery_skipped kind dbType dsn dbName query args counts :
  query = EmptyString ∨ args = [] →
  runQuery kind dbType dsn dbName query args counts = ([], (counts, false)).
Proof.
  intros [-> | ->]; unfold runQuery; simpl; [done |].
  by rewrite andb_false_r.
Qed.

Lemma runQuery_failed kind dbType dsn dbName query args counts e :
  query ≠ EmptyString → args ≠ [] →
  db_Query dbType dsn kind query args = Err e →
  runQuery kind dbType dsn dbName query args counts
  = ([DbQuery kind query args; Log queryFailed [AStr dbName; AErr e]],
     (counts, false)).
Proof.
  intros Hq Ha He. unfold runQuery.
  apply String.eqb_neq in Hq. rewrite Hq.
  destruct args; [done |]. simpl. by rewrite He.
Qed.

(** A query is run only when it was built, and then its events start with
    the query itself. *)
Lemma runQuery_issued kind dbType dsn dbName query args counts :
  query ≠ EmptyString → args ≠ [] →
  ∃ evs, events (runQuery kind dbType dsn dbName query args counts)
         = DbQuery kind query args :: evs.
Proof.
  intros Hq Ha. unfold runQuery.
  apply String.eqb_neq in Hq. rewrite Hq.
  destruct args; [done |]. cbn [length Nat.ltb Nat.leb negb andb].
  rewrite events_bind. simpl. eauto.
Qed.

End CollectorFacts.

Section GetCountCollection.

Context `{Sql} (dbConfig : databaseConfig).

(** [sql.Open] failed: the collector returns at once (line 305). *)
Lemma getCountCollection_not_opened err :
  sql_Open (resolveType dbConfig) (dsnOf dbConfig) = Some err →
  getCountCollection dbConfig
  = ([SqlOpen (resolveType dbConfig) (dsnOf dbConfig)],
     ({| Increment := make; Row := make |}, Some err)).
Proof.
  intros Ho. unfold getCountCollection. unfold dsnOf in Ho.
  rewrite Ho. reflexivity.
Qed.

(** [sql.Open] succeeded: the events of the collector are those of its
    blocks, in order, and it returns a nil error. *)
Lemma getCountCollection_opened :
  sql_Open (resolveType dbConfig) (dsnOf dbConfig) = None →
  getCountCollection dbConfig
  = (SqlOpen (resolveType dbConfig) (dsnOf dbConfig)
       :: events (builtQuery KIncrement dbConfig)
       ++ events (builtQuery KRow dbConfig)
       ++ events (queryRun KIncrement dbConfig)
       ++ events (queryRun KRow dbConfig)
       ++ events (closeRows KRow (value (queryRun KRow dbConfig)).2)
       ++ events (closeRows KIncrement (value (queryRun KIncrement dbConfig)).2)
       ++ [DbClose],
     ({| Increment := Some (value (queryRun KIncrement dbConfig)).1;
         Row := Some (value (queryRun KRow dbConfig)).1 |}, None)).
Proof.
  intros Ho. unfold getCountCollection, buildQueries. unfold dsnOf in Ho.
  rewrite Ho. unfold queryRun, builtQuery, tablesOf, schemaOf, dsnOf.
  destruct (assembleQuery _ KIncrement _ _) as [e1 [q1 a1]].
  destruct (assembleQuery _ KRow _ _) as [e2 [q2 a2]].
  unfold mbind, Eff_mbind, Eff_bind, mret, Eff_mret, Eff_ret, emit, events, value.
  simpl.
  destruct (runQuery KIncrement _ _ _ q1 a1 ∅) as [e3 [c3 o3]].
  destruct (runQuery KRow _ _ _ q2 a2 ∅) as [e4 [c4 o4]].
  simpl. destruct o3, o4; simpl; by rewrite ?app_nil_r, <- ?app_assoc.
Qed.

(** Every event of the collector is the opening or the closing of the
    handle, or belongs to the blocks of one counter kind. *)
Lemma getCountCollection_event e :
  e ∈ events (getCountCollection dbConfig) →
  e = SqlOpen (resolveType dbConfig) (dsnOf dbConfig) ∨ e = DbClose
  ∨ e ∈ kindEvents KIncrement dbConfig ∨ e ∈ kindEvents KRow dbConfig.
Proof.
  destruct (sql_Open (resolveType dbConfig) (dsnOf dbConfig)) as [err|] eqn:Ho.
  - rewrite (getCountCollection_not_opened err Ho). simpl.
    intros ->%list_elem_of_singleton. by left.
  - rewrite (getCountCollection_opened Ho). unfold kindEvents, events at 1. simpl.
    rewrite elem_of_cons, !elem_of_app, list_elem_of_singleton. tauto.
Qed.

Lemma kindEvents_subset kind e :
  sql_Open (resolveType dbConfig) (dsnOf dbConfig) = None →
  e ∈ kindEvents kind dbConfig → e ∈ events (getCountCollection dbConfig).
Proof.
  intros Ho. rewrite (getCountCollection_opened Ho). unfold kindEvents, events at 4.
  simpl. rewrite elem_of_cons, !elem_of_app. destruct kind; tauto.
Qed.

End GetCountCollection.

Lemma prefix_first a s c f : String.prefix (String a s) (String c f) = true → a = c.
Proof.
  intros Hp.
  change (match ascii_dec a c with
          | left _ => String.prefix s f
          | right _ => false
          end = true) in Hp.
  by destruct (ascii_dec a c).
Qed.

Lemma isErrorOrInfo_not_warning e : isErrorOrInfo e = true → isWarning e = false.
Proof.
  destruct e as [format ops| | | | | | | | | | | |]; try done.
  unfold isErrorOrInfo, isWarning, isLogWithPrefix.
  destruct format as [|c format]; [done |].
  intros [Hp | Hp]%orb_true_iff; apply prefix_first in Hp; by subst c.
Qed.

Lemma isErrorOrInfo_not_query e kind : isErrorOrInfo e = true → isQuery kind e = false.
Proof. by destruct e, kind. Qed.

Section CollectorEvents.

Context `{Sql}.

Lemma builtQuery_events_log kind dbConfig :
  Forall (λ e, isErrorOrInfo e = true) (events (builtQuery kind dbConfig)).
Proof.
  unfold builtQuery.
  destruct (assembleQuery_events (Type_ dbConfig) kind (tablesOf kind dbConfig)
              (schemaOf dbConfig)) as [-> | [e ->]]; [constructor |].
  destruct kind; by repeat constructor.
Qed.

Lemma scanRows_events_log dbName rows counts :
  Forall (λ e, isErrorOrInfo e = true) (events (scanRows dbName rows counts)).
Proof.
  revert counts. induction rows as [|r rows IH]; intros counts; simpl.
  - constructor.
  - apply Forall_events_bind.
    + destruct (scanErr r); by repeat constructor.
    + intros counts'. apply Forall_events_bind; [| by intros _].
      destruct (rowsErr r); by repeat constructor.
Qed.

(** The events of a query block: the query itself, then log lines. *)
Lemma runQuery_events kind dbType dsn dbName query args counts :
  events (runQuery kind dbType dsn dbName query args counts) = []
  ∨ ∃ evs, events (runQuery kind dbType dsn dbName query args counts)
           = DbQuery kind query args :: evs
           ∧ Forall (λ e, isErrorOrInfo e = true) evs.
Proof.
  unfold runQuery. destruct (negb _ && _); [| by left].
  right. rewrite events_bind. simpl.
  destruct (db_Query _ _ _ _ _) as [rows | e]; eexists; split; try reflexivity.
  - rewrite events_bind, app_nil_r. apply scanRows_events_log.
  - by repeat constructor.
Qed.

(** No block of the collector logs a warning. *)
Lemma kindEvents_no_warning kind dbConfig :
  Forall (λ e, isWarning e = false) (kindEvents kind dbConfig).
Proof.
  unfold kindEvents. repeat apply Forall_app_2.
  - eapply Forall_impl; [apply builtQuery_events_log |].
    apply isErrorOrInfo_not_warning.
  - unfold queryRun.
    destruct (runQuery_events kind (resolveType dbConfig) (dsnOf dbConfig)
                (Name dbConfig) (value (builtQuery kind dbConfig)).1
                (value (builtQuery kind dbConfig)).2 ∅) as [-> | (evs & -> & Hevs)].
    + constructor.
    + constructor; [done |].
      eapply Forall_impl; [exact Hevs | apply isErrorOrInfo_not_warning].
  - destruct (value (queryRun kind dbConfig)).2; by repeat constructor.
Qed.

(** The blocks of one counter kind run no query of the other kind. *)
Lemma kindEvents_no_other_query kind dbConfig :
  Forall (λ e, isQuery (otherKind kind) e = false) (kindEvents kind dbConfig).
Proof.
  unfold kindEvents. repeat apply Forall_app_2.
  - eapply Forall_impl; [apply builtQuery_events_log |].
    intros e. apply isErrorOrInfo_not_query.
  - unfold queryRun.
    destruct (runQuery_events kind (resolveType dbConfig) (dsnOf dbConfig)
                (Name dbConfig) (value (builtQuery kind dbConfig)).1
                (value (builtQuery kind dbConfig)).2 ∅) as [-> | (evs & -> & Hevs)].
    + constructor.
    + constructor; [by destruct kind |].
      eapply Forall_impl; [exact Hevs |]. intros e. apply isErrorOrInfo_not_query.
  - destruct (value (queryRun kind dbConfig)).2, kind; by repeat constructor.
Qed.

Lemma getCountCollection_no_warning dbConfig :
  Forall (λ e, isWarning e = false) (events (getCountCollection dbConfig)).
Proof.
  apply Forall_forall. intros e He.
  apply getCountCollection_event in He as [-> | [-> | [He | He]]]; try done.
  - by apply (proj1 (Forall_forall _ _) (kindEvents_no_warning KIncrement dbConfig)).
  - by apply (proj1 (Forall_forall _ _) (kindEvents_no_warning KRow dbConfig)).
Qed.

End CollectorEvents.

Lemma isErrorOrInfo_collector e : isErrorOrInfo e = true → isCollector e = true.
Proof. by destruct e. Qed.

Lemma isCollector_not_difference_or_publish e :
  isCollector e = true → isDifference e = false ∧ isPublish e = false.
Proof. by destruct e. Qed.

Section CollectorOnly.

Context `{Sql}.

Lemma kindEvents_collector kind dbConfig :
  Forall (λ e, isCollector e = true) (kindEvents kind dbConfig).
Proof.
  unfold kindEvents. repeat apply Forall_app_2.
  - eapply Forall_impl; [apply builtQuery_events_log |].
    apply isErrorOrInfo_collector.
  - unfold queryRun.
    destruct (runQuery_events kind (resolveType dbConfig) (dsnOf dbConfig)
                (Name dbConfig) (value (builtQuery kind dbConfig)).1
                (value (builtQuery kind dbConfig)).2 ∅) as [-> | (evs & -> & Hevs)].
    + constructor.
    + constructor; [done |].
      eapply Forall_impl; [exact Hevs | apply isErrorOrInfo_collector].
  - destruct (value (queryRun kind dbConfig)).2; by repeat constructor.
Qed.

Lemma getCountCollection_events_collector dbConfig :
  Forall (λ e, isCollector e = true) (events (getCountCollection dbConfig)).
Proof.
  apply Forall_forall. intros e He.
  apply getCountCollection_event in He as [-> | [-> | [He | He]]]; try done.
  - by apply (proj1 (Forall_forall _ _) (kindEvents_collector KIncrement dbConfig)).
  - by apply (proj1 (Forall_forall _ _) (kindEvents_collector KRow dbConfig)).
Qed.

Lemma collectedEvents_collector databases :
  Forall (λ e, isCollector e = true) (collectedEvents databases).
Proof.
  unfold collectedEvents. induction databases as [|d databases IH]; simpl.
  - constructor.
  - apply Forall_app_2; [apply getCountCollection_events_collector | done].
Qed.

End CollectorOnly.

Section CollectorClaims.

Context `{Sql}.

Lemma buildQueries_value dbConfig :
  value (buildQueries dbConfig (schemaOf dbConfig))
  = (value (builtQuery KIncrement dbConfig), value (builtQuery KRow dbConfig)).
Proof. unfold buildQueries. by rewrite !value_bind. Qed.

(** With an empty table set the blocks of the kind do nothing. *)
Lemma kindEvents_empty kind dbConfig :
  tablesOf kind dbConfig = [] →
  kindEvents kind dbConfig = [] ∧ value (queryRun kind dbConfig) = (∅, false).
Proof.
  intros Ht.
  assert (builtQuery kind dbConfig = ([], (EmptyString, []))) as Hb.
  { unfold builtQuery. rewrite Ht. apply assembleQuery_empty. }
  assert (queryRun kind dbConfig = ([], (∅, false))) as Hr.
  { unfold queryRun. rewrite Hb. apply runQuery_skipped. by left. }
  unfold kindEvents. by rewrite Hb, Hr.
Qed.

Lemma getCountCollection_counts kind dbConfig :
  counts kind (value (getCountCollection dbConfig)).1 = Some ∅
  ∨ counts kind (value (getCountCollection dbConfig)).1
    = Some (value (queryRun kind dbConfig)).1.
Proof.
  destruct (sql_Open (resolveType dbConfig) (dsnOf dbConfig)) as [err|] eqn:Ho.
  - left. rewrite (getCountCollection_not_opened dbConfig err Ho). by destruct kind.
  - right. rewrite (getCountCollection_opened dbConfig Ho). by destruct kind.
Qed.

(** C4. For a POSTGRES target with both table sets non-empty, the increment
    query and the row query are built from the one statistics-view template
    ([n_live_tup] per [relname] of [pg_stat_user_tables]), rebound to [$n]
    placeholders; and the collector records no WARNING: none of its log
    lines has the severity WARN. *)
Theorem postgres_queries_share_template_without_warning (dbConfig : databaseConfig) :
  Type_ dbConfig = "postgres" →
  IncrementTables (Tables dbConfig) ≠ [] →
  RowTables (Tables dbConfig) ≠ [] →
  (∀ kind,
     value (builtQuery kind dbConfig)
     = (sqlx_Rebind DOLLAR
          (sqlx_In postgresQuery (tablesOf kind dbConfig) (schemaOf dbConfig)).1.1,
        (sqlx_In postgresQuery (tablesOf kind dbConfig) (schemaOf dbConfig)).1.2)) ∧
  value (buildQueries dbConfig (schemaOf dbConfig))
    = (value (builtQuery KIncrement dbConfig), value (builtQuery KRow dbConfig)) ∧
  Forall (λ e, isWarning e = false) (events (getCountCollection dbConfig)).
Proof.
  intros Hty Hi Hr. split; [| split].
  - intros kind. unfold builtQuery.
    rewrite assembleQuery_value by (by destruct kind).
    rewrite Hty. by destruct kind.
  - apply buildQueries_value.
  - apply getCountCollection_no_warning.
Qed.

(** C8. A target whose table set of a counter kind is empty: the blocks of
    that kind produce no event at all (no query is built or run, nothing is
    logged), no query of that kind is among the events of the collector,
    every event of the collector is the opening or closing of the handle or
    belongs to the other kind, and the mapping of that kind is empty. *)
Theorem empty_table_set_suppresses_query (kind : counterKind)
    (dbConfig : databaseConfig) :
  tablesOf kind dbConfig = [] →
  kindEvents kind dbConfig = [] ∧
  Forall (λ e, isQuery kind e = false) (events (getCountCollection dbConfig)) ∧
  (∀ e, e ∈ events (getCountCollection dbConfig) →
        e = SqlOpen (resolveType dbConfig) (dsnOf dbConfig) ∨ e = DbClose
        ∨ e ∈ kindEvents (otherKind kind) dbConfig) ∧
  counts kind (value (getCountCollection dbConfig)).1 = Some ∅.
Proof.
  intros Ht. destruct (kindEvents_empty kind dbConfig Ht) as [Hev Hval].
  assert (∀ e, e ∈ events (getCountCollection dbConfig) →
               e = SqlOpen (resolveType dbConfig) (dsnOf dbConfig) ∨ e = DbClose
               ∨ e ∈ kindEvents (otherKind kind) dbConfig) as Hall.
  { intros e He. apply getCountCollection_event in He as [-> | [-> | He]]; auto.
    right. right. destruct kind; simpl; rewrite Hev in He;
      destruct He as [He | He]; (done || by apply elem_of_nil in He). }
  split; [done |]. split; [| split; [done |]].
  - apply Forall_forall. intros e He.
    apply Hall in He as [-> | [-> | He]]; [by destruct kind | by destruct kind |].
    pose proof (kindEvents_no_other_query (otherKind kind) dbConfig) as Hn.
    rewrite Forall_forall in Hn. apply Hn in He. by destruct kind.
  - destruct (getCountCollection_counts kind dbConfig) as [-> | ->]; [done |].
    by rewrite Hval.
Qed.

(** The collection the run holds after the loop of lines 83-93. *)
Lemma collected_notin databases cur name :
  name ∉ Name <$> databases → collected databases cur !! name = cur !! name.
Proof.
  unfold collected. revert cur.
  induction databases as [|d databases IH]; intros cur Hn; simpl in *; [done |].
  apply not_elem_of_cons in Hn as [Hne Hn].
  rewrite IH by done. by rewrite lookup_insert_ne.
Qed.

Lemma collected_lookup databases cur dbConfig :
  NoDup (Name <$> databases) → dbConfig ∈ databases →
  collected databases cur !! Name dbConfig
  = Some (value (getCountCollection dbConfig)).1.
Proof.
  revert cur. induction databases as [|d databases IH]; intros cur Hnd Hin.
  - by apply elem_of_nil in Hin.
  - rewrite fmap_cons in Hnd. apply NoDup_cons in Hnd as [Hd Hnd].
    apply elem_of_cons in Hin as [<- | Hin].
    + pose proof (collected_notin databases
                    (<[Name dbConfig := (value (getCountCollection dbConfig)).1]> cur)
                    (Name dbConfig) Hd) as Hc.
      unfold collected in *. simpl. rewrite Hc. apply lookup_insert_eq.
    + unfold collected in *. simpl. by apply IH.
Qed.

(** C10. The handle opened and every query the collector issues fails:
    the collector returns a snapshot whose two mappings are made and empty,
    with a nil error; each failed query is logged as an ERROR line; and the
    collection the run goes on to save holds that empty snapshot for the
    target. *)
Theorem failed_queries_give_empty_snapshot (dbConfig : databaseConfig) :
  sql_Open (resolveType dbConfig) (dsnOf dbConfig) = None →
  (∀ kind query args,
     DbQuery kind query args ∈ events (getCountCollection dbConfig) →
     ∃ err, db_Query (resolveType dbConfig) (dsnOf dbConfig) kind query args
            = Err err) →
  value (getCountCollection dbConfig)
    = ({| Increment := make; Row := make |}, None) ∧
  (∀ kind query args,
     DbQuery kind query args ∈ events (getCountCollection dbConfig) →
     ∃ err, db_Query (resolveType dbConfig) (dsnOf dbConfig) kind query args
            = Err err
            ∧ Log queryFailed [AStr (Name dbConfig); AErr err]
              ∈ events (getCountCollection dbConfig)) ∧
  (∀ databases,
     NoDup (Name <$> databases) → dbConfig ∈ databases →
     collected databases ∅ !! Name dbConfig
     = Some {| Increment := make; Row := make |}).
Proof.
  intros Ho Hfail.
  assert (∀ kind,
            value (queryRun kind dbConfig) = (∅, false) ∧
            ∀ query args, DbQuery kind query args ∈ kindEvents kind dbConfig →
              ∃ err, db_Query (resolveType dbConfig) (dsnOf dbConfig) kind query args
                     = Err err
                     ∧ Log queryFailed [AStr (Name dbConfig); AErr err]
                       ∈ kindEvents kind dbConfig) as Hkind.
  { intros kind.
    pose proof (builtQuery_events_log kind dbConfig) as Hblog.
    unfold kindEvents, queryRun in *.
    set (q := (value (builtQuery kind dbConfig)).1) in *.
    set (a := (value (builtQuery kind dbConfig)).2) in *.
    destruct (decide (q = EmptyString ∨ a = [])) as [Hskip | Hrun].
    - rewrite (runQuery_skipped kind _ _ _ q a ∅ Hskip). split; [done |].
      intros query args Hin. simpl in Hin. rewrite app_nil_r in Hin.
      rewrite Forall_forall in Hblog. by apply Hblog in Hin.
    - assert (q ≠ EmptyString ∧ a ≠ []) as [Hq Ha] by tauto.
      destruct (Hfail kind q a) as [err Herr].
      { apply (kindEvents_subset dbConfig kind _ Ho). unfold kindEvents, queryRun.
        fold q a.
        destruct (runQuery_issued kind (resolveType dbConfig) (dsnOf dbConfig)
                    (Name dbConfig) q a ∅ Hq Ha) as [evs ->].
        rewrite !elem_of_app, elem_of_cons. auto. }
      rewrite (runQuery_failed kind _ _ _ q a ∅ err Hq Ha Herr). split; [done |].
      intros query args Hin. simpl in Hin.
      rewrite elem_of_app, !elem_of_cons in Hin.
      destruct Hin as [Hin | [Hin | [Hin | Hin]]].
      + rewrite Forall_forall in Hblog. by apply Hblog in Hin.
      + injection Hin as <- <-. exists err. split; [done |].
        simpl. rewrite elem_of_app, !elem_of_cons. auto.
      + done.
      + simpl in Hin. by apply elem_of_nil in Hin. }
  assert (value (getCountCollection dbConfig)
          = ({| Increment := make; Row := make |}, None)) as Hvalue.
  { rewrite (getCountCollection_opened dbConfig Ho). unfold value at 1. simpl.
    by rewrite (proj1 (Hkind KIncrement)), (proj1 (Hkind KRow)). }
  split; [done |]. split.
  2: { intros databases Hnd Hin. rewrite (collected_lookup _ _ _ Hnd Hin).
       by rewrite Hvalue. }
  - intros kind query args Hin.
    assert (DbQuery kind query args ∈ kindEvents kind dbConfig) as Hk.
    { apply getCountCollection_event in Hin as [Hin | [Hin | [Hin | Hin]]];
        try done.
      - destruct kind; [done |].
        pose proof (kindEvents_no_other_query KIncrement dbConfig) as Hn.
        rewrite Forall_forall in Hn. by apply Hn in Hin.
      - destruct kind; [| done].
        pose proof (kindEvents_no_other_query KRow dbConfig) as Hn.
        rewrite Forall_forall in Hn. by apply Hn in Hin. }
    destruct (proj2 (Hkind kind) query args Hk) as (err & Herr & Hlog).
    exists err. split; [done |]. by apply (kindEvents_subset dbConfig kind _ Ho).
Qed.

End CollectorClaims.

(** The PostgreSQL target of the examples: the two queries, and no
    warning. *)
Lemma postgres_queries_share_template_without_warning_witness :
  Type_ Sample.eventsConfig = "postgres" ∧
  IncrementTables (Tables Sample.eventsConfig) ≠ [] ∧
  RowTables (Tables Sample.eventsConfig) ≠ [] ∧
  value (@builtQuery Sample.unreachableSql KIncrement Sample.eventsConfig)
    = ("SELECT relname,n_live_tup FROM pg_stat_user_tables WHERE relname IN ($1) AND schemaname = $2",
       ["events"; "public"]) ∧
  value (@builtQuery Sample.unreachableSql KRow Sample.eventsConfig)
    = ("SELECT relname,n_live_tup FROM pg_stat_user_tables WHERE relname IN ($1, $2) AND schemaname = $3",
       ["events"; "users"; "public"]) ∧
  Forall (λ e, isWarning e = false)
    (events (@getCountCollection Sample.unreachableSql Sample.eventsConfig)).
Proof.
  assert (Type_ Sample.eventsConfig = "postgres") as Hty by reflexivity.
  assert (IncrementTables (Tables Sample.eventsConfig) ≠ []) as Hi by discriminate.
  assert (RowTables (Tables Sample.eventsConfig) ≠ []) as Hr by discriminate.
  destruct (@postgres_queries_share_template_without_warning
              Sample.unreachableSql Sample.eventsConfig Hty Hi Hr)
    as (Hq & _ & Hw).
  split; [exact Hty | split; [exact Hi | split; [exact Hr |]]].
  split; [| split; [| exact Hw]].
  - rewrite (Hq KIncrement). reflexivity.
  - rewrite (Hq KRow). reflexivity.
Defined.

(** The MySQL target of the examples has no row tables: no row query. *)
Lemma empty_table_set_suppresses_query_witness :
  tablesOf KRow Sample.shopDatabase = [] ∧
  Forall (λ e, isQuery KRow e = false)
    (events (@getCountCollection (Sample.ordersSql 100) Sample.shopDatabase)) ∧
  counts KRow (value (@getCountCollection (Sample.ordersSql 100)
                        Sample.shopDatabase)).1 = Some ∅.
Proof.
  assert (tablesOf KRow Sample.shopDatabase = []) as Ht by reflexivity.
  destruct (@empty_table_set_suppresses_query (Sample.ordersSql 100) KRow
              Sample.shopDatabase Ht) as (_ & Hq & _ & Hc).
  split; [exact Ht | split; [exact Hq | exact Hc]].
Defined.

(** The server of the examples that cannot be reached. *)
Lemma failed_queries_give_empty_snapshot_witness :
  @sql_Open Sample.unreachableSql (resolveType Sample.eventsConfig)
    (dsnOf Sample.eventsConfig) = None ∧
  value (@getCountCollection Sample.unreachableSql Sample.eventsConfig)
    = ({| Increment := make; Row := make |}, None).
Proof.
  assert (@sql_Open Sample.unreachableSql (resolveType Sample.eventsConfig)
            (dsnOf Sample.eventsConfig) = None) as Ho by reflexivity.
  split; [exact Ho |].
  refine (proj1 (@failed_queries_give_empty_snapshot Sample.unreachableSql
                   Sample.eventsConfig Ho _)).
  intros kind query args _. exists "dial tcp: connection refused". reflexivity.
Defined.

(** ** The process *)

Lemma record_nil w : record [] w = w.
Proof. destruct w. unfold record. simpl. by rewrite app_nil_r. Qed.

Lemma record_app evs1 evs2 w : record evs2 (record evs1 w) = record (evs1 ++ evs2) w.
Proof. unfold record. simpl. by rewrite app_assoc. Qed.

Lemma Proc_bind_run {A B} (m : Proc A) (k : A → Proc B) w :
  (m ≫= k) w = match m w with
               | (w', Return a) => k a w'
               | (w', Stop status) => (w', Stop status)
               end.
Proof. done. Qed.

Section StoreFacts.

Context `{Yaml} `{Os}.

Lemma loadApplicationConfig_read fileName w source :
  files w !! fileName = Some source →
  loadApplicationConfig fileName w
  = (record [ReadFile fileName] w, Return (yaml_UnmarshalConfig source)).
Proof.
  intros Hf. unfold loadApplicationConfig.
  rewrite Proc_bind_run. unfold ioutilReadFile. by rewrite Hf.
Qed.

Lemma loadCountCollections_read fileName w source :
  files w !! fileName = Some source →
  loadCountCollections fileName w
  = (record [ReadFile fileName] w, Return (yaml_Unmarshal source)).
Proof.
  intros Hf. unfold loadCountCollections.
  rewrite Proc_bind_run. unfold ioutilReadFile. by rewrite Hf.
Qed.

(** The three ways [writeCountCollections] ends. *)
Lemma writeCountCollections_marshal_failed fileName collections w err :
  yaml_Marshal collections = Err err →
  writeCountCollections fileName collections w = (w, Return (Some err)).
Proof. intros Hm. unfold writeCountCollections. by rewrite Hm. Qed.

Lemma writeCountCollections_create_failed fileName collections w text err :
  yaml_Marshal collections = Ok text → os_Create fileName = Some err →
  writeCountCollections fileName collections w
  = (record [Create fileName] w, Return (Some err)).
Proof. intros Hm Hc. unfold writeCountCollections. by rewrite Hm, Hc. Qed.

Lemma writeCountCollections_written fileName collections w text :
  yaml_Marshal collections = Ok text → os_Create fileName = None →
  writeCountCollections fileName collections w
  = ({| files := <[fileName := Fmt.Sprintf text]> (files w);
        trace := trace w ++ [Create fileName; Fprintf fileName (Fmt.Sprintf text)] |},
     Return None).
Proof. intros Hm Hc. unfold writeCountCollections. by rewrite Hm, Hc. Qed.

Lemma writeCountCollections_cases fileName collections w :
  (∃ err, yaml_Marshal collections = Err err
          ∧ writeCountCollections fileName collections w = (w, Return (Some err)))
  ∨ (∃ text err, yaml_Marshal collections = Ok text
                 ∧ os_Create fileName = Some err
                 ∧ writeCountCollections fileName collections w
                   = (record [Create fileName] w, Return (Some err)))
  ∨ (∃ text, yaml_Marshal collections = Ok text
             ∧ os_Create fileName = None
             ∧ writeCountCollections fileName collections w
               = ({| files := <[fileName := Fmt.Sprintf text]> (files w);
                     trace := trace w
                              ++ [Create fileName; Fprintf fileName (Fmt.Sprintf text)] |},
                  Return None)).
Proof.
  destruct (yaml_Marshal collections) as [text | err] eqn:Hm.
  - destruct (os_Create fileName) as [err|] eqn:Hc.
    + right; left. exists text, err.
      eauto using writeCountCollections_create_failed.
    + right; right. exists text. eauto using writeCountCollections_written.
  - left. exists err. eauto using writeCountCollections_marshal_failed.
Qed.

End StoreFacts.

Section MainFacts.

Context `{Sql} `{Yaml} `{Aws} `{Os}.

Lemma collectDatabases_collected databases cur w :
  Forall (λ d, (value (getCountCollection d)).2 = None) databases →
  collectDatabases databases cur w
  = (record (collectedEvents databases) w, Return (collected databases cur)).
Proof.
  revert cur w. induction databases as [|d databases IH]; intros cur w Hok.
  - simpl. by rewrite record_nil.
  - apply Forall_cons in Hok as [Hd Hok]. simpl.
    rewrite Proc_bind_run. unfold lift.
    destruct (value (getCountCollection d)) as [c err] eqn:Hv. simpl in Hd. subst err.
    rewrite IH by done. by rewrite record_app.
Qed.

Lemma differenceDatabases_run entries last diffs w :
  differenceDatabases entries last diffs w
  = (record (differenceEvents entries last) w,
     Return (differencesOf entries last diffs)).
Proof.
  revert diffs w. induction entries as [|[name cur] entries IH]; intros diffs w; simpl.
  - by rewrite record_nil.
  - destruct (mget last name) as [l|]; [| apply IH].
    rewrite Proc_bind_run. unfold lift. simpl.
    rewrite IH. by rewrite record_app.
Qed.

End MainFacts.

Section Runs.

Context `{Sql} `{Yaml} `{Os}.

Context (configPath : string) (fs : gmap string string)
        (configSource : string) (config : applicationConfig).

Hypothesis config_present : fs !! configPath = Some configSource.
Hypothesis config_decodes : yaml_UnmarshalConfig configSource = Ok config.
Hypothesis collectors_succeed :
  Forall (λ d, (value (getCountCollection d)).2 = None) (Databases config).

(** Up to the test of line 95. *)
Lemma run_to_stat (A : Aws) :
  run configPath fs
  = (_ ← (if bool_decide (fs !! CountPath config = None) then
            err ← writeCountCollections (CountPath config)
                    (Some (collected (Databases config) ∅));
            match err with
            | Some err => logPanicf writeFailed [AErr err]
            | None => mret tt
            end
          else
            lastCountCollections ← loadCountCollections (CountPath config);
            match lastCountCollections with
            | Err err => logPanicf "FATAL: Failed to load counts YAML: %s" [AErr err]
            | Ok lastCountCollections =>
                diffCountCollections ←
                  differenceDatabases (map_to_list (collected (Databases config) ∅))
                    lastCountCollections ∅;
                err ← lift (putAWSCountCollectionMetrics
                              (Some diffCountCollections) (AwsConfig config));
                _ ← match err with
                    | Some err => lift (logPrintf pushFailed [AErr err])
                    | None => mret tt
                    end;
                err ← writeCountCollections (CountPath config)
                        (Some (collected (Databases config) ∅));
                match err with
                | Some err => logPanicf saveFailed [AErr err]
                | None => mret tt
                end
            end);
     osExit 0) (afterStat configPath fs config).
Proof.
  unfold run, main. rewrite Proc_bind_run. cbn [flagParse commandLine flag_Parse].
  rewrite Proc_bind_run, (loadApplicationConfig_read _ _ configSource) by done.
  rewrite config_decodes.
  rewrite Proc_bind_run, collectDatabases_collected by done.
  rewrite Proc_bind_run. unfold osStatIsNotExist at 1. cbn [files record].
  rewrite !record_app. unfold record. cbn [files trace app].
  unfold afterStat.
  destruct (fs !! CountPath config) as [c|] eqn:Hc.
  - rewrite bool_decide_eq_false_2 by done. reflexivity.
  - rewrite bool_decide_eq_true_2 by done. reflexivity.
Qed.

(** The first run: after the test, only [writeCountCollections]. *)
Lemma run_first (A : Aws) :
  fs !! CountPath config = None →
  run configPath fs
  = match writeCountCollections (CountPath config)
            (Some (collected (Databases config) ∅))
            (afterStat configPath fs config) with
    | (w, Return (Some err)) =>
        (record [Log writeFailed [AErr err]] w, Stop (Panic writeFailed [AErr err]))
    | (w, Return None) => (w, Stop (Exit 0))
    | (w, Stop status) => (w, Stop status)
    end.
Proof.
  intros Hc. rewrite run_to_stat. rewrite bool_decide_eq_true_2 by done.
  rewrite !Proc_bind_run.
  by destruct (writeCountCollections _ _ _) as [w [[err|]|status]].
Qed.

(** A later run: load, differences, publish, then
    [writeCountCollections]. *)
Lemma run_later (A : Aws) lastSource last :
  fs !! CountPath config = Some lastSource →
  yaml_Unmarshal lastSource = Ok last →
  run configPath fs
  = match writeCountCollections (CountPath config)
            (Some (collected (Databases config) ∅))
            (record (beforeSave config last) (afterStat configPath fs config)) with
    | (w, Return (Some err)) =>
        (record [Log saveFailed [AErr err]] w, Stop (Panic saveFailed [AErr err]))
    | (w, Return None) => (w, Stop (Exit 0))
    | (w, Stop status) => (w, Stop status)
    end.
Proof.
  intros Hc Hl. rewrite run_to_stat. rewrite bool_decide_eq_false_2 by (by rewrite Hc).
  rewrite !Proc_bind_run.
  rewrite (loadCountCollections_read _ _ lastSource) by done. rewrite Hl.
  rewrite !Proc_bind_run, differenceDatabases_run.
  rewrite !Proc_bind_run. unfold lift at 1.
  rewrite !Proc_bind_run. unfold beforeSave, published.
  destruct (value (putAWSCountCollectionMetrics _ _)) as [perr|] eqn:Hp.
  - unfold lift at 1. rewrite !Proc_bind_run, !record_app. simpl.
    by destruct (writeCountCollections _ _ _) as [w [[err|]|status]].
  - unfold mret at 1, Proc_mret, Proc_ret. rewrite !Proc_bind_run, !record_app.
    rewrite app_nil_r. simpl.
    by destruct (writeCountCollections _ _ _) as [w [[err|]|status]].
Qed.

Lemma afterStat_quiet :
  Forall (λ e, isDifference e = false ∧ isPublish e = false)
    (trace (afterStat configPath fs config)).
Proof.
  unfold afterStat. simpl. constructor; [done |].
  apply Forall_app_2; [| by repeat constructor].
  eapply Forall_impl; [apply collectedEvents_collector |].
  apply isCollector_not_difference_or_publish.
Qed.

(** A run that finds no file at the configured path: no event of the run
    is a call of [getCountCollectionDifference] or of the publisher, and
    the run ends with the save.  When the save returns no error the file
    holds what [fmt.Fprintf] printed of the YAML of the current collection
    (that YAML itself when it has no percent sign) and the process exits
    with status 0; when it returns one the process panics. *)
Lemma first_run_ends_with_the_save (A : Aws) :
  fs !! CountPath config = None →
  Forall (λ e, isDifference e = false ∧ isPublish e = false)
    (trace (run configPath fs).1) ∧
  (∀ text,
     yaml_Marshal (Some (collected (Databases config) ∅)) = Ok text →
     os_Create (CountPath config) = None →
     (run configPath fs).2 = Stop (Exit 0) ∧
     files (run configPath fs).1 = <[CountPath config := Fmt.Sprintf text]> fs ∧
     trace (run configPath fs).1
       = trace (afterStat configPath fs config)
         ++ [Create (CountPath config);
             Fprintf (CountPath config) (Fmt.Sprintf text)] ∧
     (hasPercent text = false →
      files (run configPath fs).1 !! CountPath config = Some text)) ∧
  (∀ err,
     yaml_Marshal (Some (collected (Databases config) ∅)) = Err err
     ∨ is_Some (result_value (yaml_Marshal (Some (collected (Databases config) ∅))))
       ∧ os_Create (CountPath config) = Some err →
     (run configPath fs).2 = Stop (Panic writeFailed [AErr err]) ∧
     files (run configPath fs).1 = fs).
Proof.
  intros Hc. rewrite (run_first A Hc).
  pose proof afterStat_quiet as Hq.
  destruct (writeCountCollections_cases (CountPath config)
              (Some (collected (Databases config) ∅))
              (afterStat configPath fs config))
    as [(err & Hm & ->) | [(text & err & Hm & Hcr & ->) | (text & Hm & Hcr & ->)]];
    cbn [fst snd files trace record].
  - split; [| split].
    + apply Forall_app_2; [done | by repeat constructor].
    + intros text' Hm'. congruence.
    + intros err' [Hm' | [[text' Hm'] Hcr']]; [| by rewrite Hm in Hm'].
      rewrite Hm in Hm'. by injection Hm' as <-.
  - split; [| split].
    + rewrite <- app_assoc. apply Forall_app_2; [done | by repeat constructor].
    + intros text' _ Hcr'. congruence.
    + intros err' [Hm' | [_ Hcr']]; [congruence |].
      rewrite Hcr in Hcr'. by injection Hcr' as <-.
  - split; [| split].
    + apply Forall_app_2; [done | by repeat constructor].
    + intros text' Hm' _. rewrite Hm in Hm'. injection Hm' as <-.
      repeat split; try done.
      intros Hp. rewrite lookup_insert_eq. by rewrite Sprintf_plain.
    + intros err' [Hm' | [_ Hcr']]; congruence.
Qed.

(** A run that loaded a prior collection: whatever the publish step
    returns, the save follows it.  When the save returns no error the file
    holds what [fmt.Fprintf] printed of the YAML of the current collection
    and the process exits with status 0; only a save that returns an error
    makes it panic.  An error of the publish step is logged, and neither
    the exit status nor the files depend on the publisher. *)
Lemma later_run_ends_with_the_save (A : Aws) lastSource last :
  fs !! CountPath config = Some lastSource →
  yaml_Unmarshal lastSource = Ok last →
  (∀ text,
     yaml_Marshal (Some (collected (Databases config) ∅)) = Ok text →
     os_Create (CountPath config) = None →
     (run configPath fs).2 = Stop (Exit 0) ∧
     files (run configPath fs).1 = <[CountPath config := Fmt.Sprintf text]> fs ∧
     trace (run configPath fs).1
       = trace (afterStat configPath fs config) ++ @beforeSave _ A config last
         ++ [Create (CountPath config);
             Fprintf (CountPath config) (Fmt.Sprintf text)]) ∧
  (∀ err,
     yaml_Marshal (Some (collected (Databases config) ∅)) = Err err
     ∨ is_Some (result_value (yaml_Marshal (Some (collected (Databases config) ∅))))
       ∧ os_Create (CountPath config) = Some err →
     (run configPath fs).2 = Stop (Panic saveFailed [AErr err]) ∧
     files (run configPath fs).1 = fs) ∧
  (∀ err, value (@published _ A config last) = Some err →
          Log pushFailed [AErr err] ∈ trace (run configPath fs).1) ∧
  (∀ A' : Aws,
     (@run _ _ A' _ configPath fs).2 = (@run _ _ A _ configPath fs).2 ∧
     files (@run _ _ A' _ configPath fs).1 = files (@run _ _ A _ configPath fs).1).
Proof.
  intros Hc Hl.
  assert (∀ A0 : Aws,
            ∃ evs, trace (@run _ _ A0 _ configPath fs).1
                   = trace (afterStat configPath fs config)
                     ++ @beforeSave _ A0 config last ++ evs
            ∧ match yaml_Marshal (Some (collected (Databases config) ∅)),
                    os_Create (CountPath config) with
              | Ok text, None =>
                  (@run _ _ A0 _ configPath fs).2 = Stop (Exit 0)
                  ∧ files (@run _ _ A0 _ configPath fs).1
                    = <[CountPath config := Fmt.Sprintf text]> fs
                  ∧ evs = [Create (CountPath config);
                           Fprintf (CountPath config) (Fmt.Sprintf text)]
              | Ok _, Some err | Err err, _ =>
                  (@run _ _ A0 _ configPath fs).2 = Stop (Panic saveFailed [AErr err])
                  ∧ files (@run _ _ A0 _ configPath fs).1 = fs
              end) as Hrun.
  { intros A0. rewrite (run_later A0 lastSource last Hc Hl).
    destruct (writeCountCollections_cases (CountPath config)
                (Some (collected (Databases config) ∅))
                (record (@beforeSave _ A0 config last)
                   (afterStat configPath fs config)))
      as [(err & Hm & ->) | [(text & err & Hm & Hcr & ->) | (text & Hm & Hcr & ->)]];
      cbn [fst snd files trace record]; rewrite Hm; try rewrite Hcr.
    - eexists. split; [by rewrite <- app_assoc |]. by destruct (os_Create (CountPath config)).
    - eexists. split; [by rewrite <- !app_assoc |]. done.
    - eexists. split; [by rewrite <- app_assoc |]. done. }
  destruct (Hrun A) as (evs & Htrace & Hcase).
  split; [| split; [| split]].
  - intros text Hm Hcr. rewrite Hm, Hcr in Hcase.
    destruct Hcase as (Hs & Hf & ->). rewrite Hs, Hf, Htrace. by repeat split.
  - intros err [Hm | [[text Hm] Hcr]].
    + rewrite Hm in Hcase. by destruct (os_Create (CountPath config)).
    + destruct (yaml_Marshal _); [| done]. by rewrite Hcr in Hcase.
  - intros err Hp. rewrite Htrace. unfold beforeSave. rewrite Hp.
    rewrite !elem_of_app. right. left. right. right. right.
    by apply list_elem_of_singleton.
  - intros A'. destruct (Hrun A') as (evs' & _ & Hcase').
    destruct (yaml_Marshal _) as [text | err];
      [destruct (os_Create (CountPath config)) as [err|] |].
    + destruct Hcase as [-> ->], Hcase' as [-> ->]. done.
    + destruct Hcase as (-> & -> & _), Hcase' as (-> & -> & _). done.
    + destruct (os_Create (CountPath config)); destruct Hcase as [-> ->], Hcase' as [-> ->]; done.
Qed.

(** What [fmt.Fprintf] prints from the YAML of a collection whose database
    is named [a%b]: [%b] is taken for a verb, and no operand is left for
    it. *)
Lemma Sprintf_percent100Yaml : Fmt.Sprintf Cases.percent100Yaml = Cases.mangled100Yaml.
Proof. by vm_compute. Qed.

Lemma Sprintf_percent150Yaml : Fmt.Sprintf Cases.percent150Yaml = Cases.mangled150Yaml.
Proof. by vm_compute. Qed.

(** C5, at a failing input.  A first run (no file at the configured path)
    over one database, named [a%b], whose table [orders] is at 100.  The
    run computes no Delta, publishes nothing, saves and exits with status
    0, and yet what it leaves at the path is not the current collection:
    yaml.v2 writes the identifier as it is, [fmt.Fprintf] takes [%b] for a
    verb without operand, and the file holds [a%!b(MISSING)] in its place.
    The collection that is read back from the file has no database
    [a%b]. *)
Theorem first_run_persists_another_collection_for_percent_name (A : Aws) :
  fs !! CountPath config = None →
  Some (collected (Databases config) ∅) = Cases.percentCollections 100 →
  yaml_Marshal (Cases.percentCollections 100) = Ok Cases.percent100Yaml →
  yaml_Unmarshal Cases.mangled100Yaml = Ok (Cases.mangledCollections 100) →
  os_Create (CountPath config) = None →
  (run configPath fs).2 = Stop (Exit 0) ∧
  Forall (λ e, isDifference e = false ∧ isPublish e = false)
    (trace (run configPath fs).1) ∧
  files (run configPath fs).1 = <[CountPath config := Cases.mangled100Yaml]> fs ∧
  Cases.mangled100Yaml ≠ Cases.percent100Yaml ∧
  (loadCountCollections (CountPath config) (run configPath fs).1).2
    = Return (Ok (Cases.mangledCollections 100)) ∧
  is_Some (mget (Some (collected (Databases config) ∅)) "a%b") ∧
  mget (Cases.mangledCollections 100) "a%b" = None.
Proof.
  intros Hc Hcur Hm Hu Hcr.
  destruct (first_run_ends_with_the_save A Hc) as (Hq & Hok & _).
  destruct (Hok Cases.percent100Yaml) as (Hexit & Hfiles & _);
    [by rewrite Hcur | done |].
  rewrite Sprintf_percent100Yaml in Hfiles.
  split; [done |]. split; [done |]. split; [done |].
  split; [intros Heq; vm_compute in Heq; discriminate Heq |].
  split; [| split; [| by vm_compute]].
  - rewrite (loadCountCollections_read _ _ Cases.mangled100Yaml)
      by (rewrite Hfiles; apply lookup_insert_eq).
    cbn [snd]. by rewrite Hu.
  - rewrite Hcur. exists (Sample.snapshot [("orders", 100)] []). by vm_compute.
Qed.

(** C7, at a failing input.  A run that loaded a prior collection, over one
    database, named [a%b], whose table [orders] is at 150.  Whatever the
    publish step returns (an error of it is logged), the save follows and
    the process exits with status 0.  But what the save leaves in the file
    is not the current collection: the file holds [a%!b(MISSING)] for the
    identifier, and the collection that is read back from it has no
    database [a%b]. *)
Theorem later_run_persists_another_collection_for_percent_name (A : Aws)
    lastSource last :
  fs !! CountPath config = Some lastSource →
  yaml_Unmarshal lastSource = Ok last →
  Some (collected (Databases config) ∅) = Cases.percentCollections 150 →
  yaml_Marshal (Cases.percentCollections 150) = Ok Cases.percent150Yaml →
  yaml_Unmarshal Cases.mangled150Yaml = Ok (Cases.mangledCollections 150) →
  os_Create (CountPath config) = None →
  (run configPath fs).2 = Stop (Exit 0) ∧
  trace (run configPath fs).1
    = trace (afterStat configPath fs config) ++ beforeSave config last
      ++ [Create (CountPath config);
          Fprintf (CountPath config) Cases.mangled150Yaml] ∧
  (∀ err, value (published config last) = Some err →
          Log pushFailed [AErr err] ∈ trace (run configPath fs).1) ∧
  files (run configPath fs).1 = <[CountPath config := Cases.mangled150Yaml]> fs ∧
  Cases.mangled150Yaml ≠ Cases.percent150Yaml ∧
  (loadCountCollections (CountPath config) (run configPath fs).1).2
    = Return (Ok (Cases.mangledCollections 150)) ∧
  is_Some (mget (Some (collected (Databases config) ∅)) "a%b") ∧
  mget (Cases.mangledCollections 150) "a%b" = None.
Proof.
  intros Hc Hl Hcur Hm Hu Hcr.
  destruct (later_run_ends_with_the_save A lastSource last Hc Hl)
    as (Hok & _ & Hlog & _).
  destruct (Hok Cases.percent150Yaml) as (Hexit & Hfiles & Htrace);
    [by rewrite Hcur | done |].
  rewrite Sprintf_percent150Yaml in Hfiles, Htrace.
  split; [done |]. split; [done |]. split; [done |]. split; [done |].
  split; [intros Heq; vm_compute in Heq; discriminate Heq |].
  split; [| split; [| by vm_compute]].
  - rewrite (loadCountCollections_read _ _ Cases.mangled150Yaml)
      by (rewrite Hfiles; apply lookup_insert_eq).
    cbn [snd]. by rewrite Hu.
  - rewrite Hcur. exists (Sample.snapshot [("orders", 150)] []). by vm_compute.
Qed.

End Runs.

(** A first run over the database [a%b]: [orders] is at 100, there is no
    counts file. *)
Lemma first_run_persists_another_collection_for_percent_name_witness :
  let fs : gmap string string := {["config.yml" := "config"]} in
  let r := @run (Sample.ordersSql 100) Cases.percentYaml Sample.okAws
             Sample.okOs "config.yml" fs in
  fs !! "config.yml" = Some "config" ∧
  @yaml_UnmarshalConfig Cases.percentYaml "config" = Ok Cases.percentConfig ∧
  Forall (λ d, (value (@getCountCollection (Sample.ordersSql 100) d)).2 = None)
    (Databases Cases.percentConfig) ∧
  fs !! CountPath Cases.percentConfig = None ∧
  Some (@collected (Sample.ordersSql 100) (Databases Cases.percentConfig) ∅)
    = Cases.percentCollections 100 ∧
  r.2 = Stop (Exit 0) ∧
  files r.1 !! "counts.yml" = Some Cases.mangled100Yaml ∧
  (@loadCountCollections Cases.percentYaml "counts.yml" r.1).2
    = Return (Ok (Cases.mangledCollections 100)) ∧
  mget (Cases.mangledCollections 100) "a%b" = None.
Proof.
  intros fs r.
  assert (fs !! "config.yml" = Some "config") as Hp by (by vm_compute).
  assert (@yaml_UnmarshalConfig Cases.percentYaml "config"
          = Ok Cases.percentConfig) as Hd by reflexivity.
  assert (Forall (λ d, (value (@getCountCollection (Sample.ordersSql 100) d)).2 = None)
            (Databases Cases.percentConfig)) as Hc by (by repeat constructor).
  assert (fs !! CountPath Cases.percentConfig = None) as Hn by (by vm_compute).
  assert (Some (@collected (Sample.ordersSql 100) (Databases Cases.percentConfig) ∅)
          = Cases.percentCollections 100) as Hcur by (by vm_compute).
  destruct (@first_run_persists_another_collection_for_percent_name
              (Sample.ordersSql 100) Cases.percentYaml Sample.okOs "config.yml" fs
              "config" Cases.percentConfig Hp Hd Hc Sample.okAws Hn Hcur)
    as (Hexit & _ & Hfiles & _ & Hload & _ & Hkey);
    [by vm_compute | by vm_compute | reflexivity |].
  repeat (split; [assumption |]).
  split; [| split; [exact Hload | exact Hkey]].
  fold r in Hfiles. rewrite Hfiles. apply lookup_insert_eq.
Defined.

(** The run after it, with a publisher that has no credentials: [orders] is
    at 150, the counts file is the one the first run left. *)
Lemma later_run_persists_another_collection_for_percent_name_witness :
  let fs : gmap string string :=
    {["config.yml" := "config"; "counts.yml" := Cases.mangled100Yaml]} in
  let r := @run (Sample.ordersSql 150) Cases.percentYaml Sample.failingAws
             Sample.okOs "config.yml" fs in
  fs !! "config.yml" = Some "config" ∧
  @yaml_UnmarshalConfig Cases.percentYaml "config" = Ok Cases.percentConfig ∧
  Forall (λ d, (value (@getCountCollection (Sample.ordersSql 150) d)).2 = None)
    (Databases Cases.percentConfig) ∧
  fs !! CountPath Cases.percentConfig = Some Cases.mangled100Yaml ∧
  Some (@collected (Sample.ordersSql 150) (Databases Cases.percentConfig) ∅)
    = Cases.percentCollections 150 ∧
  r.2 = Stop (Exit 0) ∧
  Log pushFailed [AErr "NoCredentialProviders: no valid providers in chain"]
    ∈ trace r.1 ∧
  files r.1 !! "counts.yml" = Some Cases.mangled150Yaml ∧
  (@loadCountCollections Cases.percentYaml "counts.yml" r.1).2
    = Return (Ok (Cases.mangledCollections 150)) ∧
  mget (Cases.mangledCollections 150) "a%b" = None.
Proof.
  intros fs r.
  assert (fs !! "config.yml" = Some "config") as Hp by (by vm_compute).
  assert (@yaml_UnmarshalConfig Cases.percentYaml "config"
          = Ok Cases.percentConfig) as Hd by reflexivity.
  assert (Forall (λ d, (value (@getCountCollection (Sample.ordersSql 150) d)).2 = None)
            (Databases Cases.percentConfig)) as Hc by (by repeat constructor).
  assert (fs !! CountPath Cases.percentConfig = Some Cases.mangled100Yaml) as Hl
    by (by vm_compute).
  assert (Some (@collected (Sample.ordersSql 150) (Databases Cases.percentConfig) ∅)
          = Cases.percentCollections 150) as Hcur by (by vm_compute).
  destruct (@later_run_persists_another_collection_for_percent_name
              (Sample.ordersSql 150) Cases.percentYaml Sample.okOs "config.yml" fs
              "config" Cases.percentConfig Hp Hd Hc Sample.failingAws
              Cases.mangled100Yaml (Cases.mangledCollections 100) Hl)
    as (Hexit & _ & Hlog & Hfiles & _ & Hload & _ & Hkey);
    [by vm_compute | exact Hcur | by vm_compute | by vm_compute | reflexivity |].
  repeat (split; [assumption |]).
  split; [apply Hlog; by vm_compute |].
  split; [| split; [exact Hload | exact Hkey]].
  fold r in Hfiles. rewrite Hfiles. apply lookup_insert_eq.
Defined.

(** ** Save, then load *)

Section SaveLoad.

Context `{Yaml} `{Os}.

(** What a successful save leaves in the file is the print of the YAML
    text, and a load decodes that print. *)
Lemma save_then_load fileName collections w text :
  yaml_Marshal collections = Ok text → os_Create fileName = None →
  (writeCountCollections fileName collections w).2 = Return None ∧
  files (writeCountCollections fileName collections w).1 !! fileName
    = Some (Fmt.Sprintf text) ∧
  (loadCountCollections fileName (writeCountCollections fileName collections w).1).2
    = Return (yaml_Unmarshal (Fmt.Sprintf text)).
Proof.
  intros Hm Hc. rewrite (writeCountCollections_written _ _ _ text Hm Hc).
  cbn [fst snd files].
  assert (<[fileName := Fmt.Sprintf text]> (files w) !! fileName
          = Some (Fmt.Sprintf text)) as Hf by apply lookup_insert_eq.
  split; [done |]. split; [done |].
  by rewrite (loadCountCollections_read _ _ (Fmt.Sprintf text)).
Qed.

(** Away from percent signs the round trip is that of the YAML library. *)
Lemma save_then_load_plain fileName collections w text :
  yaml_Marshal collections = Ok text → os_Create fileName = None →
  hasPercent text = false →
  yaml_Unmarshal text = Ok collections →
  (loadCountCollections fileName (writeCountCollections fileName collections w).1).2
    = Return (Ok collections).
Proof.
  intros Hm Hc Hp Hu.
  destruct (save_then_load fileName collections w text Hm Hc) as (_ & _ & ->).
  by rewrite Sprintf_plain, Hu.
Qed.

(** C6, at a failing input.  A collection whose database identifier is
    [a%b]: yaml.v2 writes the identifier as it is, [fmt.Fprintf] takes [%b]
    for a verb without operand, and the file holds [a%!b(MISSING)]; the
    load returns a collection with that key, and without the key [a%b]. *)
Theorem save_then_load_loses_percent_key fileName w :
  os_Create fileName = None →
  yaml_Marshal Sample.percentCollections = Ok Sample.percentYaml →
  yaml_Unmarshal Sample.mangledYaml = Ok Sample.mangledCollections →
  (writeCountCollections fileName Sample.percentCollections w).2 = Return None ∧
  files (writeCountCollections fileName Sample.percentCollections w).1 !! fileName
    = Some Sample.mangledYaml ∧
  (loadCountCollections fileName
     (writeCountCollections fileName Sample.percentCollections w).1).2
    = Return (Ok Sample.mangledCollections) ∧
  Sample.mangledCollections ≠ Sample.percentCollections ∧
  is_Some (mget Sample.percentCollections "a%b") ∧
  mget Sample.mangledCollections "a%b" = None.
Proof.
  intros Hc Hm Hu.
  destruct (save_then_load fileName Sample.percentCollections w
              Sample.percentYaml Hm Hc) as (Hs & Hf & Hl).
  assert (Fmt.Sprintf Sample.percentYaml = Sample.mangledYaml) as Hp
    by (by vm_compute).
  rewrite Hp in Hf, Hl. rewrite Hu in Hl.
  assert (Sample.mangledCollections ≠ Sample.percentCollections) as Hne.
  { intros Heq. apply (f_equal (λ m, mget m "a%b")) in Heq.
    vm_compute in Heq. discriminate. }
  assert (is_Some (mget Sample.percentCollections "a%b")) as Hk.
  { exists (Sample.snapshot [] []). by vm_compute. }
  assert (mget Sample.mangledCollections "a%b" = None) as Hn by (by vm_compute).
  by repeat split.
Qed.

End SaveLoad.

Lemma save_then_load_loses_percent_key_witness :
  let w := {| files := ∅; trace := [] |} in
  @os_Create Sample.okOs "counts.yml" = None ∧
  @yaml_Marshal Sample.exampleYaml Sample.percentCollections
    = Ok Sample.percentYaml ∧
  @yaml_Unmarshal Sample.exampleYaml Sample.mangledYaml
    = Ok Sample.mangledCollections ∧
  (@loadCountCollections Sample.exampleYaml "counts.yml"
     (@writeCountCollections Sample.exampleYaml Sample.okOs "counts.yml"
        Sample.percentCollections w).1).2
    = Return (Ok Sample.mangledCollections) ∧
  Sample.mangledCollections ≠ Sample.percentCollections.
Proof.
  intros w.
  assert (@os_Create Sample.okOs "counts.yml" = None) as Hc by reflexivity.
  assert (@yaml_Marshal Sample.exampleYaml Sample.percentCollections
          = Ok Sample.percentYaml) as Hm by (by vm_compute).
  assert (@yaml_Unmarshal Sample.exampleYaml Sample.mangledYaml
          = Ok Sample.mangledCollections) as Hu by (by vm_compute).
  destruct (@save_then_load_loses_percent_key Sample.exampleYaml Sample.okOs
              "counts.yml" w Hc Hm Hu) as (_ & _ & Hl & Hne & _).
  repeat (split; [assumption |]). exact Hne.
Defined.

(** ** The scenario of the two runs *)

(** Run 2 of the scenario: [orders] went from 100 to 150, the Delta 50 is
    published for the database [shop], and the file then holds 150. *)
Example scenario_second_run :
  let fs : gmap string string :=
    {["config.yml" := "config"; "counts.yml" := Sample.orders100Yaml]} in
  let r := @run (Sample.ordersSql 150) Sample.exampleYaml Sample.okAws
             Sample.okOs "config.yml" fs in
  PutMetricData {| MetricName := "orders"; Value := 50;
                   DimensionValue := "shop"; Namespace := "RowMetrics" |}
    ∈ trace r.1 ∧
  files r.1 !! "counts.yml" = Some Sample.orders150Yaml ∧
  r.2 = Stop (Exit 0).
Proof.
  split; [| by vm_compute].
  apply list_elem_of_In. vm_compute. tauto.
Qed.

(** * Part III: further properties of the code *)

(** ** Delta engine: algebra of the differences *)

Lemma sub_diag v : GoInt.sub v v = 0.
Proof. unfold GoInt.sub. by rewrite Z.sub_diag. Qed.

(** Wrapping the sum of two wrapped numbers is wrapping their sum. *)
Lemma wrap_add_wrap x y :
  GoInt.wrap (GoInt.wrap x + GoInt.wrap y) = GoInt.wrap (x + y).
Proof.
  unfold GoInt.wrap. f_equal.
  rewrite (Z.mod_eq (x + 2 ^ 63) (2 ^ 64)), (Z.mod_eq (y + 2 ^ 63) (2 ^ 64)) by lia.
  replace (x + 2 ^ 63 - 2 ^ 64 * ((x + 2 ^ 63) `div` 2 ^ 64) - 2 ^ 63
           + (y + 2 ^ 63 - 2 ^ 64 * ((y + 2 ^ 63) `div` 2 ^ 64) - 2 ^ 63) + 2 ^ 63)
    with (x + y + 2 ^ 63
          + (- ((x + 2 ^ 63) `div` 2 ^ 64) - (y + 2 ^ 63) `div` 2 ^ 64) * 2 ^ 64)
    by lia.
  by rewrite Z.mod_add by lia.
Qed.

(** X1. A snapshot compared with itself: every table of it gets the Delta 0,
    and the Delta has no other table. *)
Theorem delta_of_unchanged_snapshot_is_zero (kind : counterKind)
    (snapshot : countCollection) (table : string) :
  mget (counts kind (getCountCollectionDifference snapshot snapshot)) table
  = (λ _, 0) <$> mget (counts kind snapshot) table.
Proof.
  rewrite difference_lookup.
  destruct (mget (counts kind snapshot) table) as [v|] eqn:Hv; [| done].
  simpl. unfold deltaOf. rewrite Hv. by rewrite sub_diag.
Qed.

(** X2. Deltas of consecutive runs add up: for a table of three snapshots, the
    Delta from the first to the third is the sum, in Go's integer
    arithmetic, of the Deltas of the two steps; the plain sum when the
    three differences fit an [int]. *)
Theorem deltas_of_consecutive_runs_add_up (kind : counterKind)
    (first second third : countCollection) (table : string) (v1 v2 v3 : Z) :
  mget (counts kind first) table = Some v1 →
  mget (counts kind second) table = Some v2 →
  mget (counts kind third) table = Some v3 →
  ∃ d1 d2,
    mget (counts kind (getCountCollectionDifference second first)) table = Some d1 ∧
    mget (counts kind (getCountCollectionDifference third second)) table = Some d2 ∧
    mget (counts kind (getCountCollectionDifference third first)) table
      = Some (GoInt.wrap (d1 + d2)) ∧
    (GoInt.in_range (v2 - v1) → GoInt.in_range (v3 - v2) →
     GoInt.in_range (v3 - v1) →
     mget (counts kind (getCountCollectionDifference third first)) table
       = Some (d1 + d2)).
Proof.
  intros H1 H2 H3. exists (GoInt.sub v2 v1), (GoInt.sub v3 v2).
  rewrite !difference_lookup, H2, H3. simpl. unfold deltaOf. rewrite H1, H2.
  split; [done |]. split; [done |]. split.
  - f_equal. unfold GoInt.sub. rewrite wrap_add_wrap. f_equal. lia.
  - intros R1 R2 R3. f_equal. rewrite !sub_exact by done. lia.
Qed.

Lemma deltas_of_consecutive_runs_add_up_witness :
  let first := Sample.snapshot [("orders", 100)] [] in
  let second := Sample.snapshot [("orders", 150)] [] in
  let third := Sample.snapshot [("orders", 180)] [] in
  mget (counts KIncrement first) "orders" = Some 100 ∧
  mget (counts KIncrement second) "orders" = Some 150 ∧
  mget (counts KIncrement third) "orders" = Some 180 ∧
  ∃ d1 d2,
    mget (counts KIncrement (getCountCollectionDifference second first)) "orders"
      = Some d1 ∧
    mget (counts KIncrement (getCountCollectionDifference third second)) "orders"
      = Some d2 ∧
    mget (counts KIncrement (getCountCollectionDifference third first)) "orders"
      = Some (GoInt.wrap (d1 + d2)).
Proof.
  intros first second third.
  assert (mget (counts KIncrement first) "orders" = Some 100) as H1 by reflexivity.
  assert (mget (counts KIncrement second) "orders" = Some 150) as H2 by reflexivity.
  assert (mget (counts KIncrement third) "orders" = Some 180) as H3 by reflexivity.
  split; [exact H1 | split; [exact H2 | split; [exact H3 |]]].
  destruct (deltas_of_consecutive_runs_add_up KIncrement first second third
              "orders" 100 150 180 H1 H2 H3) as (d1 & d2 & Hd1 & Hd2 & Hd3 & _).
  exists d1, d2. split; [exact Hd1 | split; [exact Hd2 | exact Hd3]].
Defined.

(** X3. The order in which Go ranges over the map of the current snapshot does
    not matter: the loop gives the mapping of the Delta for every order of
    the entries. *)
Theorem delta_is_independent_of_range_order (kind : counterKind)
    (current previous : countCollection) (entries : list (string * Z)) :
  entries ≡ₚ mrange (counts kind current) →
  Some (differenceLoop entries (counts kind previous) ∅)
  = counts kind (getCountCollectionDifference current previous).
Proof.
  intros Hp.
  assert (NoDup entries.*1) as Hnd.
  { rewrite Hp. apply NoDup_fst_mrange. }
  rewrite (differenceLoop_order (counts kind previous) entries
             (mrange (counts kind current)) ∅ Hnd Hp).
  by destruct kind.
Qed.

Lemma delta_is_independent_of_range_order_witness :
  let current := Sample.snapshot [("orders", 150); ("refunds", 4)] [] in
  let previous := Sample.snapshot [("orders", 100)] [] in
  let entries := reverse (mrange (counts KIncrement current)) in
  entries ≡ₚ mrange (counts KIncrement current) ∧
  Some (differenceLoop entries (counts KIncrement previous) ∅)
  = counts KIncrement (getCountCollectionDifference current previous).
Proof.
  intros current previous entries.
  assert (entries ≡ₚ mrange (counts KIncrement current)) as Hp
    by apply reverse_Permutation.
  split; [exact Hp |].
  exact (delta_is_independent_of_range_order KIncrement current previous entries Hp).
Defined.

(** ** Collector: rows, failures, release *)

Section CollectorRows.

Context `{Sql}.

Lemma scanRows_value dbName rows counts :
  value (scanRows dbName rows counts) = storedRows rows counts.
Proof.
  unfold storedRows. revert counts.
  induction rows as [|r rows IH]; intros counts; [done |].
  simpl. rewrite value_bind.
  destruct (scanErr r) as [e|] eqn:He.
  - rewrite filter_cons_False by (by rewrite He).
    rewrite !value_bind. apply IH.
  - rewrite filter_cons_True by done. rewrite !value_bind. simpl. apply IH.
Qed.

Lemma scanRows_logs dbName rows counts r :
  r ∈ rows →
  match scanErr r with
  | Some e => Log scanFailed [AStr dbName; AStr (scanName r); AErr e]
  | None => Log scanObtained [AStr dbName; AStr (scanName r); AInt (scanCount r)]
  end ∈ events (scanRows dbName rows counts).
Proof.
  revert counts. induction rows as [|r' rows IH]; intros counts Hin.
  - by apply elem_of_nil in Hin.
  - simpl. rewrite events_bind, elem_of_app.
    apply elem_of_cons in Hin as [<- | Hin].
    + left. destruct (scanErr r); rewrite ?events_bind; simpl; by left.
    + right. rewrite events_bind, elem_of_app. right. by apply IH.
Qed.

(** X4. A row whose scan fails is skipped, not fatal: the loop over a result
    set stores exactly the rows that scanned, in order (the later of two
    rows of one table wins), logs an ERROR line for each row that failed
    and an INFO line for each row it stored. *)
Theorem scan_failures_are_skipped_and_logged (dbName : string)
    (rows : list sqlRow) (counts : gmap string Z) :
  value (scanRows dbName rows counts) = storedRows rows counts ∧
  (∀ r e, r ∈ rows → scanErr r = Some e →
          Log scanFailed [AStr dbName; AStr (scanName r); AErr e]
            ∈ events (scanRows dbName rows counts)) ∧
  (∀ r, r ∈ rows → scanErr r = None →
        Log scanObtained [AStr dbName; AStr (scanName r); AInt (scanCount r)]
          ∈ events (scanRows dbName rows counts)).
Proof.
  split; [apply scanRows_value |]. split.
  - intros r e Hin He. pose proof (scanRows_logs dbName rows counts r Hin) as Hl.
    by rewrite He in Hl.
  - intros r Hin He. pose proof (scanRows_logs dbName rows counts r Hin) as Hl.
    by rewrite He in Hl.
Qed.

Lemma storedRows_notin rows counts table :
  table ∉ scanName <$> filter (λ r, scanErr r = None) rows →
  storedRows rows counts !! table = counts !! table.
Proof.
  unfold storedRows. generalize (filter (λ r, scanErr r = None) rows) as good.
  intros good. revert counts.
  induction good as [|r good IH]; intros counts Hn; simpl in *; [done |].
  apply not_elem_of_cons in Hn as [Hne Hn].
  rewrite IH by done. by rewrite lookup_insert_ne.
Qed.

Lemma storedRows_in rows counts table :
  table ∈ scanName <$> filter (λ r, scanErr r = None) rows →
  is_Some (storedRows rows counts !! table).
Proof.
  unfold storedRows. generalize (filter (λ r, scanErr r = None) rows) as good.
  intros good. revert counts.
  induction good as [|r good IH]; intros counts Hin; simpl in *.
  - by apply elem_of_nil in Hin.
  - destruct (decide (table ∈ scanName <$> good)) as [Hg | Hg]; [by apply IH |].
    apply elem_of_cons in Hin as [-> | Hin]; [| done].
    pose proof (storedRows_notin_aux := IH).
    assert (foldl (λ m r0, <[scanName r0 := scanCount r0]> m)
              (<[scanName r := scanCount r]> counts) good !! scanName r
            = <[scanName r := scanCount r]> counts !! scanName r) as ->.
    { clear IH storedRows_notin_aux. revert Hg.
      generalize (<[scanName r := scanCount r]> counts) as m.
      induction good as [|r' good IH']; intros m Hg; simpl in *; [done |].
      apply not_elem_of_cons in Hg as [Hne Hg].
      rewrite IH' by done. by rewrite lookup_insert_ne. }
    rewrite lookup_insert_eq. eauto.
Qed.

Lemma runQuery_rows kind dbType dsn dbName query args counts rows :
  query ≠ EmptyString → args ≠ [] →
  db_Query dbType dsn kind query args = Ok rows →
  runQuery kind dbType dsn dbName query args counts
  = (DbQuery kind query args :: events (scanRows dbName rows counts),
     (storedRows rows counts, true)).
Proof.
  intros Hq Ha Hr. unfold runQuery.
  apply String.eqb_neq in Hq. rewrite Hq.
  destruct args; [done |]. cbn [length Nat.ltb Nat.leb negb andb].
  rewrite Hr.
  unfold mbind, Eff_mbind, Eff_bind, emit.
  pose proof (scanRows_value dbName rows counts) as Hv. unfold value in Hv.
  destruct (scanRows dbName rows counts) as [evs c]. simpl in *. subst c.
  by rewrite app_nil_r.
Qed.

(** X5. The snapshot holds what the database returned: when the query of a
    counter kind was built and ran, the mapping of that kind is made of the
    rows of its result that scanned; a configured table for which no row
    came back is absent from the mapping, it is not an error and not a
    zero. *)
Theorem snapshot_holds_the_rows_of_the_result (kind : counterKind)
    (dbConfig : databaseConfig) (rows : list sqlRow) :
  sql_Open (resolveType dbConfig) (dsnOf dbConfig) = None →
  (value (builtQuery kind dbConfig)).1 ≠ EmptyString →
  (value (builtQuery kind dbConfig)).2 ≠ [] →
  db_Query (resolveType dbConfig) (dsnOf dbConfig) kind
    (value (builtQuery kind dbConfig)).1 (value (builtQuery kind dbConfig)).2
    = Ok rows →
  counts kind (value (getCountCollection dbConfig)).1 = Some (storedRows rows ∅) ∧
  (value (getCountCollection dbConfig)).2 = None ∧
  (∀ table,
     is_Some (mget (counts kind (value (getCountCollection dbConfig)).1) table)
     ↔ table ∈ scanName <$> filter (λ r, scanErr r = None) rows).
Proof.
  intros Ho Hq Ha Hr.
  assert (counts kind (value (getCountCollection dbConfig)).1
          = Some (storedRows rows ∅)) as Hc.
  { rewrite (getCountCollection_opened dbConfig Ho). unfold value at 1. simpl.
    assert (value (queryRun kind dbConfig) = (storedRows rows ∅, true)) as Hv.
    { unfold queryRun. by rewrite (runQuery_rows _ _ _ _ _ _ _ rows Hq Ha Hr). }
    destruct kind; simpl; by rewrite Hv. }
  split; [done |]. split.
  - by rewrite (getCountCollection_opened dbConfig Ho).
  - intros table. rewrite Hc. simpl. split.
    + intros Hs.
      destruct (decide (table ∈ scanName <$> filter (λ r, scanErr r = None) rows))
        as [Hin | Hn]; [done |].
      rewrite storedRows_notin in Hs by done. rewrite lookup_empty in Hs.
      by destruct Hs.
    + apply storedRows_in.
Qed.

Lemma runQuery_opened_iff kind dbType dsn dbName query args counts :
  (value (runQuery kind dbType dsn dbName query args counts)).2 = true
  ↔ query ≠ EmptyString ∧ args ≠ []
    ∧ ∃ rows, db_Query dbType dsn kind query args = Ok rows.
Proof.
  destruct (decide (query = EmptyString ∨ args = [])) as [Hs | Hr].
  - rewrite (runQuery_skipped _ _ _ _ _ _ _ Hs). unfold value. simpl.
    split; [done |]. tauto.
  - assert (query ≠ EmptyString ∧ args ≠ []) as [Hq Ha] by tauto.
    destruct (db_Query dbType dsn kind query args) as [rows | e] eqn:Hd.
    + rewrite (runQuery_rows _ _ _ _ _ _ _ rows Hq Ha Hd). unfold value. simpl.
      split; [eauto | done].
    + rewrite (runQuery_failed _ _ _ _ _ _ _ e Hq Ha Hd). unfold value. simpl.
      split; [done |]. by intros (_ & _ & [rows ?]).
Qed.

Lemma isErrorOrInfo_not_close e : isErrorOrInfo e = true → isClose e = false.
Proof. by destruct e. Qed.

Lemma queryRun_not_close kind dbConfig :
  Forall (λ e, isClose e = false) (events (queryRun kind dbConfig)).
Proof.
  unfold queryRun.
  destruct (runQuery_events kind (resolveType dbConfig) (dsnOf dbConfig)
              (Name dbConfig) (value (builtQuery kind dbConfig)).1
              (value (builtQuery kind dbConfig)).2 ∅) as [-> | (evs & -> & Hevs)].
  - constructor.
  - constructor; [done |].
    eapply Forall_impl; [exact Hevs | apply isErrorOrInfo_not_close].
Qed.

Lemma closeRows_event kind kind' opened :
  RowsClose kind ∈ events (closeRows kind' opened) ↔ kind = kind' ∧ opened = true.
Proof.
  destruct opened; simpl.
  - rewrite list_elem_of_singleton. split.
    + intros Heq. by injection Heq as ->.
    + by intros [-> _].
  - split; [by intros ?%elem_of_nil | by intros [_ ?]].
Qed.

(** X6. The collector releases what it acquired.  After [sql.Open] succeeded
    its events are its work, then the close of each result set it opened,
    then the close of the handle as the last event; nothing is closed
    before the work is done, and a result set is closed exactly when its
    query was built and ran without error. *)
Theorem collector_closes_what_it_opened (dbConfig : databaseConfig) :
  sql_Open (resolveType dbConfig) (dsnOf dbConfig) = None →
  ∃ work closes,
    events (getCountCollection dbConfig) = work ++ closes ++ [DbClose] ∧
    Forall (λ e, isClose e = false) work ∧
    Forall (λ e, ∃ kind, e = RowsClose kind) closes ∧
    ∀ kind,
      RowsClose kind ∈ closes
      ↔ (value (builtQuery kind dbConfig)).1 ≠ EmptyString
        ∧ (value (builtQuery kind dbConfig)).2 ≠ []
        ∧ ∃ rows, db_Query (resolveType dbConfig) (dsnOf dbConfig) kind
                    (value (builtQuery kind dbConfig)).1
                    (value (builtQuery kind dbConfig)).2 = Ok rows.
Proof.
  intros Ho.
  exists (SqlOpen (resolveType dbConfig) (dsnOf dbConfig)
            :: events (builtQuery KIncrement dbConfig)
            ++ events (builtQuery KRow dbConfig)
            ++ events (queryRun KIncrement dbConfig)
            ++ events (queryRun KRow dbConfig)),
         (events (closeRows KRow (value (queryRun KRow dbConfig)).2)
            ++ events (closeRows KIncrement (value (queryRun KIncrement dbConfig)).2)).
  split; [| split; [| split]].
  - rewrite (getCountCollection_opened dbConfig Ho). unfold events at 1. simpl.
    by rewrite <- !app_assoc.
  - constructor; [done |]. repeat apply Forall_app_2.
    + eapply Forall_impl; [apply builtQuery_events_log |].
      apply isErrorOrInfo_not_close.
    + eapply Forall_impl; [apply builtQuery_events_log |].
      apply isErrorOrInfo_not_close.
    + apply queryRun_not_close.
    + apply queryRun_not_close.
  - apply Forall_app_2.
    + destruct (value (queryRun KRow dbConfig)).2; repeat constructor. by exists KRow.
    + destruct (value (queryRun KIncrement dbConfig)).2; repeat constructor.
      by exists KIncrement.
  - intros kind.
    pose proof (runQuery_opened_iff kind (resolveType dbConfig) (dsnOf dbConfig)
                  (Name dbConfig) (value (builtQuery kind dbConfig)).1
                  (value (builtQuery kind dbConfig)).2 ∅) as Hiff.
    fold (queryRun kind dbConfig) in Hiff. rewrite <- Hiff.
    rewrite elem_of_app, !closeRows_event.
    destruct kind; split.
    + by intros [[? ?] | [_ ?]].
    + intros ?. by right.
    + by intros [[_ ?] | [? ?]].
    + intros ?. by left.
Qed.

(** X7. A query that cannot be assembled is logged and given up, not returned
    as an error: when [sqlx.In] fails (it then returns no arguments) the
    blocks of the kind produce one ERROR line, no query of the kind is run,
    its mapping stays empty and the collector still returns a nil error. *)
Theorem unassembled_query_is_logged_and_not_run (kind : counterKind)
    (dbConfig : databaseConfig) (query : string) (e : error) :
  sql_Open (resolveType dbConfig) (dsnOf dbConfig) = None →
  tablesOf kind dbConfig ≠ [] →
  sqlx_In (queryTemplate (Type_ dbConfig) kind) (tablesOf kind dbConfig)
    (schemaOf dbConfig) = (query, [], Some e) →
  kindEvents kind dbConfig = [Log (assembleError kind) [AErr e]] ∧
  Forall (λ ev, isQuery kind ev = false) (events (getCountCollection dbConfig)) ∧
  counts kind (value (getCountCollection dbConfig)).1 = Some ∅ ∧
  (value (getCountCollection dbConfig)).2 = None.
Proof.
  intros Ho Ht Hin.
  assert ((value (builtQuery kind dbConfig)).2 = []) as Hargs.
  { unfold builtQuery. rewrite assembleQuery_value by done. by rewrite Hin. }
  assert (events (builtQuery kind dbConfig) = [Log (assembleError kind) [AErr e]])
    as Hb.
  { unfold builtQuery, assembleQuery.
    destruct (tablesOf kind dbConfig) as [|t ts] eqn:Hts; [done |].
    cbn [length Nat.ltb Nat.leb]. rewrite Hin, events_bind.
    by destruct (String.eqb (Type_ dbConfig) "mysql"),
                (String.eqb (Type_ dbConfig) "postgres"). }
  assert (queryRun kind dbConfig = ([], (∅, false))) as Hr.
  { unfold queryRun. apply runQuery_skipped. by right. }
  assert (kindEvents kind dbConfig = [Log (assembleError kind) [AErr e]]) as Hk.
  { unfold kindEvents. by rewrite Hb, Hr. }
  split; [done |]. split; [| split].
  - apply Forall_forall. intros ev Hev.
    apply getCountCollection_event in Hev as [-> | [-> | Hev]];
      [by destruct kind | by destruct kind |].
    assert (ev ∈ kindEvents kind dbConfig
            ∨ ev ∈ kindEvents (otherKind kind) dbConfig) as [Hev' | Hev']
      by (destruct kind; simpl; tauto).
    + rewrite Hk in Hev'. apply list_elem_of_singleton in Hev' as ->.
      by destruct kind.
    + pose proof (kindEvents_no_other_query (otherKind kind) dbConfig) as Hn.
      rewrite Forall_forall in Hn. apply Hn in Hev'. by destruct kind.
  - destruct (getCountCollection_counts kind dbConfig) as [-> | ->]; [done |].
    by rewrite Hr.
  - by rewrite (getCountCollection_opened dbConfig Ho).
Qed.

(** X8. A target without a type is collected as MySQL: the driver, the DSN and
    the default schema are those of MySQL.  Its queries, though, are built
    from the templates of the last branch (plain column names), not from
    the back-quoted MySQL templates, and they are not rebound. *)
Theorem unset_type_is_collected_as_mysql (dbConfig : databaseConfig) :
  Type_ dbConfig = EmptyString →
  resolveType dbConfig = "mysql" ∧
  dsnOf dbConfig
    = User dbConfig +:+ ":" +:+ Password dbConfig +:+ "@tcp(" +:+ Host dbConfig
      +:+ ")/" +:+ Database dbConfig ∧
  (Schema dbConfig = EmptyString → schemaOf dbConfig = Database dbConfig) ∧
  (∃ evs, events (getCountCollection dbConfig)
          = SqlOpen "mysql" (dsnOf dbConfig) :: evs) ∧
  (∀ kind, tablesOf kind dbConfig ≠ [] →
           value (builtQuery kind dbConfig)
           = ((sqlx_In (defaultQuery kind) (tablesOf kind dbConfig)
                 (schemaOf dbConfig)).1.1,
              (sqlx_In (defaultQuery kind) (tablesOf kind dbConfig)
                 (schemaOf dbConfig)).1.2)
           ∧ defaultQuery kind ≠ queryTemplate "mysql" kind).
Proof.
  intros Hty.
  assert (resolveType dbConfig = "mysql") as Hrt.
  { unfold resolveType. by rewrite Hty. }
  split; [done |]. split; [| split; [| split]].
  - unfold dsnOf. rewrite Hrt. reflexivity.
  - intros Hs. unfold schemaOf, resolveSchema. rewrite Hrt, Hs. reflexivity.
  - destruct (sql_Open (resolveType dbConfig) (dsnOf dbConfig)) as [err|] eqn:Ho.
    + rewrite (getCountCollection_not_opened dbConfig err Ho), Hrt. eauto.
    + rewrite (getCountCollection_opened dbConfig Ho), Hrt.
      unfold events at 1. simpl. eauto.
  - intros kind Ht. split; [| by destruct kind].
    unfold builtQuery. rewrite assembleQuery_value by done.
    rewrite Hty. by destruct kind.
Qed.

End CollectorRows.

(** [orders] scans, [refunds] does not: the snapshot holds [orders]. *)
Lemma snapshot_holds_the_rows_of_the_result_witness :
  let built := value (@builtQuery Cases.nullSql KIncrement Cases.refundsDatabase) in
  let snapshot := (value (@getCountCollection Cases.nullSql Cases.refundsDatabase)).1 in
  @sql_Open Cases.nullSql (resolveType Cases.refundsDatabase)
    (dsnOf Cases.refundsDatabase) = None ∧
  built.1 ≠ EmptyString ∧ built.2 ≠ [] ∧
  mget (counts KIncrement snapshot) "orders" = Some 150 ∧
  mget (counts KIncrement snapshot) "refunds" = None.
Proof.
  intros built snapshot.
  assert (@sql_Open Cases.nullSql (resolveType Cases.refundsDatabase)
            (dsnOf Cases.refundsDatabase) = None) as Ho by reflexivity.
  assert (built.1 ≠ EmptyString) as Hq by (by vm_compute).
  assert (built.2 ≠ []) as Ha by (by vm_compute).
  destruct (@snapshot_holds_the_rows_of_the_result Cases.nullSql KIncrement
              Cases.refundsDatabase
              [Sample.okRow "orders" 150;
               Cases.failedRow "refunds" "converting NULL to int is unsupported"]
              Ho Hq Ha eq_refl) as (Hc & _ & _).
  split; [exact Ho | split; [exact Hq | split; [exact Ha |]]].
  subst snapshot. rewrite Hc. split; by vm_compute.
Defined.

Lemma collector_closes_what_it_opened_witness :
  @sql_Open (Sample.ordersSql 100) (resolveType Sample.shopDatabase)
    (dsnOf Sample.shopDatabase) = None ∧
  ∃ work closes,
    events (@getCountCollection (Sample.ordersSql 100) Sample.shopDatabase)
    = work ++ closes ++ [DbClose] ∧
    RowsClose KIncrement ∈ closes ∧ RowsClose KRow ∉ closes.
Proof.
  assert (@sql_Open (Sample.ordersSql 100) (resolveType Sample.shopDatabase)
            (dsnOf Sample.shopDatabase) = None) as Ho by reflexivity.
  split; [exact Ho |].
  destruct (@collector_closes_what_it_opened (Sample.ordersSql 100)
              Sample.shopDatabase Ho) as (work & closes & Hev & _ & _ & Hiff).
  exists work, closes. split; [exact Hev |]. split.
  - apply Hiff. split; [by vm_compute |]. split; [by vm_compute |].
    eexists. reflexivity.
  - intros Hin. apply Hiff in Hin as (Hq & _). by vm_compute in Hq.
Defined.

Lemma unassembled_query_is_logged_and_not_run_witness :
  @sql_Open Cases.failingInSql (resolveType Sample.shopDatabase)
    (dsnOf Sample.shopDatabase) = None ∧
  tablesOf KIncrement Sample.shopDatabase ≠ [] ∧
  @kindEvents Cases.failingInSql KIncrement Sample.shopDatabase
    = [Log assembleIncrementError [AErr "number of bindVars exceeds arguments"]] ∧
  (value (@getCountCollection Cases.failingInSql Sample.shopDatabase)).2 = None.
Proof.
  assert (@sql_Open Cases.failingInSql (resolveType Sample.shopDatabase)
            (dsnOf Sample.shopDatabase) = None) as Ho by reflexivity.
  assert (tablesOf KIncrement Sample.shopDatabase ≠ []) as Ht by discriminate.
  destruct (@unassembled_query_is_logged_and_not_run Cases.failingInSql KIncrement
              Sample.shopDatabase EmptyString
              "number of bindVars exceeds arguments" Ho Ht eq_refl)
    as (Hk & _ & _ & He).
  split; [exact Ho | split; [exact Ht | split; [exact Hk | exact He]]].
Defined.

Lemma unset_type_is_collected_as_mysql_witness :
  Type_ Cases.untypedDatabase = EmptyString ∧
  @resolveType Cases.untypedDatabase = "mysql" ∧
  value (@builtQuery Sample.unreachableSql KIncrement Cases.untypedDatabase)
    = ("SELECT TABLE_NAME,AUTO_INCREMENT FROM information_schema.TABLES WHERE TABLE_NAME IN (?) AND TABLE_SCHEMA = ?",
       ["orders"; "legacy"]).
Proof.
  assert (Type_ Cases.untypedDatabase = EmptyString) as Hty by reflexivity.
  destruct (@unset_type_is_collected_as_mysql Sample.unreachableSql
              Cases.untypedDatabase Hty) as (Hrt & _ & _ & _ & Hq).
  split; [exact Hty | split; [exact Hrt |]].
  destruct (Hq KIncrement) as [-> _]; [discriminate | reflexivity].
Defined.

(** ** Metric publisher *)

Section PublisherFacts.

Context `{Aws}.

Lemma forEach_event {A} (body : A → Eff unit) (l : list A) e :
  e ∈ events (forEach body l) ↔ ∃ x, x ∈ l ∧ e ∈ events (body x).
Proof.
  induction l as [|x l IH]; simpl.
  - split; [by intros ?%elem_of_nil | by intros (? & ?%elem_of_nil & _)].
  - rewrite events_bind, elem_of_app, IH. split.
    + intros [He | (y & Hy & He)]; [exists x | exists y]; split; try done.
      * by left.
      * by right.
    + intros (y & [-> | Hy]%elem_of_cons & He); [by left | right; eauto].
Qed.

Lemma forEach_puts {A} (body : A → Eff unit) (l : list A) :
  length (filter (λ e, isPutMetricData e = true) (events (forEach body l)))
  = sum_list ((λ x, length (filter (λ e, isPutMetricData e = true)
                              (events (body x)))) <$> l).
Proof.
  induction l as [|x l IH]; [done |].
  simpl. rewrite events_bind, filter_app, length_app. by rewrite IH.
Qed.

Lemma putMetric_events namespace name failed pushed countName count :
  events (putMetric namespace name failed pushed (countName, count))
  = [PutMetricData {| MetricName := countName; Value := count;
                      DimensionValue := name; Namespace := namespace |};
     match cloudwatch_PutMetricData
             {| MetricName := countName; Value := count;
                DimensionValue := name; Namespace := namespace |} with
     | Some err => Log failed [AStr countName; AInt count; AErr err]
     | None => Log pushed [AStr countName; AInt count]
     end].
Proof.
  unfold putMetric. rewrite events_bind. simpl.
  by destruct (cloudwatch_PutMetricData _).
Qed.

(** The events of the publisher once the session is open and the
    credentials are valid. *)
Lemma publisher_events countCollections awsConfig :
  session_NewSession (explicitOf awsConfig) = None →
  credentials_Get (explicitOf awsConfig) = None →
  putAWSCountCollectionMetrics countCollections awsConfig
  = (NewSession (explicitOf awsConfig) :: CredentialsGet
       :: events (forEach (λ '(name, cc),
                    _ ← forEach (putMetric (namespaceOf awsConfig) name
                                   incrementPushFailed incrementPushed)
                          (mrange (Increment cc));
                    forEach (putMetric (namespaceOf awsConfig) name
                               rowPushFailed rowPushed)
                      (mrange (Row cc)))
                 (mrange countCollections)),
     None).
Proof.
  intros Hs Hc. unfold putAWSCountCollectionMetrics.
  fold (namespaceOf awsConfig). fold (explicitOf awsConfig).
  rewrite Hs, Hc.
  unfold mbind, Eff_mbind, Eff_bind, emit, events. simpl.
  destruct (forEach _ (mrange countCollections)) as [evs []]. simpl.
  by rewrite app_nil_r.
Qed.

(** X9. The error the publisher returns is that of the session or of the
    credential check, whatever the single PUTs do; and when it returns an
    error it has attempted no PUT.  The session uses the default credential
    chain exactly when the configuration has no [aws] section. *)
Theorem publisher_fails_fast_and_only_then (countCollections : gomap countCollection)
    (awsConfig : gomap string) :
  value (putAWSCountCollectionMetrics countCollections awsConfig)
    = match session_NewSession (explicitOf awsConfig) with
      | Some err => Some err
      | None => credentials_Get (explicitOf awsConfig)
      end ∧
  (is_Some (value (putAWSCountCollectionMetrics countCollections awsConfig)) →
   Forall (λ e, isPutMetricData e = false)
     (events (putAWSCountCollectionMetrics countCollections awsConfig))) ∧
  (∃ evs, events (putAWSCountCollectionMetrics countCollections awsConfig)
          = NewSession (explicitOf awsConfig) :: evs) ∧
  (explicitOf awsConfig = None ↔ awsConfig = None).
Proof.
  assert (explicitOf awsConfig = None ↔ awsConfig = None) as Hex
    by (by destruct awsConfig).
  destruct (session_NewSession (explicitOf awsConfig)) as [err|] eqn:Hs.
  - assert (putAWSCountCollectionMetrics countCollections awsConfig
            = ([NewSession (explicitOf awsConfig)], Some err)) as ->.
    { unfold putAWSCountCollectionMetrics. fold (explicitOf awsConfig).
      by rewrite Hs. }
    repeat split; try apply Hex; eauto. by repeat constructor.
  - destruct (credentials_Get (explicitOf awsConfig)) as [err|] eqn:Hc.
    + assert (putAWSCountCollectionMetrics countCollections awsConfig
              = ([NewSession (explicitOf awsConfig); CredentialsGet], Some err))
        as ->.
      { unfold putAWSCountCollectionMetrics. fold (explicitOf awsConfig).
        by rewrite Hs, Hc. }
      repeat split; try apply Hex; eauto. by repeat constructor.
    + rewrite (publisher_events countCollections awsConfig Hs Hc).
      repeat split; try apply Hex; eauto. by intros [? ?].
Qed.

(** Every event of a publisher that got its session: the two calls that
    open it, or the PUT of a counter of a snapshot and its log line. *)
Lemma publisher_event countCollections awsConfig e :
  session_NewSession (explicitOf awsConfig) = None →
  credentials_Get (explicitOf awsConfig) = None →
  e ∈ events (putAWSCountCollectionMetrics countCollections awsConfig)
  ↔ e = NewSession (explicitOf awsConfig) ∨ e = CredentialsGet
    ∨ ∃ name cc kind table count,
        mget countCollections name = Some cc
        ∧ mget (counts kind cc) table = Some count
        ∧ e ∈ events (putMetric (namespaceOf awsConfig) name
                        (pushFailedFormat kind) (pushedFormat kind)
                        (table, count)).
Proof.
  intros Hs Hc. rewrite (publisher_events countCollections awsConfig Hs Hc).
  unfold events at 1. cbn [fst]. rewrite !elem_of_cons, forEach_event.
  split.
  - intros [-> | [-> | ([name cc] & Hcc%elem_of_mrange & He)]]; [by left | by right; left |].
    right; right. rewrite events_bind, elem_of_app, !forEach_event in He.
    destruct He as [([table count] & Ht%elem_of_mrange & He)
                   | ([table count] & Ht%elem_of_mrange & He)].
    + by exists name, cc, KIncrement, table, count.
    + by exists name, cc, KRow, table, count.
  - intros [-> | [-> | (name & cc & kind & table & count & Hcc & Ht & He)]];
      [by left | by right; left |].
    right; right. exists (name, cc). split; [by apply elem_of_mrange |].
    rewrite events_bind, elem_of_app, !forEach_event.
    destruct kind; [left | right]; exists (table, count);
      (split; [by apply elem_of_mrange | done]).
Qed.

(** The data a publisher with a session puts. *)
Lemma publisher_put countCollections awsConfig datum :
  session_NewSession (explicitOf awsConfig) = None →
  credentials_Get (explicitOf awsConfig) = None →
  PutMetricData datum
    ∈ events (putAWSCountCollectionMetrics countCollections awsConfig)
  ↔ ∃ name cc kind table count,
      mget countCollections name = Some cc
      ∧ mget (counts kind cc) table = Some count
      ∧ datum = datumOf awsConfig name table count.
Proof.
  intros Hs Hc. rewrite (publisher_event _ _ _ Hs Hc). split.
  - intros [? | [? | (name & cc & kind & table & count & Hcc & Ht & He)]];
      [done | done |].
    rewrite putMetric_events in He.
    apply elem_of_cons in He as [He | He].
    + injection He as ->. by exists name, cc, kind, table, count.
    + apply list_elem_of_singleton in He. by destruct (cloudwatch_PutMetricData _).
  - intros (name & cc & kind & table & count & Hcc & Ht & ->).
    right; right. exists name, cc, kind, table, count.
    split; [done |]. split; [done |]. rewrite putMetric_events. by left.
Qed.

(** X10. One PUT per counter: once the session is open and the credentials are
    valid, the data the publisher puts are exactly the counters of the
    snapshots (metric name the table, value the count, dimension the
    database identifier, in the resolved namespace), one call for each, and
    it returns a nil error whatever the calls return. *)
Theorem publisher_puts_every_counter_once (countCollections : gomap countCollection)
    (awsConfig : gomap string) :
  session_NewSession (explicitOf awsConfig) = None →
  credentials_Get (explicitOf awsConfig) = None →
  (∀ datum,
     PutMetricData datum
       ∈ events (putAWSCountCollectionMetrics countCollections awsConfig)
     ↔ ∃ name cc kind table count,
         mget countCollections name = Some cc
         ∧ mget (counts kind cc) table = Some count
         ∧ datum = datumOf awsConfig name table count) ∧
  length (filter (λ e, isPutMetricData e = true)
            (events (putAWSCountCollectionMetrics countCollections awsConfig)))
    = countersOf countCollections ∧
  value (putAWSCountCollectionMetrics countCollections awsConfig) = None.
Proof.
  intros Hs Hc. split; [| split].
  - intros datum. by apply publisher_put.
  - rewrite (publisher_events countCollections awsConfig Hs Hc).
    unfold events at 1. cbn [fst].
    rewrite !filter_cons_False by done.
    rewrite forEach_puts. unfold countersOf. f_equal.
    apply list_fmap_ext. intros _ [name cc] _. simpl.
    rewrite events_bind, filter_app, length_app, !forEach_puts.
    assert (∀ (failed pushed : string) (l : list (string * Z)),
              sum_list ((λ x, length (filter (λ e, isPutMetricData e = true)
                                        (events (putMetric (namespaceOf awsConfig)
                                                   name failed pushed x)))) <$> l)
              = length l) as Hone.
    { intros failed pushed l.
      transitivity (sum_list ((λ _, 1%nat) <$> l)).
      - f_equal. apply list_fmap_ext. intros _ [t c] _.
        rewrite putMetric_events.
        rewrite filter_cons_True by done.
        by rewrite filter_cons_False by (by destruct (cloudwatch_PutMetricData _)).
      - induction l as [|x l IH]; [done |].
        rewrite fmap_cons. cbn [sum_list sum_list_with length]. by rewrite IH. }
    by rewrite !Hone.
  - by rewrite (publisher_events countCollections awsConfig Hs Hc).
Qed.

(** X11. A PUT that fails is logged and the batch goes on: for every counter of
    the snapshots the log has the line of its outcome, the error at WARN
    for an increment counter and at ERROR for a row counter, the success
    at INFO. *)
Theorem every_put_is_logged (countCollections : gomap countCollection)
    (awsConfig : gomap string) (name : string) (cc : countCollection)
    (kind : counterKind) (table : string) (count : Z) :
  session_NewSession (explicitOf awsConfig) = None →
  credentials_Get (explicitOf awsConfig) = None →
  mget countCollections name = Some cc →
  mget (counts kind cc) table = Some count →
  match cloudwatch_PutMetricData (datumOf awsConfig name table count) with
  | Some err => Log (pushFailedFormat kind) [AStr table; AInt count; AErr err]
  | None => Log (pushedFormat kind) [AStr table; AInt count]
  end ∈ events (putAWSCountCollectionMetrics countCollections awsConfig) ∧
  isWarning (Log (pushFailedFormat KIncrement) []) = true ∧
  isLogWithPrefix "ERROR" (Log (pushFailedFormat KRow) []) = true ∧
  isLogWithPrefix "INFO" (Log (pushedFormat kind) []) = true.
Proof.
  intros Hs Hc Hcc Ht. split; [| split; [done | split; [done | by destruct kind]]].
  rewrite (publisher_event _ _ _ Hs Hc). right; right.
  exists name, cc, kind, table, count. split; [done |]. split; [done |].
  rewrite putMetric_events. right. by left.
Qed.

End PublisherFacts.

Lemma publisher_puts_every_counter_once_witness :
  @session_NewSession Sample.okAws (explicitOf None) = None ∧
  @credentials_Get Sample.okAws (explicitOf None) = None ∧
  PutMetricData {| MetricName := "events"; Value := -3;
                   DimensionValue := "shop"; Namespace := "RowMetrics" |}
    ∈ events (@putAWSCountCollectionMetrics Sample.okAws Cases.deltas None) ∧
  length (filter (λ e, isPutMetricData e = true)
            (events (@putAWSCountCollectionMetrics Sample.okAws Cases.deltas None)))
    = 2%nat.
Proof.
  assert (@session_NewSession Sample.okAws (explicitOf None) = None) as Hs
    by reflexivity.
  assert (@credentials_Get Sample.okAws (explicitOf None) = None) as Hc
    by reflexivity.
  destruct (@publisher_puts_every_counter_once Sample.okAws Cases.deltas None Hs Hc)
    as (Hput & Hlen & _).
  split; [exact Hs | split; [exact Hc | split]].
  - apply Hput.
    exists "shop", (Sample.snapshot [("orders", 50)] [("events", -3)]), KRow,
           "events", (-3).
    split; [by vm_compute | split; [by vm_compute | reflexivity]].
  - rewrite Hlen. by vm_compute.
Defined.

Lemma every_put_is_logged_witness :
  @session_NewSession Cases.throttledAws (explicitOf None) = None ∧
  @credentials_Get Cases.throttledAws (explicitOf None) = None ∧
  Log rowPushFailed [AStr "events"; AInt (-3); AErr "Throttling: Rate exceeded"]
    ∈ events (@putAWSCountCollectionMetrics Cases.throttledAws Cases.deltas None).
Proof.
  assert (@session_NewSession Cases.throttledAws (explicitOf None) = None) as Hs
    by reflexivity.
  assert (@credentials_Get Cases.throttledAws (explicitOf None) = None) as Hc
    by reflexivity.
  split; [exact Hs | split; [exact Hc |]].
  refine (proj1 (@every_put_is_logged Cases.throttledAws Cases.deltas None "shop"
                   (Sample.snapshot [("orders", 50)] [("events", -3)]) KRow
                   "events" (-3) Hs Hc _ _)); by vm_compute.
Defined.

(** X12. Save, then load, away from percent signs: when the YAML text of a
    collection has no percent sign, a successful save leaves exactly that
    text in the file, and a load then returns what the YAML library decodes
    from it: the collection itself when the library gives it back. *)
Theorem save_then_load_round_trips_without_percent `{Yaml} `{Os}
    (fileName : string) (collections : gomap countCollection) (w : World)
    (text : string) :
  yaml_Marshal collections = Ok text →
  os_Create fileName = None →
  hasPercent text = false →
  files (writeCountCollections fileName collections w).1 !! fileName = Some text ∧
  (loadCountCollections fileName (writeCountCollections fileName collections w).1).2
    = Return (yaml_Unmarshal text) ∧
  (yaml_Unmarshal text = Ok collections →
   (loadCountCollections fileName
      (writeCountCollections fileName collections w).1).2
     = Return (Ok collections)).
Proof.
  intros Hm Hc Hp.
  destruct (save_then_load fileName collections w text Hm Hc) as (_ & Hf & Hl).
  rewrite Sprintf_plain in Hf, Hl by done.
  split; [done |]. split; [done |]. intros Hu. by rewrite Hl, Hu.
Qed.

(** The collection of the first run of the scenario comes back as it was
    saved. *)
Lemma save_then_load_round_trips_without_percent_witness :
  let collections :=
    Sample.collections [("shop", Sample.snapshot [("orders", 100)] [])] in
  let w := {| files := ∅; trace := [] |} in
  @yaml_Marshal Sample.exampleYaml collections = Ok Sample.orders100Yaml ∧
  @os_Create Sample.okOs "counts.yml" = None ∧
  hasPercent Sample.orders100Yaml = false ∧
  (@loadCountCollections Sample.exampleYaml "counts.yml"
     (@writeCountCollections Sample.exampleYaml Sample.okOs "counts.yml"
        collections w).1).2
    = Return (Ok collections).
Proof.
  intros collections w.
  assert (@yaml_Marshal Sample.exampleYaml collections = Ok Sample.orders100Yaml)
    as Hm by (by vm_compute).
  assert (@os_Create Sample.okOs "counts.yml" = None) as Hc by reflexivity.
  assert (hasPercent Sample.orders100Yaml = false) as Hp by reflexivity.
  split; [exact Hm | split; [exact Hc | split; [exact Hp |]]].
  apply (@save_then_load_round_trips_without_percent Sample.exampleYaml
           Sample.okOs "counts.yml" collections w Sample.orders100Yaml Hm Hc Hp).
  by vm_compute.
Defined.

(** ** The loops of the run *)

Section LoopFacts.

Context `{Sql}.

Lemma collected_last databases cur name :
  collected databases cur !! name
  = match last (filter (λ d, Name d = name) databases) with
    | Some d => Some (value (getCountCollection d)).1
    | None => cur !! name
    end.
Proof.
  unfold collected. revert cur.
  induction databases as [|d databases IH]; intros cur; [done |].
  simpl. rewrite IH.
  destruct (decide (Name d = name)) as [Hd | Hd].
  - rewrite filter_cons_True by done. rewrite last_cons.
    destruct (last (filter (λ d0, Name d0 = name) databases)); [done |].
    subst name. by rewrite lookup_insert_eq.
  - rewrite filter_cons_False by done.
    destruct (last (filter (λ d0, Name d0 = name) databases)); [done |].
    by rewrite lookup_insert_ne.
Qed.

(** X13. At most one snapshot per identifier: when every collector returns, the
    collection the loop of lines 83-93 builds holds, for an identifier, the
    snapshot of the last configured database of that name, and nothing for
    an identifier that is not configured. *)
Theorem last_database_of_a_name_wins (databases : list databaseConfig) (w : World) :
  Forall (λ d, (value (getCountCollection d)).2 = None) databases →
  ∃ cur,
    (collectDatabases databases ∅ w).2 = Return cur ∧
    files (collectDatabases databases ∅ w).1 = files w ∧
    ∀ name,
      cur !! name
      = (λ d, (value (getCountCollection d)).1)
        <$> last (filter (λ d, Name d = name) databases).
Proof.
  intros Hok. exists (collected databases ∅).
  rewrite (collectDatabases_collected databases ∅ w Hok).
  split; [done |]. split; [done |].
  intros name. rewrite collected_last.
  by destruct (last (filter (λ d, Name d = name) databases)).
Qed.

(** The first collector that returns an error stops the loop with a
    panic. *)
Lemma collectDatabases_failed before database after cur w err :
  Forall (λ d, (value (getCountCollection d)).2 = None) before →
  (value (getCountCollection database)).2 = Some err →
  collectDatabases (before ++ database :: after) cur w
  = (record (collectedEvents before ++ events (getCountCollection database)
             ++ [Log countsFailed [AStr (Name database); AErr err]]) w,
     Stop (Panic countsFailed [AStr (Name database); AErr err])).
Proof.
  revert cur w. induction before as [|d before IH]; intros cur w Hok Herr.
  - simpl. rewrite Proc_bind_run. unfold lift.
    destruct (value (getCountCollection database)) as [c e] eqn:Hv.
    simpl in Herr. subst e. unfold logPanicf. by rewrite record_app.
  - apply Forall_cons in Hok as [Hd Hok]. simpl.
    rewrite Proc_bind_run. unfold lift.
    destruct (value (getCountCollection d)) as [c e] eqn:Hv. simpl in Hd. subst e.
    rewrite IH by done. by rewrite record_app, <- app_assoc.
Qed.

(** Either every collector returns, or there is a first one that fails. *)
Lemma collectors_succeed_or_first_fails databases :
  Forall (λ d, (value (getCountCollection d)).2 = None) databases
  ∨ ∃ before database after err,
      databases = before ++ database :: after
      ∧ Forall (λ d, (value (getCountCollection d)).2 = None) before
      ∧ (value (getCountCollection database)).2 = Some err.
Proof.
  induction databases as [|d databases IH]; [by left |].
  destruct (value (getCountCollection d)).2 as [err|] eqn:Hd.
  - right. exists [], d, databases, err. by repeat split.
  - destruct IH as [Hok | (before & database & after & err & -> & Hok & Herr)].
    + left. by constructor.
    + right. exists (d :: before), database, after, err.
      repeat split; [| done]. by constructor.
Qed.

End LoopFacts.

Lemma differencesOf_notin entries last diffs name :
  name ∉ entries.*1 → differencesOf entries last diffs !! name = diffs !! name.
Proof.
  revert diffs. induction entries as [|[n c] entries IH]; intros diffs Hn;
    simpl in *; [done |].
  apply not_elem_of_cons in Hn as [Hne Hn].
  destruct (mget last n); rewrite IH by done; [| done].
  by rewrite lookup_insert_ne.
Qed.

Lemma differencesOf_in entries last diffs name c :
  NoDup entries.*1 → (name, c) ∈ entries →
  differencesOf entries last diffs !! name
  = match mget last name with
    | Some l => Some (getCountCollectionDifference c l)
    | None => diffs !! name
    end.
Proof.
  revert diffs. induction entries as [|[n c'] entries IH]; intros diffs Hnd Hin;
    simpl in *.
  - by apply elem_of_nil in Hin.
  - apply NoDup_cons in Hnd as [Hn Hnd].
    apply elem_of_cons in Hin as [Heq | Hin].
    + injection Heq as <- <-.
      destruct (mget last name); rewrite differencesOf_notin by done; [| done].
      by rewrite lookup_insert_eq.
    + assert (n ≠ name) as Hne.
      { intros ->. apply Hn. apply list_elem_of_fmap. by exists (name, c). }
      destruct (mget last n); rewrite IH by done; [| done].
      destruct (mget last name); [done |]. by rewrite lookup_insert_ne.
Qed.

Lemma differencesOf_lookup (cur : gmap string countCollection) last name :
  differencesOf (map_to_list cur) last ∅ !! name
  = match cur !! name, mget last name with
    | Some c, Some l => Some (getCountCollectionDifference c l)
    | _, _ => None
    end.
Proof.
  destruct (cur !! name) as [c|] eqn:Hc.
  - rewrite (differencesOf_in _ _ _ name c);
      [| apply NoDup_fst_map_to_list | by apply elem_of_map_to_list].
    by destruct (mget last name).
  - rewrite differencesOf_notin; [done |].
    intros ([n c] & -> & Hin%elem_of_map_to_list)%list_elem_of_fmap.
    simpl in Hc. congruence.
Qed.

Lemma differenceEvents_event entries last e :
  e ∈ differenceEvents entries last
  ↔ ∃ name, e = Difference name ∧ name ∈ entries.*1 ∧ is_Some (mget last name).
Proof.
  induction entries as [|[n c] entries IH]; simpl.
  - split; [by intros ?%elem_of_nil | by intros (? & _ & ?%elem_of_nil & _)].
  - destruct (mget last n) as [l|] eqn:Hl.
    + rewrite elem_of_cons, IH. split.
      * intros [-> | (name & -> & Hin & Hs)].
        -- exists n. split; [done |]. split; [by left | by rewrite Hl].
        -- exists name. split; [done |]. split; [by right | done].
      * intros (name & -> & [-> | Hin]%elem_of_cons & Hs); [by left |].
        right. by exists name.
    + rewrite IH. split.
      * intros (name & -> & Hin & Hs). exists name.
        split; [done |]. split; [by right | done].
      * intros (name & -> & [-> | Hin]%elem_of_cons & Hs).
        -- rewrite Hl in Hs. by destruct Hs.
        -- by exists name.
Qed.

(** X14. Differences are taken for the identifiers of both collections and for
    no other: a database of the current run that the last session has too
    gets the difference of its two snapshots; a database of the current run
    that the last session lacks is skipped (it is not compared with an
    empty snapshot), and so is one that only the last session has.  The
    loop changes no file and cannot fail. *)
Theorem differences_are_taken_for_identifiers_of_both
    (cur : gmap string countCollection) (last : gomap countCollection) (w : World) :
  ∃ diffs,
    (differenceDatabases (map_to_list cur) last ∅ w).2 = Return diffs ∧
    files (differenceDatabases (map_to_list cur) last ∅ w).1 = files w ∧
    (∀ name,
       diffs !! name
       = match cur !! name, mget last name with
         | Some c, Some l => Some (getCountCollectionDifference c l)
         | _, _ => None
         end) ∧
    (∀ name,
       Difference name ∈ trace (differenceDatabases (map_to_list cur) last ∅ w).1
       ↔ Difference name ∈ trace w
         ∨ is_Some (cur !! name) ∧ is_Some (mget last name)).
Proof.
  exists (differencesOf (map_to_list cur) last ∅).
  rewrite differenceDatabases_run. cbn [fst snd files trace record].
  split; [done |]. split; [done |]. split; [apply differencesOf_lookup |].
  intros name. rewrite elem_of_app, differenceEvents_event.
  split; (intros [Hw | Hd]; [by left | right]).
  - destruct Hd as (n & Heq & Hin & Hs). injection Heq as <-.
    split; [| done].
    apply list_elem_of_fmap in Hin as ([n c] & -> & Hin%elem_of_map_to_list).
    by exists c.
  - destruct Hd as ([c Hc] & Hs). exists name. split; [done |]. split; [| done].
    apply list_elem_of_fmap. exists (name, c).
    split; [done | by apply elem_of_map_to_list].
Qed.

Lemma last_database_of_a_name_wins_witness :
  let databases := [Sample.shopDatabase; Cases.refundsDatabase] in
  let w := {| files := ∅; trace := [] |} in
  Forall (λ d, (value (@getCountCollection Cases.nullSql d)).2 = None) databases ∧
  ∃ cur,
    (@collectDatabases Cases.nullSql databases ∅ w).2 = Return cur ∧
    cur !! "shop"
    = Some (value (@getCountCollection Cases.nullSql Cases.refundsDatabase)).1.
Proof.
  intros databases w.
  assert (Forall (λ d, (value (@getCountCollection Cases.nullSql d)).2 = None)
            databases) as Hok by (by repeat constructor).
  split; [exact Hok |].
  destruct (@last_database_of_a_name_wins Cases.nullSql databases w Hok)
    as (cur & Hcur & _ & Hlast).
  exists cur. split; [exact Hcur |]. rewrite (Hlast "shop"). reflexivity.
Defined.

(** ** How a run ends *)

Section RunEnds.

Context `{Sql} `{Yaml} `{Os}.

Lemma run_configuration_missing (A : Aws) configPath fs :
  fs !! configPath = None →
  run configPath fs
  = ({| files := fs;
        trace := [ReadFile configPath; Log configFailed [AErr noSuchFile]] |},
     Stop (Panic configFailed [AErr noSuchFile])).
Proof.
  intros Hf. unfold run, main. rewrite Proc_bind_run. cbn [flagParse commandLine flag_Parse].
  rewrite Proc_bind_run. unfold loadApplicationConfig.
  rewrite Proc_bind_run. unfold ioutilReadFile. cbn [files]. by rewrite Hf.
Qed.

Lemma run_configuration_undecoded (A : Aws) configPath fs source err :
  fs !! configPath = Some source → yaml_UnmarshalConfig source = Err err →
  run configPath fs
  = ({| files := fs;
        trace := [ReadFile configPath; Log configFailed [AErr err]] |},
     Stop (Panic configFailed [AErr err])).
Proof.
  intros Hf Hd. unfold run, main. rewrite Proc_bind_run. cbn [flagParse commandLine flag_Parse].
  rewrite Proc_bind_run, (loadApplicationConfig_read _ _ source) by done.
  by rewrite Hd.
Qed.

Lemma run_collector_failed (A : Aws) configPath fs configSource config
    before database after err :
  fs !! configPath = Some configSource →
  yaml_UnmarshalConfig configSource = Ok config →
  Databases config = before ++ database :: after →
  Forall (λ d, (value (getCountCollection d)).2 = None) before →
  (value (getCountCollection database)).2 = Some err →
  run configPath fs
  = ({| files := fs;
        trace := ReadFile configPath :: collectedEvents before
                 ++ events (getCountCollection database)
                 ++ [Log countsFailed [AStr (Name database); AErr err]] |},
     Stop (Panic countsFailed [AStr (Name database); AErr err])).
Proof.
  intros Hf Hd Hdbs Hok Herr. unfold run, main.
  rewrite Proc_bind_run. cbn [flagParse commandLine flag_Parse].
  rewrite Proc_bind_run, (loadApplicationConfig_read _ _ configSource) by done.
  rewrite Hd, Proc_bind_run, Hdbs.
  rewrite (collectDatabases_failed before database after ∅ _ err Hok Herr).
  by rewrite record_app.
Qed.

Lemma run_counts_undecoded (A : Aws) configPath fs configSource config
    lastSource err :
  fs !! configPath = Some configSource →
  yaml_UnmarshalConfig configSource = Ok config →
  Forall (λ d, (value (getCountCollection d)).2 = None) (Databases config) →
  fs !! CountPath config = Some lastSource →
  yaml_Unmarshal lastSource = Err err →
  run configPath fs
  = ({| files := fs;
        trace := trace (afterStat configPath fs config)
                 ++ [ReadFile (CountPath config); Log loadFailed [AErr err]] |},
     Stop (Panic loadFailed [AErr err])).
Proof.
  intros Hf Hd Hok Hc Hl.
  rewrite (run_to_stat configPath fs configSource config Hf Hd Hok A).
  rewrite bool_decide_eq_false_2 by (by rewrite Hc).
  rewrite !Proc_bind_run.
  rewrite (loadCountCollections_read _ _ lastSource) by done. rewrite Hl.
  unfold logPanicf. by rewrite record_app.
Qed.

(** The events of a save, and what a save that returns an error leaves. *)
Lemma writeCountCollections_ends fileName collections w :
  (∃ text, yaml_Marshal collections = Ok text
           ∧ (writeCountCollections fileName collections w).2 = Return None
           ∧ files (writeCountCollections fileName collections w).1
             = <[fileName := Fmt.Sprintf text]> (files w)
           ∧ trace (writeCountCollections fileName collections w).1
             = trace w ++ [Create fileName; Fprintf fileName (Fmt.Sprintf text)])
  ∨ (∃ err, (writeCountCollections fileName collections w).2 = Return (Some err)
            ∧ files (writeCountCollections fileName collections w).1 = files w
            ∧ (trace (writeCountCollections fileName collections w).1 = trace w
               ∨ trace (writeCountCollections fileName collections w).1
                 = trace w ++ [Create fileName])).
Proof.
  destruct (writeCountCollections_cases fileName collections w)
    as [(err & Hm & ->) | [(text & err & Hm & Hcr & ->) | (text & Hm & Hcr & ->)]];
    cbn [fst snd files trace record].
  - right. exists err. auto.
  - right. exists err. auto.
  - left. by exists text.
Qed.

(** X15. The configuration cannot be read or decoded: the run panics at once,
    before any database is opened, and no file is changed. *)
Theorem unreadable_configuration_is_fatal (A : Aws) (configPath : string)
    (fs : gmap string string) (err : error) :
  fs !! configPath = None ∧ err = noSuchFile
  ∨ (∃ source, fs !! configPath = Some source
               ∧ yaml_UnmarshalConfig source = Err err) →
  run configPath fs
  = ({| files := fs;
        trace := [ReadFile configPath; Log configFailed [AErr err]] |},
     Stop (Panic configFailed [AErr err])).
Proof.
  intros [[Hf ->] | (source & Hf & Hd)].
  - by apply run_configuration_missing.
  - by apply (run_configuration_undecoded A configPath fs source).
Qed.

(** X16. A collector that returns an error ([sql.Open] failed) aborts the whole
    run: the process panics, the databases configured after it are not
    opened, nothing is published and no file is changed. *)
Theorem failed_collector_aborts_the_run (A : Aws) (configPath : string)
    (fs : gmap string string) (configSource : string) (config : applicationConfig)
    (before after : list databaseConfig) (database : databaseConfig) (err : error) :
  fs !! configPath = Some configSource →
  yaml_UnmarshalConfig configSource = Ok config →
  Databases config = before ++ database :: after →
  Forall (λ d, (value (getCountCollection d)).2 = None) before →
  sql_Open (resolveType database) (dsnOf database) = Some err →
  run configPath fs
  = ({| files := fs;
        trace := ReadFile configPath :: collectedEvents before
                 ++ [SqlOpen (resolveType database) (dsnOf database);
                     Log countsFailed [AStr (Name database); AErr err]] |},
     Stop (Panic countsFailed [AStr (Name database); AErr err])).
Proof.
  intros Hf Hd Hdbs Hok Herr.
  rewrite (run_collector_failed A configPath fs configSource config
             before database after err Hf Hd Hdbs Hok)
    by (by rewrite (getCountCollection_not_opened database err Herr)).
  by rewrite (getCountCollection_not_opened database err Herr).
Qed.

(** X17. A counts file that is there but does not decode is fatal: the run
    panics after reading it, nothing is published, and the file is not
    overwritten. *)
Theorem undecodable_counts_file_is_fatal (A : Aws) (configPath : string)
    (fs : gmap string string) (configSource : string) (config : applicationConfig)
    (lastSource : string) (err : error) :
  fs !! configPath = Some configSource →
  yaml_UnmarshalConfig configSource = Ok config →
  Forall (λ d, (value (getCountCollection d)).2 = None) (Databases config) →
  fs !! CountPath config = Some lastSource →
  yaml_Unmarshal lastSource = Err err →
  (run configPath fs).2 = Stop (Panic loadFailed [AErr err]) ∧
  files (run configPath fs).1 = fs ∧
  trace (run configPath fs).1
    = trace (afterStat configPath fs config)
      ++ [ReadFile (CountPath config); Log loadFailed [AErr err]] ∧
  Forall (λ e, isPublish e = false ∧ isDifference e = false)
    (trace (run configPath fs).1).
Proof.
  intros Hf Hd Hok Hc Hl.
  rewrite (run_counts_undecoded A configPath fs configSource config lastSource err
             Hf Hd Hok Hc Hl).
  cbn [fst snd files trace]. repeat split.
  apply Forall_app_2; [| by repeat constructor].
  eapply Forall_impl; [apply afterStat_quiet |].
  intros e [? ?]. done.
Qed.

(** When [flag.Parse] returns, the rest of [main] is the run on the value
    it left. *)
Lemma main_parsed (F : Flag) (A : Aws) configPath fs :
  flag_Parse "config" "config.yml" = Parsed configPath →
  main {| files := fs; trace := [] |} = run configPath fs.
Proof.
  intros Hp. unfold run, main. rewrite !Proc_bind_run.
  unfold flagParse. rewrite Hp. reflexivity.
Qed.

(** X18. How a run ends.  [flag.Parse] may end the process itself, with a
    status of its own, before anything is read or logged.  Otherwise the
    run ends by the [os.Exit(0)] of line 145 or by a panic.  It reaches
    line 145 only after [os.Create] succeeded on the counts file and
    [fmt.Fprintf] was called on it with the YAML of the current collection
    for format: the two calls are the last events of the run (what
    [Fprintf] returns is not looked at), and no other path is written to.
    When the run panics it has changed no file, and the line of the panic
    is the last thing it logged. *)
Theorem run_ends_by_flag_parse_save_or_panic (F : Flag) (A : Aws)
    (fs : gmap string string) :
  match flag_Parse "config" "config.yml" with
  | Exited code =>
      main {| files := fs; trace := [] |}
      = ({| files := fs; trace := [] |}, Stop (Exit code))
  | Parsed configPath =>
      match (main {| files := fs; trace := [] |}).2 with
      | Stop (Exit code) =>
          code = 0 ∧
          ∃ configSource config text evs,
            fs !! configPath = Some configSource ∧
            yaml_UnmarshalConfig configSource = Ok config ∧
            yaml_Marshal (Some (collected (Databases config) ∅)) = Ok text ∧
            os_Create (CountPath config) = None ∧
            trace (main {| files := fs; trace := [] |}).1
              = evs ++ [Create (CountPath config);
                        Fprintf (CountPath config) (Fmt.Sprintf text)] ∧
            ∀ path, path ≠ CountPath config →
                    files (main {| files := fs; trace := [] |}).1 !! path = fs !! path
      | Stop (Panic format operands) =>
          files (main {| files := fs; trace := [] |}).1 = fs ∧
          last (trace (main {| files := fs; trace := [] |}).1)
            = Some (Log format operands)
      | Return _ => False
      end
  end.
Proof.
  destruct (flag_Parse "config" "config.yml") as [configPath | code] eqn:Hp.
  2: { unfold main. rewrite Proc_bind_run. unfold flagParse. by rewrite Hp. }
  rewrite (main_parsed F A configPath fs Hp).
  destruct (fs !! configPath) as [configSource|] eqn:Hf;
    [| by rewrite (run_configuration_missing A configPath fs Hf)].
  destruct (yaml_UnmarshalConfig configSource) as [config | err] eqn:Hd;
    [| by rewrite (run_configuration_undecoded A configPath fs configSource err Hf Hd)].
  destruct (collectors_succeed_or_first_fails (Databases config))
    as [Hok | (before & database & after & err & Hdbs & Hok & Herr)].
  2: { rewrite (run_collector_failed A configPath fs configSource config
                  before database after err Hf Hd Hdbs Hok Herr).
       cbn [fst snd files trace]. split; [done |].
       by rewrite app_comm_cons, !app_assoc, last_snoc. }
  destruct (fs !! CountPath config) as [lastSource|] eqn:Hc.
  - destruct (yaml_Unmarshal lastSource) as [lastCollections | err] eqn:Hl.
    + rewrite (run_later configPath fs configSource config Hf Hd Hok A
                 lastSource lastCollections Hc Hl).
      destruct (writeCountCollections_cases (CountPath config)
                  (Some (collected (Databases config) ∅))
                  (record (beforeSave config lastCollections)
                     (afterStat configPath fs config)))
        as [(err & Hm & ->) | [(text & err & Hm & Hcr & ->) | (text & Hm & Hcr & ->)]];
        cbn [fst snd files trace record afterStat].
      * split; [done |]. by rewrite last_snoc.
      * split; [done |]. by rewrite last_snoc.
      * split; [done |]. exists configSource, config, text. eexists.
        repeat (split; [done |]). intros path Hne. by rewrite lookup_insert_ne.
    + rewrite (run_counts_undecoded A configPath fs configSource config
                 lastSource err Hf Hd Hok Hc Hl).
      cbn [fst snd files trace]. split; [done |].
      by rewrite last_app.
  - rewrite (run_first configPath fs configSource config Hf Hd Hok A Hc).
    destruct (writeCountCollections_cases (CountPath config)
                (Some (collected (Databases config) ∅))
                (afterStat configPath fs config))
      as [(err & Hm & ->) | [(text & err & Hm & Hcr & ->) | (text & Hm & Hcr & ->)]];
      cbn [fst snd files trace record afterStat].
    + split; [done |]. by rewrite last_snoc.
    + split; [done |]. by rewrite last_snoc.
    + split; [done |]. exists configSource, config, text. eexists.
      repeat (split; [done |]). intros path Hne. by rewrite lookup_insert_ne.
Qed.

(** The trace of a run that loaded the last collection: up to the test of
    line 95, then load, differences and publish, then the save. *)
Lemma later_run_trace (A : Aws) configPath fs configSource config lastSource
    lastCollections :
  fs !! configPath = Some configSource →
  yaml_UnmarshalConfig configSource = Ok config →
  Forall (λ d, (value (getCountCollection d)).2 = None) (Databases config) →
  fs !! CountPath config = Some lastSource →
  yaml_Unmarshal lastSource = Ok lastCollections →
  ∃ evs,
    trace (run configPath fs).1
    = trace (afterStat configPath fs config)
      ++ beforeSave config lastCollections ++ evs
    ∧ Forall (λ e, isPublish e = false) evs.
Proof.
  intros Hf Hd Hok Hc Hl.
  rewrite (run_later configPath fs configSource config Hf Hd Hok A
             lastSource lastCollections Hc Hl).
  destruct (writeCountCollections_ends (CountPath config)
              (Some (collected (Databases config) ∅))
              (record (beforeSave config lastCollections)
                 (afterStat configPath fs config)))
    as [(text & Hm & Hr & Hfiles & Htrace) | (err & Hr & Hfiles & Htrace)];
    destruct (writeCountCollections _ _ _) as [w r]; cbn [fst snd] in *;
    subst r; cbn [fst snd files trace record] in *.
  - eexists. rewrite Htrace, <- app_assoc. split; [done |]. by repeat constructor.
  - destruct Htrace as [-> | ->]; eexists; rewrite <- !app_assoc;
      (split; [done |]); by repeat constructor.
Qed.

(** The data a later run with a session puts. *)
Lemma later_run_put (A : Aws)
    (configPath : string) (fs : gmap string string) (configSource : string)
    (config : applicationConfig) (lastSource : string)
    (lastCollections : gomap countCollection) :
  fs !! configPath = Some configSource →
  yaml_UnmarshalConfig configSource = Ok config →
  Forall (λ d, (value (getCountCollection d)).2 = None) (Databases config) →
  fs !! CountPath config = Some lastSource →
  yaml_Unmarshal lastSource = Ok lastCollections →
  session_NewSession (explicitOf (AwsConfig config)) = None →
  credentials_Get (explicitOf (AwsConfig config)) = None →
  ∀ datum,
    PutMetricData datum ∈ trace (run configPath fs).1
    ↔ ∃ name cur previous kind table count,
        collected (Databases config) ∅ !! name = Some cur
        ∧ mget lastCollections name = Some previous
        ∧ mget (counts kind cur) table = Some count
        ∧ datum = datumOf (AwsConfig config) name table
                    (deltaOf (counts kind previous) table count).
Proof.
  intros Hf Hd Hok Hc Hl Hs Hcr datum.
  destruct (later_run_trace A configPath fs configSource config lastSource
              lastCollections Hf Hd Hok Hc Hl) as (evs & -> & Hevs).
  assert (PutMetricData datum ∉ trace (afterStat configPath fs config)) as Hn1.
  { intros Hin. pose proof (afterStat_quiet configPath fs config) as Hq.
    rewrite Forall_forall in Hq. by destruct (Hq _ Hin). }
  assert (PutMetricData datum ∉ evs) as Hn2.
  { intros Hin. rewrite Forall_forall in Hevs. by apply Hevs in Hin. }
  assert (PutMetricData datum
            ∉ differenceEvents (map_to_list (collected (Databases config) ∅))
                lastCollections) as Hn3.
  { by intros (name & ? & _)%differenceEvents_event. }
  unfold beforeSave. rewrite !elem_of_app, list_elem_of_singleton.
  unfold published. rewrite (publisher_put _ _ _ Hs Hcr).
  split.
  - intros [? | [[? | [? | [Hp | Hlog]]] | ?]]; try done.
    + destruct Hp as (name & cc & kind & table & v & Hcc & Hv & ->).
      simpl in Hcc. rewrite differencesOf_lookup in Hcc.
      destruct (collected (Databases config) ∅ !! name) as [cur|] eqn:Hcur;
        [| done].
      destruct (mget lastCollections name) as [previous|] eqn:Hprev; [| done].
      injection Hcc as <-. rewrite difference_lookup in Hv.
      destruct (mget (counts kind cur) table) as [count|] eqn:Hcount; [| done].
      injection Hv as <-.
      by exists name, cur, previous, kind, table, count.
    + destruct (value (putAWSCountCollectionMetrics _ _));
        [by apply list_elem_of_singleton in Hlog | by apply elem_of_nil in Hlog].
  - intros (name & cur & previous & kind & table & count & Hcur & Hprev & Hcount & ->).
    right. left. right. right. left.
    exists name, (getCountCollectionDifference cur previous), kind, table,
           (deltaOf (counts kind previous) table count).
    split; [| split; [| done]].
    + simpl. by rewrite differencesOf_lookup, Hcur, Hprev.
    + by rewrite difference_lookup, Hcount.
Qed.

(** X19. What a run publishes.  A run that loaded the last collection and got
    its session puts exactly the differences of the databases that both
    the current run and the last session have: for each table of the
    current snapshot of such a database, the current counter minus the last
    one (0 for a table the last snapshot lacks), named by the table and
    tagged with the database identifier.  A database that only one of the
    two has gives no datum. *)
Theorem later_run_publishes_the_deltas_of_known_databases (A : Aws)
    (configPath : string) (fs : gmap string string) (configSource : string)
    (config : applicationConfig) (lastSource : string)
    (lastCollections : gomap countCollection) :
  fs !! configPath = Some configSource →
  yaml_UnmarshalConfig configSource = Ok config →
  Forall (λ d, (value (getCountCollection d)).2 = None) (Databases config) →
  fs !! CountPath config = Some lastSource →
  yaml_Unmarshal lastSource = Ok lastCollections →
  session_NewSession (explicitOf (AwsConfig config)) = None →
  credentials_Get (explicitOf (AwsConfig config)) = None →
  ∀ datum,
    PutMetricData datum ∈ trace (run configPath fs).1
    ↔ ∃ name cur previous kind table count,
        collected (Databases config) ∅ !! name = Some cur
        ∧ mget lastCollections name = Some previous
        ∧ mget (counts kind cur) table = Some count
        ∧ datum = datumOf (AwsConfig config) name table
                    (deltaOf (counts kind previous) table count).
Proof.
  intros Hf Hd Hok Hc Hl Hs Hcr datum.
  by apply (later_run_put A configPath fs configSource config lastSource
              lastCollections).
Qed.

(** X20. Two runs over unchanged counters.  After a first run saved the current
    collection (and the YAML library gives it back from the text it wrote),
    a second run over the same databases publishes one datum for every
    counter, and each of them is 0. *)
Theorem unchanged_counters_publish_zeros (A : Aws)
    (configPath : string) (fs : gmap string string) (configSource : string)
    (config : applicationConfig) (text : string) :
  fs !! configPath = Some configSource →
  yaml_UnmarshalConfig configSource = Ok config →
  Forall (λ d, (value (getCountCollection d)).2 = None) (Databases config) →
  fs !! CountPath config = None →
  configPath ≠ CountPath config →
  yaml_Marshal (Some (collected (Databases config) ∅)) = Ok text →
  os_Create (CountPath config) = None →
  hasPercent text = false →
  yaml_Unmarshal text = Ok (Some (collected (Databases config) ∅)) →
  session_NewSession (explicitOf (AwsConfig config)) = None →
  credentials_Get (explicitOf (AwsConfig config)) = None →
  ∀ datum,
    PutMetricData datum ∈ trace (run configPath (files (run configPath fs).1)).1
    ↔ ∃ name snapshot kind table count,
        collected (Databases config) ∅ !! name = Some snapshot
        ∧ mget (counts kind snapshot) table = Some count
        ∧ datum = datumOf (AwsConfig config) name table 0.
Proof.
  intros Hf Hd Hok Hc Hne Hm Hcr Hp Hu Hs Hcg datum.
  assert (files (run configPath fs).1 = <[CountPath config := text]> fs) as ->.
  { rewrite (run_first configPath fs configSource config Hf Hd Hok A Hc).
    rewrite (writeCountCollections_written _ _ _ text Hm Hcr).
    cbn [fst files afterStat]. by rewrite Sprintf_plain. }
  rewrite (later_run_put A configPath (<[CountPath config := text]> fs)
             configSource config text (Some (collected (Databases config) ∅)));
    try done.
  - split.
    + intros (name & cur & previous & kind & table & count
              & Hcur & Hprev & Hcount & ->).
      simpl in Hprev. rewrite Hcur in Hprev. injection Hprev as <-.
      exists name, cur, kind, table, count. split; [done |]. split; [done |].
      unfold deltaOf. by rewrite Hcount, sub_diag.
    + intros (name & cur & kind & table & count & Hcur & Hcount & ->).
      exists name, cur, cur, kind, table, count.
      split; [done |]. split; [done |]. split; [done |].
      unfold deltaOf. by rewrite Hcount, sub_diag.
  - by rewrite lookup_insert_ne.
  - apply lookup_insert_eq.
Qed.

End RunEnds.

Lemma unreadable_configuration_is_fatal_witness :
  let fs : gmap string string := {["counts.yml" := Sample.orders100Yaml]} in
  (fs !! "config.yml" = None ∧ noSuchFile = noSuchFile
   ∨ ∃ source, fs !! "config.yml" = Some source
               ∧ @yaml_UnmarshalConfig Sample.exampleYaml source = Err noSuchFile) ∧
  @run (Sample.ordersSql 150) Sample.exampleYaml Sample.okAws Sample.okOs
    "config.yml" fs
  = ({| files := fs;
        trace := [ReadFile "config.yml"; Log configFailed [AErr noSuchFile]] |},
     Stop (Panic configFailed [AErr noSuchFile])).
Proof.
  intros fs.
  assert (fs !! "config.yml" = None ∧ noSuchFile = noSuchFile
          ∨ ∃ source, fs !! "config.yml" = Some source
                      ∧ @yaml_UnmarshalConfig Sample.exampleYaml source
                        = Err noSuchFile) as Hc
    by (left; split; [by vm_compute | reflexivity]).
  split; [exact Hc |].
  exact (@unreadable_configuration_is_fatal (Sample.ordersSql 150)
           Sample.exampleYaml Sample.okOs Sample.okAws "config.yml" fs noSuchFile Hc).
Defined.

(** The second of three targets has no driver: the third is not opened. *)
Lemma failed_collector_aborts_the_run_witness :
  let fs : gmap string string := {["config.yml" := "config"]} in
  let r := @run Cases.unknownDriverSql Cases.mixedYaml Sample.okAws Sample.okOs
             "config.yml" fs in
  fs !! "config.yml" = Some "config" ∧
  @yaml_UnmarshalConfig Cases.mixedYaml "config" = Ok Cases.mixedConfig ∧
  Databases Cases.mixedConfig
    = [Sample.shopDatabase] ++ Cases.oracleDatabase :: [Sample.eventsConfig] ∧
  Forall (λ d, (value (@getCountCollection Cases.unknownDriverSql d)).2 = None)
    [Sample.shopDatabase] ∧
  @sql_Open Cases.unknownDriverSql (resolveType Cases.oracleDatabase)
    (dsnOf Cases.oracleDatabase)
    = Some "sql: unknown driver (forgotten import?)" ∧
  r.2 = Stop (Panic countsFailed
                [AStr "ledger"; AErr "sql: unknown driver (forgotten import?)"]) ∧
  files r.1 = fs ∧
  SqlOpen (resolveType Sample.eventsConfig) (dsnOf Sample.eventsConfig) ∉ trace r.1.
Proof.
  intros fs r.
  assert (fs !! "config.yml" = Some "config") as Hf by (by vm_compute).
  assert (@yaml_UnmarshalConfig Cases.mixedYaml "config" = Ok Cases.mixedConfig)
    as Hd by reflexivity.
  assert (Databases Cases.mixedConfig
          = [Sample.shopDatabase] ++ Cases.oracleDatabase :: [Sample.eventsConfig])
    as Hdbs by reflexivity.
  assert (Forall (λ d, (value (@getCountCollection Cases.unknownDriverSql d)).2 = None)
            [Sample.shopDatabase]) as Hok by (by repeat constructor).
  assert (@sql_Open Cases.unknownDriverSql (resolveType Cases.oracleDatabase)
            (dsnOf Cases.oracleDatabase)
          = Some "sql: unknown driver (forgotten import?)") as Herr by reflexivity.
  pose proof (@failed_collector_aborts_the_run Cases.unknownDriverSql
                Cases.mixedYaml Sample.okOs Sample.okAws "config.yml" fs "config"
                Cases.mixedConfig [Sample.shopDatabase] [Sample.eventsConfig]
                Cases.oracleDatabase "sql: unknown driver (forgotten import?)"
                Hf Hd Hdbs Hok Herr) as Hrun.
  repeat (split; [assumption |]).
  subst r. rewrite Hrun. cbn [fst snd files trace].
  split; [reflexivity |]. split; [reflexivity |].
  intros Hin. apply list_elem_of_In in Hin. vm_compute in Hin.
  repeat (destruct Hin as [Hin | Hin]; [discriminate Hin |]). exact Hin.
Defined.

Lemma undecodable_counts_file_is_fatal_witness :
  let fs : gmap string string :=
    {["config.yml" := "config"; "counts.yml" := "shop: ["]} in
  let r := @run (Sample.ordersSql 150) Sample.exampleYaml Sample.okAws
             Sample.okOs "config.yml" fs in
  fs !! "config.yml" = Some "config" ∧
  @yaml_UnmarshalConfig Sample.exampleYaml "config" = Ok Sample.ordersConfig ∧
  Forall (λ d, (value (@getCountCollection (Sample.ordersSql 150) d)).2 = None)
    (Databases Sample.ordersConfig) ∧
  fs !! CountPath Sample.ordersConfig = Some "shop: [" ∧
  @yaml_Unmarshal Sample.exampleYaml "shop: ["
    = Err "yaml: text not among the examples" ∧
  r.2 = Stop (Panic loadFailed [AErr "yaml: text not among the examples"]) ∧
  files r.1 = fs.
Proof.
  intros fs r.
  assert (fs !! "config.yml" = Some "config") as Hf by (by vm_compute).
  assert (@yaml_UnmarshalConfig Sample.exampleYaml "config" = Ok Sample.ordersConfig)
    as Hd by reflexivity.
  assert (Forall (λ d, (value (@getCountCollection (Sample.ordersSql 150) d)).2 = None)
            (Databases Sample.ordersConfig)) as Hok by (by repeat constructor).
  assert (fs !! CountPath Sample.ordersConfig = Some "shop: [") as Hc
    by (by vm_compute).
  assert (@yaml_Unmarshal Sample.exampleYaml "shop: ["
          = Err "yaml: text not among the examples") as Hl by (by vm_compute).
  destruct (@undecodable_counts_file_is_fatal (Sample.ordersSql 150)
              Sample.exampleYaml Sample.okOs Sample.okAws "config.yml" fs "config"
              Sample.ordersConfig "shop: [" "yaml: text not among the examples"
              Hf Hd Hok Hc Hl) as (Hexit & Hfiles & _).
  repeat (split; [assumption |]). exact Hfiles.
Defined.

(** A command line that [flag.Parse] refuses: the process ends with the
    status [flag.Parse] gives it, and nothing was read. *)
Lemma run_ends_by_flag_parse_save_or_panic_witness :
  let fs : gmap string string := {["config.yml" := "config"]} in
  @main (Sample.ordersSql 100) Sample.exampleYaml Sample.okAws Sample.okOs
    Cases.refusedCommandLine {| files := fs; trace := [] |}
  = ({| files := fs; trace := [] |}, Stop (Exit 2)).
Proof.
  intros fs.
  exact (@run_ends_by_flag_parse_save_or_panic (Sample.ordersSql 100)
           Sample.exampleYaml Sample.okOs Cases.refusedCommandLine Sample.okAws fs).
Defined.

(** The second run of the scenario publishes [orders] = 50 for [shop]. *)
Lemma later_run_publishes_the_deltas_of_known_databases_witness :
  let fs : gmap string string :=
    {["config.yml" := "config"; "counts.yml" := Sample.orders100Yaml]} in
  let r := @run (Sample.ordersSql 150) Sample.exampleYaml Sample.okAws
             Sample.okOs "config.yml" fs in
  fs !! "config.yml" = Some "config" ∧
  @yaml_UnmarshalConfig Sample.exampleYaml "config" = Ok Sample.ordersConfig ∧
  Forall (λ d, (value (@getCountCollection (Sample.ordersSql 150) d)).2 = None)
    (Databases Sample.ordersConfig) ∧
  fs !! CountPath Sample.ordersConfig = Some Sample.orders100Yaml ∧
  @session_NewSession Sample.okAws (explicitOf (AwsConfig Sample.ordersConfig)) = None ∧
  @credentials_Get Sample.okAws (explicitOf (AwsConfig Sample.ordersConfig)) = None ∧
  PutMetricData {| MetricName := "orders"; Value := 50;
                   DimensionValue := "shop"; Namespace := "RowMetrics" |}
    ∈ trace r.1.
Proof.
  intros fs r.
  assert (fs !! "config.yml" = Some "config") as Hf by (by vm_compute).
  assert (@yaml_UnmarshalConfig Sample.exampleYaml "config" = Ok Sample.ordersConfig)
    as Hd by reflexivity.
  assert (Forall (λ d, (value (@getCountCollection (Sample.ordersSql 150) d)).2 = None)
            (Databases Sample.ordersConfig)) as Hok by (by repeat constructor).
  assert (fs !! CountPath Sample.ordersConfig = Some Sample.orders100Yaml) as Hc
    by (by vm_compute).
  assert (@session_NewSession Sample.okAws
            (explicitOf (AwsConfig Sample.ordersConfig)) = None) as Hs by reflexivity.
  assert (@credentials_Get Sample.okAws
            (explicitOf (AwsConfig Sample.ordersConfig)) = None) as Hcr by reflexivity.
  repeat (split; [assumption |]).
  apply (@later_run_publishes_the_deltas_of_known_databases (Sample.ordersSql 150)
           Sample.exampleYaml Sample.okOs Sample.okAws "config.yml" fs "config"
           Sample.ordersConfig Sample.orders100Yaml
           (Sample.collections [("shop", Sample.snapshot [("orders", 100)] [])])
           Hf Hd Hok Hc ltac:(by vm_compute) Hs Hcr).
  exists "shop", (Sample.snapshot [("orders", 150)] []),
         (Sample.snapshot [("orders", 100)] []), KIncrement, "orders", 150.
  split; [by vm_compute |]. split; [by vm_compute |]. split; [by vm_compute |].
  by vm_compute.
Defined.

(** The scenario run twice at [orders] = 100: the second run publishes 0. *)
Lemma unchanged_counters_publish_zeros_witness :
  let fs : gmap string string := {["config.yml" := "config"]} in
  let first := @run (Sample.ordersSql 100) Sample.exampleYaml Sample.okAws
                 Sample.okOs "config.yml" fs in
  let second := @run (Sample.ordersSql 100) Sample.exampleYaml Sample.okAws
                  Sample.okOs "config.yml" (files first.1) in
  fs !! "config.yml" = Some "config" ∧
  @yaml_UnmarshalConfig Sample.exampleYaml "config" = Ok Sample.ordersConfig ∧
  Forall (λ d, (value (@getCountCollection (Sample.ordersSql 100) d)).2 = None)
    (Databases Sample.ordersConfig) ∧
  fs !! CountPath Sample.ordersConfig = None ∧
  "config.yml" ≠ CountPath Sample.ordersConfig ∧
  hasPercent Sample.orders100Yaml = false ∧
  PutMetricData {| MetricName := "orders"; Value := 0;
                   DimensionValue := "shop"; Namespace := "RowMetrics" |}
    ∈ trace second.1.
Proof.
  intros fs first second.
  assert (fs !! "config.yml" = Some "config") as Hf by (by vm_compute).
  assert (@yaml_UnmarshalConfig Sample.exampleYaml "config" = Ok Sample.ordersConfig)
    as Hd by reflexivity.
  assert (Forall (λ d, (value (@getCountCollection (Sample.ordersSql 100) d)).2 = None)
            (Databases Sample.ordersConfig)) as Hok by (by repeat constructor).
  assert (fs !! CountPath Sample.ordersConfig = None) as Hc by (by vm_compute).
  assert ("config.yml" ≠ CountPath Sample.ordersConfig) as Hne by discriminate.
  assert (hasPercent Sample.orders100Yaml = false) as Hp by reflexivity.
  repeat (split; [assumption |]).
  apply (@unchanged_counters_publish_zeros (Sample.ordersSql 100)
           Sample.exampleYaml Sample.okOs Sample.okAws "config.yml" fs "config"
           Sample.ordersConfig Sample.orders100Yaml
           Hf Hd Hok Hc Hne ltac:(by vm_compute) eq_refl Hp ltac:(by vm_compute)
           eq_refl eq_refl).
  exists "shop", (Sample.snapshot [("orders", 100)] []), KIncrement, "orders", 100.
  split; [by vm_compute |]. split; [by vm_compute |]. reflexivity.
Defined.
